(** * Nandu Brain: query validation, spelling guard, classification cache,
      rate limiting, audit logging, catalogue search and record merging

    A shallow embedding of [backend/nandu_brain_backup.py].

    Conventions of the embedding.
    - A Python [str] is a [string]; its characters are read as ASCII.  The
      behaviour of [str.lower], [str.isalpha], [str.strip] and [str.split] on
      characters outside ASCII is outside the model: such bytes are kept as
      they are and are neither letters nor white space.
      The messages hold an emoji, whose bytes are kept; no property depends
      on the length of a message.
    - A reading of [time.time()] is an integer number of clock ticks ([Z]);
      the code only subtracts and compares readings.  A function that reads
      the clock takes its readings as arguments.
    - A Python [dict] whose iteration order matters is an association list in
      insertion order; a [dict] used only through lookups is a [gmap]. *)

From Stdlib Require Import ZArith List String Ascii Lia Permutation Sorted Bool.
From Corelib Require Import PrimFloat.
From stdpp Require Import gmap strings list pretty.

Import ListNotations.
Local Open Scope nat_scope.

(** ** Python string primitives (ASCII fragment) *)

Module PyStr.

Definition chars (s : string) : list ascii := list_ascii_of_string s.
Definition of_chars (l : list ascii) : string := string_of_list_ascii l.

Definition code (c : ascii) : nat := nat_of_ascii c.

(** [c.isspace()] on ASCII: TAB, LF, VT, FF, CR, FS, GS, RS, US, SPACE. *)
Definition isspace (c : ascii) : bool :=
  let n := code c in
  ((9 <=? n) && (n <=? 13)) || ((28 <=? n) && (n <=? 32)).

Definition isupper (c : ascii) : bool :=
  let n := code c in (65 <=? n) && (n <=? 90).

Definition islower (c : ascii) : bool :=
  let n := code c in (97 <=? n) && (n <=? 122).

Definition isalpha (c : ascii) : bool := isupper c || islower c.

Definition lower_char (c : ascii) : ascii :=
  if isupper c then ascii_of_nat (code c + 32) else c.

(** [string.punctuation] *)
Definition ispunct (c : ascii) : bool :=
  let n := code c in
  ((33 <=? n) && (n <=? 47)) || ((58 <=? n) && (n <=? 64)) ||
  ((91 <=? n) && (n <=? 96)) || ((123 <=? n) && (n <=? 126)).

Definition lower_l (l : list ascii) : list ascii := map lower_char l.

Fixpoint lstrip_l (l : list ascii) : list ascii :=
  match l with
  | c :: l' => if isspace c then lstrip_l l' else l
  | [] => []
  end.

Definition rstrip_l (l : list ascii) : list ascii := rev (lstrip_l (rev l)).

Definition strip_l (l : list ascii) : list ascii := rstrip_l (lstrip_l l).

(** [s.split()]: the maximal runs of characters that are not white space.
    [cur] is the run being read, in reverse. *)
Fixpoint split_ws_aux (cur : list ascii) (l : list ascii) : list (list ascii) :=
  match l with
  | [] => match cur with [] => [] | _ => [rev cur] end
  | c :: l' =>
      if isspace c
      then match cur with
           | [] => split_ws_aux [] l'
           | _ => rev cur :: split_ws_aux [] l'
           end
      else split_ws_aux (c :: cur) l'
  end.

Definition split_ws_l (l : list ascii) : list (list ascii) := split_ws_aux [] l.

(** [s.split(sep)] for a separator of one character: never empty, and it
    keeps empty pieces. *)
Fixpoint split_on_aux (sep : ascii) (cur : list ascii) (l : list ascii)
  : list (list ascii) :=
  match l with
  | [] => [rev cur]
  | c :: l' =>
      if Ascii.eqb c sep
      then rev cur :: split_on_aux sep [] l'
      else split_on_aux sep (c :: cur) l'
  end.

Definition split_on_l (sep : ascii) (l : list ascii) : list (list ascii) :=
  split_on_aux sep [] l.

(** [sep.join(parts)] *)
Fixpoint join_l (sep : list ascii) (parts : list (list ascii)) : list ascii :=
  match parts with
  | [] => []
  | [p] => p
  | p :: ps => p ++ sep ++ join_l sep ps
  end.

Fixpoint starts_with (p l : list ascii) : bool :=
  match p, l with
  | [], _ => true
  | _ :: _, [] => false
  | a :: p', b :: l' => Ascii.eqb a b && starts_with p' l'
  end.

(** [p in s] for strings. *)
Fixpoint contains_l (p l : list ascii) : bool :=
  starts_with p l ||
  match l with
  | [] => false
  | _ :: l' => contains_l p l'
  end.

(** [s.count(p)] for a pattern of two characters [a b]: occurrences that
    do not overlap, read from the left. *)
Fixpoint count2 (a b : ascii) (l : list ascii) : nat :=
  match l with
  | x :: ((y :: l'') as l') =>
      if Ascii.eqb x a && Ascii.eqb y b
      then S (count2 a b l'')
      else count2 a b l'
  | _ => 0
  end.

(** [re.findall(r"[A-Za-z']+", s)] *)
Definition is_word_char (c : ascii) : bool :=
  isalpha c || Ascii.eqb c "'"%char.

Fixpoint findall_words_aux (cur : list ascii) (l : list ascii)
  : list (list ascii) :=
  match l with
  | [] => match cur with [] => [] | _ => [rev cur] end
  | c :: l' =>
      if is_word_char c
      then findall_words_aux (c :: cur) l'
      else match cur with
           | [] => findall_words_aux [] l'
           | _ => rev cur :: findall_words_aux [] l'
           end
  end.

Definition lower (s : string) : string := of_chars (lower_l (chars s)).
Definition strip (s : string) : string := of_chars (strip_l (chars s)).
Definition split (s : string) : list string :=
  map of_chars (split_ws_l (chars s)).
Definition split_on (sep : ascii) (s : string) : list string :=
  map of_chars (split_on_l sep (chars s)).
Definition join (sep : string) (parts : list string) : string :=
  of_chars (join_l (chars sep) (map chars parts)).
Definition contains (p s : string) : bool := contains_l (chars p) (chars s).
Definition findall_words (s : string) : list string :=
  map of_chars (findall_words_aux [] (chars s)).
Definition remove_chars (drop : ascii -> bool) (s : string) : string :=
  of_chars (List.filter (fun c => negb (drop c)) (chars s)).
Definition len (s : string) : nat := List.length (chars s).
(** [s[:n]] for [n >= 0] *)
Definition prefix (n : nat) (s : string) : string :=
  of_chars (firstn n (chars s)).
Definition is_empty (s : string) : bool :=
  match s with EmptyString => true | _ => false end.

(** [x in xs] for a list of strings. *)
Definition mem (x : string) (xs : list string) : bool :=
  existsb (String.eqb x) xs.

End PyStr.

(** ** Input validation: [is_valid_query] *)

Definition LENGTH_ERROR : string :=
  "⚠️ Please enter a valid query with at least 2 characters.".

Definition GIBBERISH_ERROR : string :=
  "⚠️ I couldn't understand your query. Please enter a valid question about books, authors, or library services.".

Definition is_vowel (c : ascii) : bool :=
  PyStr.mem (String c EmptyString)
    ["a"; "e"; "i"; "o"; "u"; "A"; "E"; "I"; "O"; "U"]%string.

(** [sum(1 for c in query if c.isalpha())] *)
Definition letter_count (query : string) : nat :=
  List.length (List.filter PyStr.isalpha (PyStr.chars query)).

(** [sum(1 for c in query if c in vowels)] *)
Definition vowel_count (query : string) : nat :=
  List.length (List.filter is_vowel (PyStr.chars query)).

(** The loop [for i in range(len(query) - 3)] with its test
    [query.count(query[i:i+2]) > len(query) / 4].  [rest] is [query[i:]] and
    [n] the number of values of [i] still to visit.  The float quotient
    [len / 4] is exact, so the test is [4 * count > len]. *)
Fixpoint repeats_too_much (whole rest : list ascii) (n : nat) : bool :=
  match n, rest with
  | S n', a :: ((b :: _) as rest') =>
      (List.length whole <? 4 * PyStr.count2 a b whole) ||
      repeats_too_much whole rest' n'
  | _, _ => false
  end.

(** The gibberish test is [vowel_count < letter_count * 0.15] on floats.  Both
    counts are integers; the exact product [3 * letter_count / 20] is an
    integer or at least [1/20] away from one, the float product is within a
    rounding error of it and rounds to it when it is an integer; so the test
    is the integer comparison [20 * vowel_count < 3 * letter_count].
    [float_gibberish_test] is the test on binary64 floats, [0.15] being the
    double [0x1.3333333333333p-3]; [gibberish_test_agrees] compares the two
    for all counts up to 300, the longest query the entry point validates. *)
Definition gibberish_test (vowels letters : nat) : bool :=
  (5 <? letters) && (20 * vowels <? 3 * letters).

Fixpoint float_of_nat (n : nat) : float :=
  match n with
  | O => 0%float
  | S n' => PrimFloat.add (float_of_nat n') 1%float
  end.

Definition float_gibberish_test (vowels letters : nat) : bool :=
  (5 <? letters) &&
  PrimFloat.ltb (float_of_nat vowels)
    (PrimFloat.mul (float_of_nat letters) 0x1.3333333333333p-3%float).

Definition is_valid_query (query : string) : bool * string :=
  if PyStr.is_empty query || (PyStr.len (PyStr.strip query) <? 2)
  then (false, LENGTH_ERROR)
  else if gibberish_test (vowel_count query) (letter_count query)
  then (false, GIBBERISH_ERROR)
  else if (4 <? PyStr.len query) &&
          repeats_too_much (PyStr.chars query) (PyStr.chars query)
            (PyStr.len query - 3)
  then (false, GIBBERISH_ERROR)
  else (true, ""%string).

(** ** Spelling correction: [auto_correct_spelling] *)

Definition preserve_words : list string :=
  ["timings"; "ebooks"; "eresources"; "opac"; "scopus";
   "webopac"; "vpn"; "wifi"; "technobooth"; "grammarly";
   "turnitin"; "mendeley"; "zotero"; "jstor";
   "phd"; "pg"; "ug"; "btech"; "mtech"; "msc"; "bsc";
   "iit"; "ropar"; "isbn"; "doi"; "issn"]%string.

(** [abs(a - b) <= 3] on lengths. *)
Definition length_close (a b : nat) : bool :=
  (a - b <=? 3) && (b - a <=? 3).

Section Spelling.

(** The collaborators of the corrector: whether TextBlob was imported, what
    [str(TextBlob(query).correct())] gives ([None] when it raises), and the
    rows of [SELECT DISTINCT author FROM catalogue WHERE author IS NOT NULL]
    (no rows when the database is missing or the query fails). *)
Variable HAS_TEXTBLOB : bool.
Variable textblob_correct : string -> option string.
Variable catalogue_authors : list string.

Definition bar_slash_to_space (c : ascii) : ascii :=
  if Ascii.eqb c "|"%char || Ascii.eqb c "/"%char then " "%char else c.

(** The tokens one author row contributes to the lexicon. *)
Definition author_row_tokens (author : string) : list string :=
  let spaced := PyStr.of_chars (map bar_slash_to_space (PyStr.chars author)) in
  List.filter
    (fun tok => negb (PyStr.is_empty tok) && forallb PyStr.isalpha (PyStr.chars tok))
    (map (fun tok => PyStr.lower (PyStr.strip (PyStr.remove_chars PyStr.ispunct tok)))
         (PyStr.split spaced)).

Definition _author_token_lexicon : list string :=
  flat_map author_row_tokens
    (List.filter (fun a => negb (PyStr.is_empty a)) catalogue_authors).

Definition auto_correct_spelling (query : string) : string :=
  if negb HAS_TEXTBLOB || PyStr.is_empty query then query
  else
    let query_lower := PyStr.lower query in
    let query_words := PyStr.split query_lower in
    if existsb (fun word => PyStr.mem word query_words) preserve_words
    then query
    else
      let author_tokens := _author_token_lexicon in
      match textblob_correct query with
      | None => query
      | Some corrected =>
          if negb (String.eqb (PyStr.lower corrected) (PyStr.lower query))
          then
            let length_ok := length_close (PyStr.len corrected) (PyStr.len query) in
            let orig_tokens := PyStr.findall_words query_lower in
            let corr_tokens := PyStr.findall_words (PyStr.lower corrected) in
            let protected :=
              List.filter (fun t => PyStr.mem t author_tokens) orig_tokens in
            let author_tokens_preserved :=
              forallb (fun t => PyStr.mem t corr_tokens) protected in
            if length_ok && author_tokens_preserved then corrected else query
          else query
      end.

End Spelling.

(** ** Stable sorting, as [sorted(xs, key=...)] and [xs.sort(key=...)] *)

Section StableSort.

Context {A : Type}.
Variable le : A -> A -> bool.

(** [x] comes from before every element of [l] in the original list, so it
    goes before the first element that is not smaller. *)
Fixpoint insert_le (x : A) (l : list A) : list A :=
  match l with
  | [] => [x]
  | y :: l' => if le x y then x :: l else y :: insert_le x l'
  end.

Definition sort_le (l : list A) : list A := fold_right insert_le [] l.

End StableSort.

(** Sorting by an integer key. *)
Definition sort_by {A : Type} (key : A -> Z) (l : list A) : list A :=
  sort_le (fun x y => (key x <=? key y)%Z) l.

Definition key_le {A : Type} (key : A -> Z) (x y : A) : Prop :=
  (key x <= key y)%Z.

(** ** Classification cache *)

Definition CLASSIFICATION_CACHE_TTL : Z := 7200.

(** [classification_cache]: normalized query to (classification, timestamp),
    in insertion order. *)
Abbreviation cache_entry := (string * (string * Z))%type.

Definition entry_time (e : cache_entry) : Z := snd (snd e).

Section Dict.

Context {V : Type}.

(** [d[k] = v]: an existing key keeps its place, a new key goes last. *)
Fixpoint dict_set (k : string) (v : V) (d : list (string * V)) : list (string * V) :=
  match d with
  | [] => [(k, v)]
  | (k', v') :: d' =>
      if String.eqb k' k then (k', v) :: d' else (k', v') :: dict_set k v d'
  end.

Fixpoint dict_get (k : string) (d : list (string * V)) : option V :=
  match d with
  | [] => None
  | (k', v') :: d' => if String.eqb k' k then Some v' else dict_get k d'
  end.

(** [del d[k]] *)
Definition dict_del (k : string) (d : list (string * V)) : list (string * V) :=
  List.filter (fun e => negb (String.eqb (fst e) k)) d.

End Dict.

(** [query.lower().strip()] *)
Definition query_key (query : string) : string :=
  PyStr.strip (PyStr.lower query).

Definition get_cached_classification (now : Z) (query : string)
    (classification_cache : list cache_entry) : option string * list cache_entry :=
  let query_key := query_key query in
  match dict_get query_key classification_cache with
  | Some (classification, timestamp) =>
      if (now - timestamp <? CLASSIFICATION_CACHE_TTL)%Z
      then (Some classification, classification_cache)
      else (None, dict_del query_key classification_cache)
  | None => (None, classification_cache)
  end.

Definition cache_classification (now : Z) (query classification : string)
    (classification_cache : list cache_entry) : list cache_entry :=
  let query_key := query_key query in
  let cache := dict_set query_key (classification, now) classification_cache in
  if 500 <? List.length cache
  then
    let sorted_cache := sort_by entry_time cache in
    fold_left (fun c e => dict_del (fst e) c) (firstn 100 sorted_cache) cache
  else cache.

(** ** Rate limiting: the decorator [rate_limit] *)

(** How the caller passed [client_ip]: the wrapper only sees keyword
    arguments. *)
Inductive ip_arg : Type :=
| IpOmitted
| IpPositional (ip : string)
| IpKeyword (ip : string).

(** The argument [q]: a string, or any other object. *)
Inductive query_arg : Type :=
| QStr (s : string)
| QNotStr.

Record call : Type := {
  q : query_arg;
  search_mode : string;
  client_ip : ip_arg
}.

(** [kwargs.get('client_ip', 'default')] *)
Definition kwargs_client_ip (c : call) : string :=
  match client_ip c with
  | IpKeyword ip => ip
  | _ => "default"%string
  end.

(** The value the parameter [client_ip] of the decorated function takes. *)
Definition param_client_ip (c : call) : string :=
  match client_ip c with
  | IpOmitted => "default"%string
  | IpPositional ip | IpKeyword ip => ip
  end.

Record rate_limit_error : Type := {
  error : string;
  message : string;
  retry_after : Z
}.

Definition too_many_requests (window : Z) : rate_limit_error := {|
  error := "rate_limit_exceeded";
  message := ("⚠️ **Too many requests.** Please wait " +:+ pretty window
              +:+ " seconds and try again.")%string;
  retry_after := window
|}.

(** What the wrapper returns: the result of the wrapped function, or the
    rate-limit error. *)
Inductive limited (R : Type) : Type :=
| Allowed (r : R)
| Denied (e : rate_limit_error).

Arguments Allowed {R} r.
Arguments Denied {R} e.

(** [_rate_limiter]: a [defaultdict(list)] from client id to timestamps. *)
Abbreviation limiter := (gmap string (list Z)).

Definition window_of (client_id : string) (_rate_limiter : limiter) : list Z :=
  default [] (_rate_limiter !! client_id).

(** [[ts for ts in _rate_limiter[client_id] if current_time - ts < window]] *)
Definition live_timestamps (window current_time : Z) (timestamps : list Z) : list Z :=
  List.filter (fun ts => (current_time - ts <? window)%Z) timestamps.

Section RateLimit.

Context {St R : Type}.
Variables (max_requests window : Z).

(** The wrapped function acts on the rest of the program state; the
    wrapper owns [_rate_limiter].  [current_time] is the wrapper's reading
    of the clock. *)
Variable func : call -> St -> St * R.

Definition rate_limit (current_time : Z) (c : call) (st : limiter * St)
  : (limiter * St) * limited R :=
  let client_id := kwargs_client_ip c in
  let live := live_timestamps window current_time (window_of client_id (fst st)) in
  let _rate_limiter := <[client_id := live]> (fst st) in
  if (max_requests <=? Z.of_nat (List.length live))%Z
  then ((_rate_limiter, snd st), Denied (too_many_requests window))
  else
    let _rate_limiter := <[client_id := live ++ [current_time]]> _rate_limiter in
    let (s', r) := func c (snd st) in
    ((_rate_limiter, s'), Allowed r).

(** The same call served at each of [times], one after the other. *)
Fixpoint serve (times : list Z) (c : call) (st : limiter * St)
  : (limiter * St) * list (limited R) :=
  match times with
  | [] => (st, [])
  | t :: times' =>
      let (st1, out) := rate_limit t c st in
      let (st2, outs) := serve times' c st1 in
      (st2, out :: outs)
  end.

End RateLimit.

Definition is_allowed {R} (x : limited R) : bool :=
  match x with Allowed _ => true | Denied _ => false end.

(** ** Audit log *)

(** A line of [query_audit.jsonl].  [ar_processing_time] is the elapsed
    time between two readings of the clock, which the file holds in
    milliseconds, rounded to two decimals. *)
Record AuditRecord : Type := {
  ar_timestamp : string;
  ar_query : string;
  ar_response_length : nat;
  ar_client_ip : string;
  ar_processing_time : Z;
  ar_success : bool
}.

(** A call of a collaborator returns or raises. *)
Inductive raising (A : Type) : Type :=
| Ok (a : A)
| Raise.

Arguments Ok {A} a.
Arguments Raise {A}.

(** The collaborators of the entry point.  [Env] is the state they act on
    (catalogue, indexes, caches, error tracker, network); none of them
    touches [_rate_limiter] or the audit file. *)
Class Services (Env : Type) : Type := {
  has_textblob : bool;
  textblob_correct : string -> option string;
  catalogue_authors : list string;
  (** whether the logs directory can be made and the audit file appended to *)
  audit_io_ok : Env -> bool;
  (** [datetime.utcnow().isoformat()] *)
  utcnow_isoformat : Env -> string;
  track_error : string -> Env -> Env;
  (** [get_library_statistics()], then [stats['answer']] *)
  get_library_statistics : Env -> Env * raising (option string);
  classify_query_with_llama : string -> Env -> Env * raising string;
  (** the bodies of the [try] of the branches for the query types library,
      website and general *)
  answer_library : string -> Env -> Env * raising string;
  answer_website : string -> Env -> Env * raising string;
  answer_general : string -> Env -> Env * raising string;
  (** the body of the [try] of the book branch, from the original and the
      corrected query *)
  answer_book : string -> string -> Env -> Env * raising string
}.

Record Backend (Env : Type) : Type := {
  audit_log : list AuditRecord;
  env : Env
}.

Arguments audit_log {Env} b.
Arguments env {Env} b.

Definition nl : string := String (ascii_of_nat 10) EmptyString.

Definition PLEASE_ENTER : string := "Please enter a query.".
Definition TOO_LONG : string :=
  "⚠️ **Query too long.** Please keep your question under 300 characters.".
Definition STATISTICS_INTRO : string :=
  ("💡 **Here's what I found:**" +:+ nl +:+ nl)%string.
Definition STATISTICS_FAILED : string :=
  "⚠️ I couldn't retrieve the library statistics at this time. Please try again later.".
Definition BOOK_ERROR : string :=
  "⚠️ Sorry, I encountered an error searching for books. Please try again or contact the library helpdesk for assistance.".
Definition LIBRARY_ERROR : string :=
  "⚠️ Sorry, I encountered an error processing your query. Please try again.".
Definition WEBSITE_ERROR : string :=
  "⚠️ Sorry, I encountered an error searching the website. Please try again.".
Definition GENERAL_ERROR : string :=
  "⚠️ Sorry, I encountered an error processing your query. Please try again.".
Definition UNEXPECTED_ERROR : string :=
  "⚠️ Sorry, I encountered an unexpected error. Please try again or contact support if the problem persists.".

Definition statistics_patterns : list string :=
  ["total books in library"; "number of books in library";
   "how many books in library"; "how many books does library have";
   "how many books library have"; "books in library";
   "library collection"; "collection size"; "total collection";
   "library has how many"; "size of library"]%string.

Definition borrowing_patterns : list string :=
  ["students get"; "students borrow"; "students can borrow";
   "students can get"; "students issue"; "students can issue";
   "can i borrow"; "can i get"; "can i issue";
   "allowed to borrow"; "allowed to get"; "borrow limit";
   "issue limit"; "borrowing limit"; "issuing limit";
   "ug students"; "pg students"; "phd students";
   "faculty get"; "staff get"; "professor get"]%string.

(** How the [try] block of [get_nandu_response] ends: by one of its
    [return]s, those of the handlers of the library, website and general
    branches among them, in the handler of the book branch, or in the outer
    handler. *)
Inductive outcome : Type :=
| Returned (text : string)
| BookFailed
| Critical.

Section Orchestrator.

Context {Env : Type} `{Services Env}.

Definition audit_log_query (query response client_ip : string)
    (processing_time : Z) (success : bool) (b : Backend Env) : Backend Env :=
  if audit_io_ok (env b)
  then
    let log_entry := {|
      ar_timestamp := utcnow_isoformat (env b);
      ar_query := PyStr.prefix 100 query;
      ar_response_length := PyStr.len response;
      ar_client_ip :=
        if String.eqb client_ip "default" then "default"%string
        else (PyStr.prefix 10 client_ip +:+ "***")%string;
      ar_processing_time := processing_time;
      ar_success := success
    |} in
    {| audit_log := audit_log b ++ [log_entry]; env := env b |}
  else b.

(** A branch with a handler of its own, which logs the exception and
    returns [message]. *)
Definition returned (message : string) (r : Env * raising string)
  : Env * outcome :=
  match r with
  | (e, Ok text) => (e, Returned text)
  | (e, Raise) => (e, Returned message)
  end.

(** The [try] block, from the statistics check to the branch of the query
    type. *)
Definition try_block (original_query query mode : string) (e : Env)
  : Env * outcome :=
  let query_lower := PyStr.lower query in
  let is_borrowing_query :=
    existsb (fun pattern => PyStr.contains pattern query_lower) borrowing_patterns in
  let is_statistics_query :=
    existsb (fun pattern => PyStr.contains pattern query_lower) statistics_patterns
    && negb is_borrowing_query in
  if is_statistics_query
  then
    match get_library_statistics e with
    | (e1, Ok (Some answer)) => (e1, Returned (STATISTICS_INTRO +:+ answer))
    | (e1, Ok None) => (e1, Returned STATISTICS_FAILED)
    | (e1, Raise) => (e1, Critical)
    end
  else
    let classified :=
      if String.eqb mode "books" then (e, Ok "book"%string)
      else if String.eqb mode "library" then (e, Ok "library"%string)
      else if String.eqb mode "website" then (e, Ok "website"%string)
      else classify_query_with_llama query e in
    match classified with
    | (e1, Raise) => (e1, Critical)
    | (e1, Ok query_type) =>
        if String.eqb query_type "library"
        then returned LIBRARY_ERROR (answer_library query e1)
        else if String.eqb query_type "website"
        then returned WEBSITE_ERROR (answer_website query e1)
        else if String.eqb query_type "general"
        then returned GENERAL_ERROR (answer_general query e1)
        else
          match answer_book original_query query e1 with
          | (e2, Ok text) => (e2, Returned text)
          | (e2, Raise) => (e2, BookFailed)
          end
    end.

(** The body of [get_nandu_response].  [start_time] is its first reading of
    the clock and [end_time] the reading taken for the audit record. *)
Definition get_nandu_response_body (start_time end_time : Z) (c : call)
    (b : Backend Env) : Backend Env * string :=
  let client_ip := param_client_ip c in
  match q c with
  | QNotStr => (b, PLEASE_ENTER)
  | QStr q =>
      if PyStr.is_empty q then (b, PLEASE_ENTER)
      else if 300 <? PyStr.len q
      then
        let response := TOO_LONG in
        (audit_log_query (PyStr.prefix 100 q) response client_ip
           (end_time - start_time) false b, response)
      else
        let original_query := PyStr.strip q in
        let (is_valid, error_msg) := is_valid_query original_query in
        if negb is_valid
        then
          (audit_log_query original_query error_msg client_ip
             (end_time - start_time) false b, error_msg)
        else
          let corrected_query :=
            auto_correct_spelling has_textblob textblob_correct
              catalogue_authors original_query in
          let query := PyStr.strip corrected_query in
          let (e1, out) := try_block original_query query (search_mode c) (env b) in
          let finally (e : Env) (response : string) (success : bool) :=
            audit_log_query original_query
              (if PyStr.is_empty response then "no_response"%string else response)
              client_ip (end_time - start_time) success
              {| audit_log := audit_log b; env := e |} in
          match out with
          | Returned text => (finally e1 ""%string true, text)
          | BookFailed =>
              let e2 := track_error "get_nandu_response:book_query" e1 in
              (finally e2 BOOK_ERROR false, BOOK_ERROR)
          | Critical =>
              let e2 := track_error "get_nandu_response:critical" e1 in
              (finally e2 UNEXPECTED_ERROR false, UNEXPECTED_ERROR)
          end
  end.

(** [@rate_limit(max_requests=20, window=60)] *)
Definition get_nandu_response (current_time start_time end_time : Z) (c : call)
    (st : limiter * Backend Env) : (limiter * Backend Env) * limited string :=
  rate_limit 20 60 (get_nandu_response_body start_time end_time)
    current_time c st.

End Orchestrator.

(** ** Merging duplicate records: [merge_duplicates] *)

(** The values a record holds: strings, [None], integers (floats are
    outside the model). *)
Inductive pyval : Type :=
| VStr (s : string)
| VNone
| VInt (z : Z).

(** [str(v)] *)
Definition py_str (v : pyval) : string :=
  match v with
  | VStr s => s
  | VNone => "None"%string
  | VInt z => pretty z
  end.

(** An element of [results]: a dict, or an object without [get], on which
    the loop body raises and goes on to the next element. *)
Inductive item : Type :=
| Rec (d : gmap string pyval)
| NotARecord.

(** [item.get(k1, item.get(k2, ""))] *)
Definition get2 (d : gmap string pyval) (k1 k2 : string) : pyval :=
  match d !! k1 with
  | Some v => v
  | None => default (VStr "") (d !! k2)
  end.

Definition normalize_title (s : string) : string :=
  let s := PyStr.lower (PyStr.strip s) in
  let s := PyStr.remove_chars PyStr.ispunct s in
  PyStr.join " " (PyStr.split s).

(** [string.punctuation.replace("'", "")] *)
Definition ispunct_but_quote (c : ascii) : bool :=
  PyStr.ispunct c && negb (Ascii.eqb c "'"%char).

(** [s[0].lower() if s else ''] *)
Definition first_initial_of (s : string) : string :=
  match s with
  | EmptyString => ""%string
  | String c _ => String (PyStr.lower_char c) EmptyString
  end.

Definition canonical_author_key (author_raw : string) : string :=
  let a := PyStr.strip author_raw in
  if PyStr.is_empty a then ""%string
  else
    let primary :=
      PyStr.strip
        (hd ""%string
           (PyStr.split_on ";" (hd ""%string (PyStr.split_on "|" a)))) in
    let p := PyStr.remove_chars ispunct_but_quote primary in
    let parts := PyStr.split p in
    match parts with
    | [] => ""%string
    | first :: _ =>
        if PyStr.contains "," primary
        then
          let pieces := PyStr.split_on "," primary in
          let last := PyStr.lower (PyStr.strip (nth 0 pieces ""%string)) in
          let after := PyStr.strip (nth 1 pieces ""%string) in
          (last +:+ "|" +:+ first_initial_of after)%string
        else
          let last := PyStr.lower (List.last parts ""%string) in
          (last +:+ "|" +:+ first_initial_of first)%string
    end.

Record group : Type := {
  Title : string;
  Author : string;
  ISBN : string;
  Publisher : pyval;
  Year : pyval;
  copies : nat;
  accessions : list string;
  call_numbers : list string;
  editions : list (string * string)
}.

Abbreviation group_key_t := (string * string)%type.

Definition key_eqb (k1 k2 : group_key_t) : bool :=
  String.eqb (fst k1) (fst k2) && String.eqb (snd k1) (snd k2).

(** [groups] and [editions_map] have the same keys: an entry holds the
    group and, beside it, the set of (publisher, year) pairs seen for it. *)
Abbreviation group_entry := (group * list (string * string))%type.

(** [if x and x not in xs: xs.append(x)] *)
Definition append_new (x : string) (xs : list string) : list string :=
  if negb (PyStr.is_empty x) && negb (PyStr.mem x xs) then xs ++ [x] else xs.

(** [s.add(e)] on a set kept as a list. *)
Definition set_add (e : string * string) (s : list (string * string))
  : list (string * string) :=
  if existsb (fun e' => key_eqb e e') s then s else s ++ [e].

(** The fields the loop reads from one record. *)
Definition item_title (d : gmap string pyval) : string :=
  PyStr.strip (py_str (get2 d "Title" "title")).
Definition item_author (d : gmap string pyval) : string :=
  PyStr.strip (py_str (get2 d "Author" "author")).
Definition item_isbn (d : gmap string pyval) : string :=
  PyStr.strip (py_str (get2 d "ISBN" "isbn")).
Definition item_accession (d : gmap string pyval) : string :=
  PyStr.strip (py_str (get2 d "Barcode" "barcode")).
Definition item_call_no (d : gmap string pyval) : string :=
  PyStr.strip (py_str (get2 d "Call No" "itemcallnumber")).
Definition item_publisher (d : gmap string pyval) : pyval :=
  get2 d "Publisher" "publishercode".
Definition item_year (d : gmap string pyval) : pyval :=
  get2 d "Year" "copyrightdate".

(** The group made when a key is first seen. *)
Definition new_group (d : gmap string pyval) : group_entry :=
  ({| Title := item_title d;
      Author := item_author d;
      ISBN := item_isbn d;
      Publisher := item_publisher d;
      Year := item_year d;
      copies := 0;
      accessions := [];
      call_numbers := [];
      editions := [] |}, []).

(** What the loop body does to the group of the record. *)
Definition count_in (d : gmap string pyval) (ge : group_entry) : group_entry :=
  let g := fst ge in
  ({| Title := Title g;
      Author := Author g;
      ISBN := if PyStr.is_empty (ISBN g) && negb (PyStr.is_empty (item_isbn d))
              then item_isbn d else ISBN g;
      Publisher := Publisher g;
      Year := Year g;
      copies := copies g + 1;
      accessions := append_new (item_accession d) (accessions g);
      call_numbers := append_new (item_call_no d) (call_numbers g);
      editions := editions g |},
   set_add (PyStr.strip (py_str (item_publisher d)),
            PyStr.strip (py_str (item_year d))) (snd ge)).

(** [if key not in groups: groups[key] = fresh] followed by the update of
    [groups[key]]; a new key goes last. *)
Fixpoint upsert (key : group_key_t) (fresh : group_entry)
    (f : group_entry -> group_entry)
    (groups : list (group_key_t * group_entry))
  : list (group_key_t * group_entry) :=
  match groups with
  | [] => [(key, f fresh)]
  | (k, ge) :: rest =>
      if key_eqb key k then (k, f ge) :: rest
      else (k, ge) :: upsert key fresh f rest
  end.

(** The key under which a record is counted, if it is counted. *)
Definition record_key (it : item) : option group_key_t :=
  match it with
  | NotARecord => None
  | Rec d =>
      if PyStr.is_empty (item_title d) then None
      else Some (normalize_title (item_title d),
                 canonical_author_key (item_author d))
  end.

(** One turn of the loop [for item in results]. *)
Definition merge_item (groups : list (group_key_t * group_entry)) (it : item)
  : list (group_key_t * group_entry) :=
  match it with
  | NotARecord => groups
  | Rec d =>
      if PyStr.is_empty (item_title d) then groups
      else
        let title_key := normalize_title (item_title d) in
        let author_key := canonical_author_key (item_author d) in
        upsert (title_key, author_key) (new_group d) (count_in d) groups
  end.

(** Tuples of strings in the order of [sorted]. *)
Definition pair_leb (a b : string * string) : bool :=
  match String.compare (fst a) (fst b) with
  | Lt => true
  | Gt => false
  | Eq => String.leb (snd a) (snd b)
  end.

(** [x if x not in (None, 'nan', 'NaN') else ""] for a string [x] *)
Definition blank_nan (x : string) : string :=
  if String.eqb x "nan" || String.eqb x "NaN" then ""%string else x.

(** [Counter(xs).most_common(1)]: the first of the values that occur most
    often, in the order of first occurrence. *)
Fixpoint most_common_from (xs all : list string) (best : option (string * nat))
  : option (string * nat) :=
  match xs with
  | [] => best
  | x :: xs' =>
      let n := List.length (List.filter (String.eqb x) all) in
      let best' :=
        match best with
        | None => Some (x, n)
        | Some (_, m) => if m <? n then Some (x, n) else best
        end in
      most_common_from xs' all best'
  end.

Definition most_common (xs : list string) : option string :=
  option_map fst (most_common_from xs xs None).

(** The second loop: the editions of a group and its representative
    publisher and year. *)
Definition finalize (ge : group_entry) : group :=
  let g := fst ge in
  let eds :=
    map (fun e => (blank_nan (fst e), blank_nan (snd e)))
        (sort_le pair_leb (snd ge)) in
  let pubs := List.filter (fun x => negb (PyStr.is_empty x)) (map fst eds) in
  let yrs := List.filter (fun x => negb (PyStr.is_empty x)) (map snd eds) in
  {| Title := Title g;
     Author := Author g;
     ISBN := ISBN g;
     Publisher := match most_common pubs with
                  | Some x => VStr x
                  | None => Publisher g
                  end;
     Year := match most_common yrs with
             | Some x => VStr x
             | None => Year g
             end;
     copies := copies g;
     accessions := accessions g;
     call_numbers := call_numbers g;
     editions := eds |}.

Definition merge_groups (results : list item) : list (group_key_t * group_entry) :=
  fold_left merge_item results [].

Definition merge_duplicates (results : list item) : list group :=
  match results with
  | [] => []
  | _ => map (fun kg => finalize (snd kg)) (merge_groups results)
  end.

(** The key of a group, from the title and author it shows. *)
Definition group_key (g : group) : group_key_t :=
  (normalize_title (Title g), canonical_author_key (Author g)).

(** The records counted under [key]. *)
Definition records_with_key (key : group_key_t) (results : list item) : list item :=
  List.filter
    (fun it => match record_key it with
               | Some k => key_eqb key k
               | None => false
               end) results.

(** The copies counted under [key] in the dict of groups. *)
Definition copies_at (key : group_key_t)
    (groups : list (group_key_t * group_entry)) : nat :=
  list_sum (map (fun kg => if key_eqb key (fst kg)
                           then copies (fst (snd kg)) else 0) groups).

Definition well_keyed (groups : list (group_key_t * group_entry)) : Prop :=
  List.NoDup (map fst groups) /\
  (forall kg, In kg groups -> group_key (fst (snd kg)) = fst kg).

Definition total_copies (groups : list group) : nat :=
  list_sum (map copies groups).

Definition is_counted (it : item) : bool :=
  match record_key it with Some _ => true | None => false end.

Definition book (title author : string) : item :=
  Rec (<["title"%string := VStr title]> (<["author"%string := VStr author]> ∅)).

(** ** Catalogue search: [search_catalogue] *)

(** A row of the table [catalogue]: the four columns the search reads,
    each a text or NULL, and the other columns. *)
Record Row : Type := {
  r_title : option string;
  r_author : option string;
  r_isbn : option string;
  r_itemcallnumber : option string;
  r_rest : list (string * pyval)
}.

(** A row as [dict(zip(columns, row))], with its [relevance_score]. *)
Abbreviation result := (Row * Z)%type.

Definition relevance_of (x : result) : Z := snd x.

(** SQL [LIKE]: [%] stands for any run of characters, [_] for any one
    character; [tail] tries the rest of the pattern at every suffix. *)
Fixpoint like_match (pattern text : list ascii) : bool :=
  match pattern with
  | [] => match text with [] => true | _ => false end
  | p :: pattern' =>
      if Ascii.eqb p "%"%char
      then
        (fix tail (t : list ascii) : bool :=
           like_match pattern' t ||
           match t with
           | [] => false
           | _ :: t' => tail t'
           end) text
      else
        match text with
        | [] => false
        | c :: text' =>
            (Ascii.eqb p "_"%char || Ascii.eqb p c) && like_match pattern' text'
        end
  end.

(** [LOWER(column) LIKE LOWER(?)]; NULL when the column is NULL. *)
Definition sql_like (column : option string) (pattern : string) : bool :=
  match column with
  | Some s =>
      like_match (PyStr.chars (PyStr.lower pattern)) (PyStr.chars (PyStr.lower s))
  | None => false
  end.

(** [LOWER(column) = LOWER(?)]; NULL when the column is NULL. *)
Definition sql_eq (column : option string) (value : string) : bool :=
  match column with
  | Some s => String.eqb (PyStr.lower s) (PyStr.lower value)
  | None => false
  end.

Definition fuzzy_of (q_var : string) : string := ("%" +:+ q_var +:+ "%")%string.

(** The [CASE] of the query. *)
Definition relevance_score (q_var : string) (row : Row) : Z :=
  let exact_match := q_var in
  let fuzzy_match := fuzzy_of q_var in
  if sql_eq (r_title row) exact_match then 100
  else if sql_like (r_title row) fuzzy_match then 80
  else if sql_like (r_author row) fuzzy_match then 70
  else if sql_eq (r_isbn row) exact_match then 90
  else if sql_like (r_itemcallnumber row) fuzzy_match then 50
  else 30.

(** The [WHERE] of the query. *)
Definition where_clause (q_var : string) (row : Row) : bool :=
  let fuzzy_match := fuzzy_of q_var in
  sql_like (r_title row) fuzzy_match
  || sql_like (r_author row) fuzzy_match
  || sql_like (r_isbn row) fuzzy_match
  || sql_like (r_itemcallnumber row) fuzzy_match.

(** What the search takes from outside: the variations of the query, a
    [list(set(...))] whose order depends on the hashes of the strings, and
    [ORDER BY relevance_score DESC], which leaves the order of rows of equal
    score to the engine. *)
Class CatalogueEnv : Type := {
  expand_book_query : string -> list string;
  order_by_desc : list result -> list result;
  order_by_desc_perm : forall l, Permutation (order_by_desc l) l;
  order_by_desc_sorted :
    forall l,
      StronglySorted (fun x y => (relevance_of y <= relevance_of x)%Z)
        (order_by_desc l)
}.

(** [LIMIT n]: a negative [n] is no limit. *)
Definition sql_limit {A} (n : Z) (l : list A) : list A :=
  if (n <? 0)%Z then l else firstn (Z.to_nat n) l.

(** [l[:n]] *)
Definition py_slice_to {A} (n : Z) (l : list A) : list A :=
  if (n <? 0)%Z then firstn (List.length l - Z.to_nat (- n)) l
  else firstn (Z.to_nat n) l.

(** [f"{x}"] for a column value. *)
Definition fmt_column (x : option string) : string :=
  match x with Some s => s | None => "None"%string end.

Definition result_id (x : result) : string :=
  (fmt_column (r_title (fst x)) +:+ "-" +:+ fmt_column (r_author (fst x))
   +:+ "-" +:+ fmt_column (r_isbn (fst x)))%string.

(** The loop [for row in cursor.fetchall()], with its [break]. *)
Fixpoint collect_rows (limit : Z) (rows : list result)
    (seen_ids : list string) (all_results : list result)
  : list string * list result :=
  match rows with
  | [] => (seen_ids, all_results)
  | x :: rows' =>
      let (seen_ids', all_results') :=
        if PyStr.mem (result_id x) seen_ids then (seen_ids, all_results)
        else (result_id x :: seen_ids, all_results ++ [x]) in
      if (limit <=? Z.of_nat (List.length all_results'))%Z
      then (seen_ids', all_results')
      else collect_rows limit rows' seen_ids' all_results'
  end.

Section Search.

Context `{CatalogueEnv}.

Definition run_query (table : list Row) (q_var : string) (limit : Z) : list result :=
  sql_limit (limit * 2)
    (order_by_desc
       (map (fun row => (row, relevance_score q_var row))
            (List.filter (where_clause q_var) table))).

(** The loop [for q_var in query_variations], with its [break]. *)
Fixpoint collect_variations (table : list Row) (limit : Z)
    (query_variations : list string)
    (seen_ids : list string) (all_results : list result) : list result :=
  match query_variations with
  | [] => all_results
  | q_var :: rest =>
      let (seen_ids', all_results') :=
        collect_rows limit (run_query table q_var limit) seen_ids all_results in
      if (limit <=? Z.of_nat (List.length all_results'))%Z
      then all_results'
      else collect_variations table limit rest seen_ids' all_results'
  end.

(** [catalogue] is the table, or [None] when the database file is missing
    or the query raises. *)
Definition search_catalogue (catalogue : option (list Row)) (query : string)
    (limit : Z) : list result :=
  match catalogue with
  | None => []
  | Some table =>
      let query_variations := expand_book_query query in
      let all_results := collect_variations table limit query_variations [] [] in
      let all_results := sort_by (fun x => (- relevance_of x)%Z) all_results in
      py_slice_to limit all_results
  end.

End Search.

(** The kinds of match, and the score of each. *)
Inductive match_kind : Type :=
| ExactTitle
| ExactIsbn
| FuzzyTitle
| FuzzyAuthor
| FuzzyCallNumber
| OtherMatch.

Definition kind_score (k : match_kind) : Z :=
  match k with
  | ExactTitle => 100
  | ExactIsbn => 90
  | FuzzyTitle => 80
  | FuzzyAuthor => 70
  | FuzzyCallNumber => 50
  | OtherMatch => 30
  end.

(** Whether a row matches a variation in a given way. *)
Definition matches (k : match_kind) (q_var : string) (row : Row) : bool :=
  match k with
  | ExactTitle => sql_eq (r_title row) q_var
  | ExactIsbn => sql_eq (r_isbn row) q_var
  | FuzzyTitle => sql_like (r_title row) (fuzzy_of q_var)
  | FuzzyAuthor => sql_like (r_author row) (fuzzy_of q_var)
  | FuzzyCallNumber => sql_like (r_itemcallnumber row) (fuzzy_of q_var)
  | OtherMatch => true
  end.

(** The first kind of [order] that applies. *)
Fixpoint first_kind (order : list match_kind) (q_var : string) (row : Row)
  : match_kind :=
  match order with
  | [] => OtherMatch
  | k :: order' => if matches k q_var row then k else first_kind order' q_var row
  end.

(** The order in which the [CASE] tries the kinds. *)
Definition case_order : list match_kind :=
  [ExactTitle; FuzzyTitle; FuzzyAuthor; ExactIsbn; FuzzyCallNumber; OtherMatch].

(** Modelled from the spec: the kinds in the order in which the
    specification lists them, the better score first. *)
Definition listed_order : list match_kind :=
  [ExactTitle; ExactIsbn; FuzzyTitle; FuzzyAuthor; FuzzyCallNumber; OtherMatch].

Definition descending (l : list result) : Prop :=
  StronglySorted (fun x y => (relevance_of y <= relevance_of x)%Z) l.

(** A run of [cache_classification] calls, each with the reading of the
    clock, the query and its classification. *)
Abbreviation cache_request := (Z * (string * string))%type.

Definition request_key (r : cache_request) : string := query_key (fst (snd r)).

Definition cache_all (requests : list cache_request)
    (classification_cache : list cache_entry) : list cache_entry :=
  fold_left
    (fun c r => cache_classification (fst r) (fst (snd r)) (snd (snd r)) c)
    requests classification_cache.

(** The queries ["0"], ["1"], ... cached at the times 0, 1, ... *)
Definition numbered_requests (n : nat) : list cache_request :=
  map (fun i => (Z.of_nat i, (pretty i, "book"%string))) (seq 0 n).

(** A handler that counts how often it ran. *)
Definition counting_handler (c : call) (runs : nat) : nat * string :=
  (S runs, "served"%string).

(** Collaborators that answer at once and change nothing. *)
#[export] Instance quiet_services : Services unit := {|
  has_textblob := false;
  textblob_correct := fun _ => None;
  catalogue_authors := [];
  audit_io_ok := fun _ => true;
  utcnow_isoformat := fun _ => "2025-01-01T00:00:00"%string;
  track_error := fun _ e => e;
  get_library_statistics := fun e => (e, Ok None);
  classify_query_with_llama := fun _ e => (e, Ok "general"%string);
  answer_library := fun _ e => (e, Ok "library answer"%string);
  answer_website := fun _ e => (e, Ok "website answer"%string);
  answer_general := fun _ e => (e, Ok "general answer"%string);
  answer_book := fun _ _ e => (e, Ok "book answer"%string)
|}.

Definition keyword_call (query ip : string) : call :=
  {| q := QStr query; search_mode := "auto"; client_ip := IpKeyword ip |}.

Definition empty_backend : Backend unit := {| audit_log := []; env := tt |}.

(** A client that made 20 requests at time 0. *)
Definition busy_limiter (client_id : string) : limiter :=
  <[client_id := repeat 0%Z 20]> ∅.

(** A row whose ISBN is the query and whose title contains it. *)
Definition companion_row : Row := {|
  r_title := Some "A companion to 1984"%string;
  r_author := Some "Smith, J."%string;
  r_isbn := Some "1984"%string;
  r_itemcallnumber := None;
  r_rest := []
|}.

(** ** Error tracking: [track_error] *)

Record ErrorEntry : Type := {
  ee_error : string;
  ee_context : string;
  ee_timestamp : Z
}.

(** [_error_tracker] *)
Record ErrorTracker : Type := {
  et_count : nat;
  et_last_reset : Z;
  et_recent_errors : list ErrorEntry
}.

(** [l[-n:]] for [n > 0] *)
Definition py_last {A} (n : nat) (l : list A) : list A :=
  skipn (List.length l - n) l.

Module Tracker.

(** [t_entry], [t_check] and [t_reset] are the three readings of the clock,
    in the order of the code; the result says whether the critical line was
    logged. *)
Definition track_error (t_entry t_check t_reset : Z) (error context : string)
    (tracker : ErrorTracker) : ErrorTracker * bool :=
  let count := et_count tracker + 1 in
  let recent_errors :=
    py_last 10
      (et_recent_errors tracker ++
       [{| ee_error := error; ee_context := context; ee_timestamp := t_entry |}]) in
  let (count, last_reset) :=
    if (3600 <? t_check - et_last_reset tracker)%Z
    then (0, t_reset)
    else (count, et_last_reset tracker) in
  ({| et_count := count;
      et_last_reset := last_reset;
      et_recent_errors := recent_errors |},
   50 <? count).

(** An error with the readings of the clock taken while it is tracked. *)
Record event : Type := {
  ev_error : string;
  ev_context : string;
  ev_entry : Z;
  ev_check : Z;
  ev_reset : Z
}.

Definition entry_of (ev : event) : ErrorEntry :=
  {| ee_error := ev_error ev; ee_context := ev_context ev;
     ee_timestamp := ev_entry ev |}.

(** The errors of [events] tracked one after the other, with the alerts. *)
Fixpoint track_all (events : list event) (tracker : ErrorTracker)
  : ErrorTracker * list bool :=
  match events with
  | [] => (tracker, [])
  | ev :: events' =>
      let (tracker1, alert) :=
        track_error (ev_entry ev) (ev_check ev) (ev_reset ev)
          (ev_error ev) (ev_context ev) tracker in
      let (tracker2, alerts) := track_all events' tracker1 in
      (tracker2, alert :: alerts)
  end.

Definition timeout_at (t : Z) : event :=
  {| ev_error := "database is locked"; ev_context := "health_check";
     ev_entry := t; ev_check := t; ev_reset := t |}.

End Tracker.

(** ** Author search and hybrid search *)

(** A column value as Python gets it: a string, or [None] for NULL. *)
Definition column_value (x : option string) : pyval :=
  match x with Some s => VStr s | None => VNone end.

(** [dict(zip(columns, row))] for [SELECT * FROM catalogue]; the names of
    the columns of a table are different from each other. *)
Definition row_to_dict (row : Row) : gmap string pyval :=
  <["title"%string := column_value (r_title row)]>
    (<["author"%string := column_value (r_author row)]>
       (<["isbn"%string := column_value (r_isbn row)]>
          (<["itemcallnumber"%string := column_value (r_itemcallnumber row)]>
             (list_to_map (r_rest row))))).

(** The same for the query of [search_catalogue], whose last column is the
    score. *)
Definition result_to_dict (x : result) : gmap string pyval :=
  <["relevance_score"%string := VInt (relevance_of x)]> (row_to_dict (fst x)).

(** [WHERE author LIKE ? LIMIT ?]: the rows in the order of the table. *)
Definition search_catalogue_author (catalogue : option (list Row))
    (author_name : string) (limit : Z) : list Row :=
  if PyStr.is_empty author_name then []
  else
    match catalogue with
    | None => []
    | Some table =>
        let term := fuzzy_of author_name in
        sql_limit limit (List.filter (fun row => sql_like (r_author row) term) table)
    end.

Section Hybrid.

Context `{CatalogueEnv}.

(** What [semantic_search(query, top_k=10)] returns: the records of the
    mapping that the index search selects, or of the fallback. *)
Variable semantic_search : string -> list item.

(** [catalogue_results]: the author search when the intent is "author" and
    it finds something, the general search otherwise. *)
Definition hybrid_catalogue_results (catalogue : option (list Row))
    (query : string) (intent : option string) : list item :=
  let general :=
    map (fun x => Rec (result_to_dict x)) (search_catalogue catalogue query 20) in
  match intent with
  | Some i =>
      if String.eqb i "author"
      then
        match search_catalogue_author catalogue query 20 with
        | [] => general
        | rows => map (fun row => Rec (row_to_dict row)) rows
        end
      else general
  | None => general
  end.

(** [all_results], the records that the two searches hand to the merge. *)
Definition hybrid_found (catalogue : option (list Row)) (query : string)
    (intent : option string) : list item :=
  hybrid_catalogue_results catalogue query intent ++ semantic_search query.

Definition hybrid_book_search (catalogue : option (list Row)) (query : string)
    (intent : option string) : list group :=
  match hybrid_found catalogue query intent with
  | [] => []
  | all_results => merge_duplicates all_results
  end.

End Hybrid.

(** A row without title, and two rows of one author. *)
Definition untitled_row : Row := {|
  r_title := None;
  r_author := Some "Herbert, Frank"%string;
  r_isbn := None;
  r_itemcallnumber := None;
  r_rest := []
|}.

Definition dune_row : Row := {|
  r_title := Some "Dune"%string;
  r_author := Some "Herbert, Frank"%string;
  r_isbn := Some "9780441013593"%string;
  r_itemcallnumber := Some "813.54 HER"%string;
  r_rest := [("barcode"%string, VStr "B0001")]
|}.

(** ** Input sanitization: [sanitize_input] *)

Definition py_isdigit (c : ascii) : bool :=
  let n := PyStr.code c in (48 <=? n) && (n <=? 57).

(** [[\x00-\x1f\x7f-\x9f]] *)
Definition is_control (c : ascii) : bool :=
  let n := PyStr.code c in (n <=? 31) || ((127 <=? n) && (n <=? 159)).

(** [[a-zA-Z0-9\s\-\.,?!\']], the characters that the second substitution
    keeps. *)
Definition is_sanitary (c : ascii) : bool :=
  PyStr.isalpha c || py_isdigit c || PyStr.isspace c ||
  PyStr.mem (String c EmptyString) ["-"; "."; ","; "?"; "!"; "'"]%string.

(** The function is memoized with [lru_cache]; it reads no state, so the
    memo does not show in its results.  [QNotStr] stands for a hashable
    argument that is not a string ([None], a number). *)
Definition sanitize_input (query : query_arg) : string :=
  match query with
  | QNotStr => ""%string
  | QStr query =>
      if PyStr.is_empty query then ""%string
      else
        let l := List.filter (fun c => negb (is_control c)) (PyStr.chars query) in
        let l := List.filter is_sanitary l in
        let l := PyStr.join_l [" "%char] (PyStr.split_ws_l l) in
        let l := firstn 300 l in
        PyStr.of_chars (PyStr.strip_l l)
  end.

(** Words: not empty, without white space. *)
Definition is_word (w : list ascii) : Prop :=
  w <> [] /\ forall c, In c w -> PyStr.isspace c = false.

(** ** Regular expressions: the fragment that the patterns of the code use *)

Module Re.

(** [\w] *)
Definition is_w (c : ascii) : bool :=
  PyStr.isalpha c || py_isdigit c || Ascii.eqb c "_"%char.

(** [.] without [re.DOTALL] *)
Definition not_newline (c : ascii) : bool := negb (Ascii.eqb c "010"%char).

Inductive regex : Type :=
| Lit (s : string)                    (** literal text *)
| Cls (p : ascii -> bool)             (** one character of a class *)
| Times (n : nat) (p : ascii -> bool) (** [c{n}] *)
| Plus (p : ascii -> bool)            (** [c+] *)
| Star (p : ascii -> bool)            (** [c*] *)
| Boundary                            (** [\b] *)
| Seq (r1 r2 : regex)
| Alt (r1 r2 : regex).

(** [\b]: exactly one of the characters before and after the position is a
    word character; [prev] is the character before, if there is one. *)
Definition boundary (prev : option ascii) (l : list ascii) : bool :=
  xorb (match prev with Some c => is_w c | None => false end)
       (match l with c :: _ => is_w c | [] => false end).

(** Matching with a continuation [k] for what follows; a match exists when
    some way of matching makes [k] succeed, which is what backtracking
    finds. *)
Fixpoint lit (p : list ascii) (prev : option ascii) (l : list ascii)
    (k : option ascii -> list ascii -> bool) : bool :=
  match p with
  | [] => k prev l
  | a :: p' =>
      match l with
      | c :: l' => Ascii.eqb a c && lit p' (Some c) l' k
      | [] => false
      end
  end.

Fixpoint times (n : nat) (p : ascii -> bool) (prev : option ascii)
    (l : list ascii) (k : option ascii -> list ascii -> bool) : bool :=
  match n with
  | 0 => k prev l
  | S n' =>
      match l with
      | c :: l' => p c && times n' p (Some c) l' k
      | [] => false
      end
  end.

Fixpoint star (p : ascii -> bool) (prev : option ascii) (l : list ascii)
    (k : option ascii -> list ascii -> bool) : bool :=
  match l with
  | c :: l' => (p c && star p (Some c) l' k) || k prev l
  | [] => k prev l
  end.

Fixpoint run (r : regex) (prev : option ascii) (l : list ascii)
    (k : option ascii -> list ascii -> bool) : bool :=
  match r with
  | Lit s => lit (PyStr.chars s) prev l k
  | Cls p =>
      match l with
      | c :: l' => p c && k (Some c) l'
      | [] => false
      end
  | Times n p => times n p prev l k
  | Plus p =>
      match l with
      | c :: l' => p c && star p (Some c) l' k
      | [] => false
      end
  | Star p => star p prev l k
  | Boundary => boundary prev l && k prev l
  | Seq r1 r2 => run r1 prev l (fun prev' l' => run r2 prev' l' k)
  | Alt r1 r2 => run r1 prev l k || run r2 prev l k
  end.

(** A match that starts at the position reached, or further right. *)
Fixpoint search_from (r : regex) (prev : option ascii) (l : list ascii) : bool :=
  run r prev l (fun _ _ => true) ||
  match l with
  | c :: l' => search_from r (Some c) l'
  | [] => false
  end.

(** [re.search(r, s) is not None] *)
Definition search (r : regex) (s : string) : bool :=
  search_from r None (PyStr.chars s).

(** [r1 r2 ... rn] *)
Fixpoint seq (rs : list regex) : regex :=
  match rs with
  | [] => Lit ""
  | [r] => r
  | r :: rs' => Seq r (seq rs')
  end.

(** [(w1|w2|...|wn)] *)
Fixpoint words (ws : list string) : regex :=
  match ws with
  | [] => Cls (fun _ => false)
  | [w] => Lit w
  | w :: ws' => Alt (Lit w) (words ws')
  end.

End Re.

(** ** Classification without the model: [classify_query_fallback] *)

(** [r'\b(?:\d{9}[\dX]|\d{13})\b'] *)
Definition isbn_pattern : Re.regex :=
  Re.seq [Re.Boundary;
          Re.Alt (Re.Seq (Re.Times 9 py_isdigit)
                    (Re.Cls (fun c => py_isdigit c || Ascii.eqb c "X"%char)))
                 (Re.Times 13 py_isdigit);
          Re.Boundary].

Definition general_keywords : list string :=
  ["timing"; "hours"; "open"; "close"; "schedule";
   "policy"; "rules"; "regulation"; "membership"; "register";
   "wifi"; "printer"; "facility"; "service"; "reading room";
   "fine"; "penalty"; "overdue"; "charges";
   "ebook"; "e-book"; "database"; "e-journal"; "vpn";
   "how to issue"; "how to return"; "how to borrow"; "how to renew";
   "grammarly"; "turnitin"; "scopus"; "mendeley";
   "librarian"; "staff"; "helpdesk"; "contact";
   "borrow limit"; "issue limit"; "borrowing limit";
   "technobooth";
   "student"; "students"; "faculty"; "phd"; "pg"; "ug"; "mtech"; "btech";
   "how many books"; "can i borrow"; "can i issue"; "allowed to borrow"]%string.

Definition eresource_patterns : list string :=
  ["online journal"; "e-journal"; "ejournals"; "e-journals";
   "digital journal"; "electronic journal"; "journal access";
   "how to access journal"; "access online"; "access e-";
   "online resource"; "digital resource"; "e-resource";
   "online database"; "digital database"; "remote access"]%string.

Definition instructional_patterns : list Re.regex :=
  [ (* \bhow (to|do i|can i)\s+(search|find)\b *)
    Re.seq [Re.Boundary; Re.Lit "how "; Re.words ["to"; "do i"; "can i"]%string;
            Re.Plus PyStr.isspace; Re.words ["search"; "find"]%string;
            Re.Boundary];
    (* \bhow to use (opac|catalogue|catalog)\b *)
    Re.seq [Re.Boundary; Re.Lit "how to use ";
            Re.words ["opac"; "catalogue"; "catalog"]%string; Re.Boundary];
    (* \bhow do i use (opac|catalogue|catalog)\b *)
    Re.seq [Re.Boundary; Re.Lit "how do i use ";
            Re.words ["opac"; "catalogue"; "catalog"]%string; Re.Boundary];
    (* \bguide\b.*\b(search|find)\b *)
    Re.seq [Re.Boundary; Re.Lit "guide"; Re.Boundary; Re.Star Re.not_newline;
            Re.Boundary; Re.words ["search"; "find"]%string; Re.Boundary] ].

Definition book_keywords : list string :=
  ["book"; "books"; "textbook"; "textbooks"; "reference book";
   "author"; "written by"; "book by"; "books by"; "author:"; "by author";
   "title"; "edition"; "volume"; "vol"; "publication"; "published";
   "isbn"; "call number"; "accession"; "accession number";
   "catalogue"; "catalog"; "classification";
   "publisher"; "cover"; "hardcover"; "paperback"; "binding";
   "find book"; "search book"; "looking for book"; "need book";
   "find books"; "search books"; "show me books";
   "book on"; "books on"; "book about"; "books about";
   "textbook on"; "reference on";
   "available book"; "book available"; "in library";
   "library book"; "library books"]%string.

Definition book_indicators : list string :=
  ["book by"; "books by"; "author"; "written by";
   "isbn"; "call number"; "accession";
   "edition"; "publication"; "publisher";
   "textbook on"; "reference on"; "find book"; "search book"]%string.

Definition subject_pattern (ws : list string) : Re.regex :=
  Re.seq [Re.Boundary; Re.words ws; Re.Boundary].

Definition subject_patterns : list Re.regex :=
  [subject_pattern ["physics"; "chemistry"; "biology"; "mathematics"; "math"];
   subject_pattern ["computer"; "programming"; "coding"; "algorithm"; "data"];
   subject_pattern ["engineering"; "mechanical"; "electrical"; "civil"];
   subject_pattern ["history"; "geography"; "economics"; "sociology"];
   subject_pattern ["novel"; "fiction"; "literature"; "poetry"; "drama"];
   subject_pattern ["psychology"; "philosophy"; "anthropology"]]%string.

(** [any(p in s for p in patterns)] *)
Definition any_in (patterns : list string) (s : string) : bool :=
  existsb (fun p => PyStr.contains p s) patterns.

(** [any(re.search(p, s) for p in patterns)] *)
Definition any_search (patterns : list Re.regex) (s : string) : bool :=
  existsb (fun p => Re.search p s) patterns.

(** The function is memoized with [lru_cache]; it reads no state. *)
Definition classify_query_fallback (query : string) : string :=
  let query_lower := PyStr.strip (PyStr.lower query) in
  if Re.search isbn_pattern query_lower then "book"%string
  else if any_in eresource_patterns query_lower then "general"%string
  else if any_in general_keywords query_lower then "general"%string
  else if any_search instructional_patterns query_lower then "general"%string
  else if any_in book_keywords query_lower then "book"%string
  else if any_in book_indicators query_lower then "book"%string
  else if any_search subject_patterns query_lower then "book"%string
  else
    let words := PyStr.split query_lower in
    if (List.length words <=? 3) && negb (any_in general_keywords query_lower)
    then "book"%string
    else "book"%string.

(** A run of 10 or of 13 decimal digits between [pre] and [post] that is
    not part of a longer word. *)
Definition isbn_run (l : list ascii) : Prop :=
  exists pre d post,
    l = pre ++ d ++ post /\
    List.Forall (fun c => py_isdigit c = true) d /\
    (List.length d = 10 \/ List.length d = 13) /\
    (forall pre' c, pre = pre' ++ [c] -> Re.is_w c = false) /\
    (forall c post', post = c :: post' -> Re.is_w c = false).

(** ** Classification with the model: [classify_query_with_llama] *)

Module Llama.

Section Llama.

(** [FORCE_FALLBACK_CLASSIFICATION], read from the environment when the
    module is loaded. *)
Variable FORCE_FALLBACK_CLASSIFICATION : bool.

(** [groq_client]: [None], or a client, which for the prompt made from the
    query raises or gives a completion, read up to the content of its first
    choice; the content may be [None]. *)
Variable groq_client : option (string -> raising (option string)).

(** [t_lookup] and [t_store] are the readings of the clock in
    [get_cached_classification] and in [cache_classification]. *)
Definition classify_query_with_llama (t_lookup t_store : Z) (query : string)
    (classification_cache : list cache_entry) : string * list cache_entry :=
  let (cached, classification_cache) :=
    get_cached_classification t_lookup query classification_cache in
  let fallback :=
    let result := classify_query_fallback query in
    (result, cache_classification t_store query result classification_cache) in
  match cached with
  | Some (String _ _ as cached) => (cached, classification_cache)
  | _ =>
      match FORCE_FALLBACK_CLASSIFICATION, groq_client with
      | false, Some create =>
          match create query with
          | Ok content =>
              let response :=
                PyStr.lower (PyStr.strip (default ""%string content)) in
              if PyStr.contains "book" response
              then ("book"%string,
                    cache_classification t_store query "book"
                      classification_cache)
              else if PyStr.contains "general" response
              then ("general"%string,
                    cache_classification t_store query "general"
                      classification_cache)
              else fallback
          | Raise => fallback
          end
      | _, _ => fallback
      end
  end.

End Llama.

End Llama.

(** Every cached classification is one of the two classes. *)
Definition two_classes (cache : list cache_entry) : Prop :=
  forall e, In e cache ->
            fst (snd e) = "book"%string \/ fst (snd e) = "general"%string.


(** The character before the position reached after reading [d]. *)
Definition last_of (d : list ascii) (prev : option ascii) : option ascii :=
  fold_left (fun _ c => Some c) d prev.


(** ** Author queries: [normalize_book_query] *)

(** [s.find(p)], [None] for -1 *)
Fixpoint find_l (p l : list ascii) : option nat :=
  if PyStr.starts_with p l then Some 0
  else match l with
       | [] => None
       | _ :: l' => option_map S (find_l p l')
       end.

(** [[?.,!]] *)
Definition is_end_punct (c : ascii) : bool :=
  PyStr.mem (String c EmptyString) ["?"; "."; ","; "!"]%string.

Fixpoint drop_while {A} (f : A -> bool) (l : list A) : list A :=
  match l with
  | x :: l' => if f x then drop_while f l' else l
  | [] => []
  end.

(** [re.sub(r'[?.,!]+$', '', s)]: [$] is the end of the text, or the place
    before a line feed that ends the text. *)
Definition sub_end_punct (l : list ascii) : list ascii :=
  match rev l with
  | c :: r =>
      if Ascii.eqb c "010"%char
      then match r with
           | p :: _ =>
               if is_end_punct p
               then rev (drop_while is_end_punct r) ++ ["010"%char]
               else l
           | [] => l
           end
      else rev (drop_while is_end_punct (c :: r))
  | [] => []
  end.

Definition author_prefixes : list string :=
  ["books by "; "by "; "author: "; "author "]%string.

(** Both arguments are strings at the only call. *)
Definition normalize_book_query (original_query corrected_query : string)
  : string * string :=
  let cq := PyStr.strip corrected_query in
  let oq := PyStr.strip original_query in
  let q_lower := PyStr.lower cq in
  let topic := (cq, "topic"%string) in
  if PyStr.contains "by " q_lower || PyStr.contains "author" q_lower
  then
    (* the first prefix of the list that the text holds ends the loop *)
    match List.find (fun prefix => PyStr.contains prefix q_lower)
            author_prefixes with
    | Some prefix =>
        let start :=
          match find_l (PyStr.chars prefix) (PyStr.chars q_lower) with
          | Some idx => idx + PyStr.len prefix
          | None => PyStr.len prefix - 1
          end in
        let author_part := PyStr.strip_l (skipn start (PyStr.chars oq)) in
        let author_clean := PyStr.strip_l (sub_end_punct author_part) in
        (PyStr.of_chars author_clean, "author"%string)
    | None => topic
    end
  else topic.


(** The test of the statistics branch of [get_nandu_response], on the
    corrected query. *)
Definition is_statistics_query (query : string) : bool :=
  let query_lower := PyStr.lower query in
  let is_borrowing_query :=
    existsb (fun pattern => PyStr.contains pattern query_lower) borrowing_patterns in
  existsb (fun pattern => PyStr.contains pattern query_lower) statistics_patterns
  && negb is_borrowing_query.

(** Collaborators of which the general branch fails. *)
Definition failing_services : Services unit := {|
  has_textblob := false;
  textblob_correct := fun _ => None;
  catalogue_authors := [];
  audit_io_ok := fun _ => true;
  utcnow_isoformat := fun _ => "2025-01-01T00:00:00"%string;
  track_error := fun _ e => e;
  get_library_statistics := fun e => (e, Ok None);
  classify_query_with_llama := fun _ e => (e, Ok "general"%string);
  answer_library := fun _ e => (e, Raise);
  answer_website := fun _ e => (e, Raise);
  answer_general := fun _ e => (e, Raise);
  answer_book := fun _ _ e => (e, Raise)
|}.


(** ** The words of the specification *)

(** "The query contains the token as a whole word (case-insensitive)":
    the lower-cased text holds the word between characters that are no
    word characters, or at its ends. *)
Definition whole_word_in (word text : string) : Prop :=
  exists pre post,
    PyStr.chars (PyStr.lower text) = pre ++ PyStr.chars word ++ post /\
    (forall pre' c, pre = pre' ++ [c] -> Re.is_w c = false) /\
    (forall c post', post = c :: post' -> Re.is_w c = false).

(** "A well-formed record with a non-empty title": a dict whose title, under
    ["Title"] or else under ["title"], is a text that is not blank, or a
    number. *)
Definition has_title (it : item) : bool :=
  match it with
  | NotARecord => false
  | Rec d =>
      match get2 d "Title" "title" with
      | VStr s => negb (PyStr.is_empty (PyStr.strip s))
      | VInt _ => true
      | VNone => false
      end
  end.

(** A dict whose title is [None]. *)
Definition title_is_none (it : item) : bool :=
  match it with
  | NotARecord => false
  | Rec d =>
      match get2 d "Title" "title" with
      | VNone => true
      | _ => false
      end
  end.

(** A row of the catalogue without title, as a record. *)
Definition null_title_record : item :=
  Rec (<["title"%string := VNone]> (<["author"%string := VStr "Herbert, Frank"]> ∅)).


(** * Properties *)

(** ** The primitives on examples *)

Example split_example :
  PyStr.split "  books   by Tolkien " = ["books"; "by"; "Tolkien"]%string.
Proof. reflexivity. Qed.

Example split_on_example :
  PyStr.split_on "," "Smith, J.," = ["Smith"; " J."; ""]%string.
Proof. reflexivity. Qed.

Example strip_example : PyStr.strip "  Smith, J. " = "Smith, J."%string.
Proof. reflexivity. Qed.

Example count_example :
  PyStr.count2 "a" "a" (PyStr.chars "aaaaa") = 2.
Proof. reflexivity. Qed.

Example findall_words_example :
  PyStr.findall_words "it's 2 books, o'neil" = ["it's"; "books"; "o'neil"]%string.
Proof. reflexivity. Qed.

Example is_valid_query_accepts :
  is_valid_query "library timings" = (true, ""%string).
Proof. vm_compute. reflexivity. Qed.

Example is_valid_query_repetition :
  is_valid_query "abababab ab" = (false, GIBBERISH_ERROR).
Proof. vm_compute. reflexivity. Qed.

Example normalize_title_example :
  normalize_title "  The  C++ Programming Language! "
  = "the c programming language"%string.
Proof. vm_compute. reflexivity. Qed.

Example canonical_author_key_forms :
  map canonical_author_key
    ["J. Smith"; "Smith, J."; "Robert C. Martin | Kent Beck";
     "O'Neil, Cathy; Schutt, Rachel"; "Tolkien"; ""; "-"]%string
  = ["smith|j"; "smith|j"; "martin|r"; "o'neil|c"; "tolkien|t"; ""; ""]%string.
Proof. vm_compute. reflexivity. Qed.

Example like_match_examples :
  sql_like (Some "Dune Messiah"%string) "%mess%" = true /\
  sql_like (Some "Dune Messiah"%string) "d_ne%" = true /\
  sql_like (Some "Dune Messiah"%string) "%dunes%" = false /\
  sql_like None "%" = false.
Proof. vm_compute. repeat split; reflexivity. Qed.

Example get_cached_classification_expires :
  get_cached_classification 7200 "  OPAC " [("opac"%string, ("general"%string, 0%Z))]
  = (None, []) /\
  get_cached_classification 7199 "  OPAC " [("opac"%string, ("general"%string, 0%Z))]
  = (Some "general"%string, [("opac"%string, ("general"%string, 0%Z))]).
Proof. vm_compute. split; reflexivity. Qed.

(** ** Strings *)

Lemma chars_of_chars (l : list ascii) : PyStr.chars (PyStr.of_chars l) = l.
Proof. apply list_ascii_of_string_of_list_ascii. Qed.

Lemma of_chars_chars (s : string) : PyStr.of_chars (PyStr.chars s) = s.
Proof. apply string_of_list_ascii_of_string. Qed.

Lemma alpha_not_space (c : ascii) :
  PyStr.isalpha c = true -> PyStr.isspace c = false.
Proof.
  unfold PyStr.isalpha, PyStr.isupper, PyStr.islower, PyStr.isspace.
  generalize (PyStr.code c); intros n H.
  destruct (9 <=? n) eqn:E1, (n <=? 13) eqn:E2, (28 <=? n) eqn:E3,
    (n <=? 32) eqn:E4; simpl; try reflexivity;
    repeat match goal with
      | E : (_ <=? _) = true |- _ => apply Nat.leb_le in E
      | E : (_ <=? _) = false |- _ => apply Nat.leb_gt in E
      end;
    apply orb_true_iff in H as [H | H];
    apply andb_true_iff in H as [Ha Hb];
    apply Nat.leb_le in Ha, Hb; lia.
Qed.

Lemma filter_alpha_lstrip (l : list ascii) :
  List.filter PyStr.isalpha (PyStr.lstrip_l l) = List.filter PyStr.isalpha l.
Proof.
  induction l as [| c l IH]; simpl; [reflexivity |].
  destruct (PyStr.isspace c) eqn:Es; [| reflexivity].
  destruct (PyStr.isalpha c) eqn:Ea; [| exact IH].
  apply alpha_not_space in Ea. congruence.
Qed.

Lemma filter_alpha_strip (l : list ascii) :
  List.filter PyStr.isalpha (PyStr.strip_l l) = List.filter PyStr.isalpha l.
Proof.
  unfold PyStr.strip_l, PyStr.rstrip_l.
  rewrite List.filter_rev, filter_alpha_lstrip, List.filter_rev, rev_involutive.
  apply filter_alpha_lstrip.
Qed.

Lemma filter_length_le {A} (f : A -> bool) (l : list A) :
  List.length (List.filter f l) <= List.length l.
Proof.
  induction l as [| x l IH]; simpl; [lia |].
  destruct (f x); simpl; lia.
Qed.

Lemma letter_count_le_stripped (query : string) :
  letter_count query <= PyStr.len (PyStr.strip query).
Proof.
  unfold letter_count, PyStr.len, PyStr.strip. rewrite chars_of_chars.
  rewrite <- (filter_alpha_strip (PyStr.chars query)).
  apply filter_length_le.
Qed.

(** ** Validation *)

(** On every pair of counts that a query of at most 300 characters can
    have, the float test of the source and the integer test agree. *)
Lemma gibberish_test_agrees :
  forallb (fun letters =>
             forallb (fun vowels =>
                        Bool.eqb (float_gibberish_test vowels letters)
                                 (gibberish_test vowels letters))
                     (seq 0 (S letters)))
          (seq 0 301) = true.
Proof. vm_compute. reflexivity. Qed.

(** C7.  A query whose trimmed length is under 2 is rejected with the
    length-error message; a query with more than 5 letters whose vowel count
    is below 15% of its letter count is rejected with the gibberish
    message. *)
Theorem is_valid_query_rejects (query : string) :
  (PyStr.len (PyStr.strip query) < 2 ->
   is_valid_query query = (false, LENGTH_ERROR)) /\
  (5 < letter_count query ->
   20 * vowel_count query < 3 * letter_count query ->
   is_valid_query query = (false, GIBBERISH_ERROR)).
Proof.
  split.
  - intros Hlen. unfold is_valid_query.
    apply Nat.ltb_lt in Hlen. rewrite Hlen, orb_true_r. reflexivity.
  - intros Hletters Hvowels. unfold is_valid_query.
    pose proof (letter_count_le_stripped query) as Hle.
    assert (PyStr.is_empty query = false) as ->.
    { destruct query; [cbv in Hletters; lia | reflexivity]. }
    assert ((PyStr.len (PyStr.strip query) <? 2) = false) as ->
      by (apply Nat.ltb_ge; lia).
    unfold gibberish_test.
    apply Nat.ltb_lt in Hletters, Hvowels.
    rewrite Hletters, Hvowels. reflexivity.
Qed.

Lemma is_valid_query_rejects_witness :
  is_valid_query "x" = (false, LENGTH_ERROR) /\
  is_valid_query "bcdfgh" = (false, GIBBERISH_ERROR).
Proof.
  split.
  - apply (proj1 (is_valid_query_rejects "x")). vm_compute. lia.
  - apply (proj2 (is_valid_query_rejects "bcdfgh")); vm_compute; lia.
Defined.

(** ** Spelling correction *)

Lemma mem_true_of_In (x : string) (xs : list string) :
  In x xs -> PyStr.mem x xs = true.
Proof.
  intros H. unfold PyStr.mem. apply existsb_exists.
  exists x. split; [exact H | apply String.eqb_refl].
Qed.

(** C8, for the words that the code looks at.  A query that contains a word
    of the preserve list as one of its white-space separated words, whatever
    its case, is returned unchanged; so is ["opac timings"], whatever the
    corrector would answer. *)
Lemma auto_correct_spelling_preserves :
  (forall has_textblob corrector authors (query word : string),
      In word preserve_words ->
      In word (PyStr.split (PyStr.lower query)) ->
      auto_correct_spelling has_textblob corrector authors query = query) /\
  (forall has_textblob corrector authors,
      auto_correct_spelling has_textblob corrector authors "opac timings"
      = "opac timings"%string).
Proof.
  assert (forall has_textblob corrector authors (query word : string),
      In word preserve_words ->
      In word (PyStr.split (PyStr.lower query)) ->
      auto_correct_spelling has_textblob corrector authors query = query) as Hgen.
  { intros has corrector authors query word Hp Hq.
    unfold auto_correct_spelling.
    destruct (negb has || PyStr.is_empty query); [reflexivity |].
    assert (existsb (fun w => PyStr.mem w (PyStr.split (PyStr.lower query)))
              preserve_words = true) as ->; [| reflexivity].
    apply existsb_exists. exists word. split; [exact Hp |].
    apply mem_true_of_In, Hq. }
  split; [exact Hgen |].
  intros has corrector authors.
  apply (Hgen has corrector authors _ "opac"%string); vm_compute; tauto.
Qed.

Example auto_correct_spelling_preserves_example :
  auto_correct_spelling true (fun _ => Some "OPEC timing"%string) []
    "Is OPAC down" = "Is OPAC down"%string.
Proof.
  apply (proj1 auto_correct_spelling_preserves true _ [] _ "opac"%string);
    vm_compute; tauto.
Qed.

(** C8, where the code departs from it.  The code looks for the preserved
    words among the white-space separated pieces of the query, so that a
    preserved word with a punctuation mark next to it is not seen: "opac" is
    a whole word of ["what is opac?"], and yet the query goes to the
    corrector, whose answer is returned when it passes the two checks. *)
Theorem auto_correct_spelling_corrects_preserved_word :
  In "opac"%string preserve_words /\
  whole_word_in "opac" "what is opac?" /\
  ~ In "opac"%string (PyStr.split (PyStr.lower "what is opac?")) /\
  auto_correct_spelling true (fun _ => Some "what is opec?"%string)
    ["Herbert, Frank"%string] "what is opac?"
  = "what is opec?"%string.
Proof.
  split; [vm_compute; tauto |]. split; [| split].
  - exists (PyStr.chars "what is" ++ [" "%char]), (PyStr.chars "?").
    split; [vm_compute; reflexivity |]. split.
    + intros pre' c E. apply app_inj_tail in E as [_ <-]. reflexivity.
    + intros c post' [= <- _]. reflexivity.
  - vm_compute. intros [E | [E | [E | []]]]; discriminate E.
  - vm_compute. reflexivity.
Qed.

(** ** Stable sorting *)

Section StableSortFacts.

Context {A : Type}.
Variable key : A -> Z.

Lemma insert_le_perm (le : A -> A -> bool) (x : A) (l : list A) :
  Permutation (insert_le le x l) (x :: l).
Proof.
  induction l as [| y l IH]; simpl; [reflexivity |].
  destruct (le x y); [reflexivity |].
  rewrite IH. apply perm_swap.
Qed.

Lemma sort_le_perm (le : A -> A -> bool) (l : list A) :
  Permutation (sort_le le l) l.
Proof.
  induction l as [| x l IH]; simpl; [reflexivity |].
  rewrite insert_le_perm. now constructor.
Qed.

Lemma sort_by_perm (l : list A) : Permutation (sort_by key l) l.
Proof. apply sort_le_perm. Qed.

Let insert_by := insert_le (fun x y => (key x <=? key y)%Z).

Lemma insert_by_sorted (x : A) (l : list A) :
  StronglySorted (key_le key) l -> StronglySorted (key_le key) (insert_by x l).
Proof.
  unfold insert_by.
  induction 1 as [| y l Hs IH Hy]; simpl.
  - repeat constructor.
  - destruct (key x <=? key y)%Z eqn:E.
    + apply Z.leb_le in E. constructor; [now constructor |].
      constructor; [exact E |].
      eapply List.Forall_impl; [| exact Hy].
      unfold key_le; intros; lia.
    + apply Z.leb_gt in E. constructor; [exact IH |].
      apply List.Forall_forall. intros z Hz.
      apply (Permutation_in _ (insert_le_perm _ x l)) in Hz.
      destruct Hz as [<- | Hz]; [unfold key_le; lia |].
      rewrite List.Forall_forall in Hy. now apply Hy.
Qed.

Lemma sort_by_sorted (l : list A) : StronglySorted (key_le key) (sort_by key l).
Proof.
  unfold sort_by.
  induction l as [| x l IH]; simpl; [constructor |].
  now apply insert_by_sorted.
Qed.

(** In a sorted list every element of a prefix is below every element of
    the rest. *)
Lemma sorted_firstn_skipn (n : nat) (l : list A) :
  StronglySorted (key_le key) l ->
  forall x y, In x (firstn n l) -> In y (skipn n l) -> key_le key x y.
Proof.
  intros Hs. revert n.
  induction Hs as [| z l Hs IH Hz]; intros n x y Hx Hy.
  - destruct n; contradiction.
  - destruct n as [| n]; simpl in Hx, Hy; [contradiction |].
    destruct Hx as [<- | Hx].
    + rewrite List.Forall_forall in Hz. apply Hz.
      rewrite <- (firstn_skipn n l). apply in_or_app. now right.
    + now apply (IH n).
Qed.

End StableSortFacts.

(** ** Dictionaries in insertion order *)

Lemma NoDup_app_disjoint {A} (l1 l2 : list A) (x : A) :
  List.NoDup (l1 ++ l2) -> In x l1 -> In x l2 -> False.
Proof.
  induction l1 as [| a l1 IH]; simpl; intros Hnd H1 H2; [contradiction |].
  inversion Hnd as [| ? ? Hnotin Hnd']; subst.
  destruct H1 as [-> | H1]; [| now apply IH].
  apply Hnotin, in_or_app. now right.
Qed.

Section DictFacts.

Context {V : Type}.
Implicit Types (d : list (string * V)) (k : string) (v : V).

Lemma dict_set_fresh k v d :
  ~ In k (map fst d) -> dict_set k v d = d ++ [(k, v)].
Proof.
  induction d as [| [k' v'] d IH]; simpl; intros Hk; [reflexivity |].
  destruct (String.eqb_spec k' k) as [-> | Hne]; [tauto |].
  rewrite IH; tauto.
Qed.

Lemma dict_set_keys_present k v d :
  In k (map fst d) -> map fst (dict_set k v d) = map fst d.
Proof.
  induction d as [| [k' v'] d IH]; simpl; intros Hk; [contradiction |].
  destruct (String.eqb_spec k' k) as [-> | Hne]; simpl; [reflexivity |].
  rewrite IH; [reflexivity |]. destruct Hk; [contradiction | assumption].
Qed.

Lemma dict_set_NoDup k v d :
  List.NoDup (map fst d) -> List.NoDup (map fst (dict_set k v d)).
Proof.
  intros Hd. destruct (in_dec string_dec k (map fst d)) as [Hin | Hout].
  - now rewrite dict_set_keys_present.
  - rewrite dict_set_fresh by exact Hout. rewrite map_app. simpl.
    apply List.NoDup_app; [exact Hd | repeat constructor; simpl; tauto |].
    intros a Ha [<- | []]. contradiction.
Qed.

(** Deleting the keys of [victims] one after the other keeps the entries
    whose key is not among them, in their order. *)
Lemma fold_dict_del (victims d : list (string * V)) :
  fold_left (fun c e => dict_del (fst e) c) victims d
  = List.filter (fun e => negb (PyStr.mem (fst e) (map fst victims))) d.
Proof.
  revert d. induction victims as [| x victims IH]; intros d; simpl.
  - induction d as [| e d IHd]; simpl; [reflexivity | now rewrite <- IHd].
  - rewrite IH. unfold dict_del.
    induction d as [| e d IHd]; simpl; [reflexivity |].
    rewrite (String.eqb_sym (fst e) (fst x)).
    destruct (String.eqb (fst x) (fst e)); simpl; [exact IHd |].
    destruct (negb (PyStr.mem (fst e) (map fst victims))); simpl;
      now rewrite IHd.
Qed.

Lemma mem_In (x : string) (xs : list string) :
  PyStr.mem x xs = true <-> In x xs.
Proof.
  unfold PyStr.mem. rewrite existsb_exists. split.
  - intros [y [Hy E]]. apply String.eqb_eq in E. now subst.
  - intros H. exists x. split; [exact H | apply String.eqb_refl].
Qed.

Lemma NoDup_keys_inj d (e1 e2 : string * V) :
  List.NoDup (map fst d) -> In e1 d -> In e2 d -> fst e1 = fst e2 -> e1 = e2.
Proof.
  induction d as [| e d IH]; simpl; intros Hnd H1 H2 E; [contradiction |].
  inversion Hnd as [| ? ? Hnotin Hnd']; subst.
  destruct H1 as [-> | H1], H2 as [-> | H2]; auto.
  - exfalso. apply Hnotin. rewrite E. now apply in_map.
  - exfalso. apply Hnotin. rewrite <- E. now apply in_map.
Qed.

(** Evicting the first [n] entries of the cache sorted by [key]: the cache
    splits into the evicted entries and the entries kept, and no evicted
    entry has a larger key than an entry kept. *)
Lemma evict_oldest (key : string * V -> Z) (n : nat) d :
  List.NoDup (map fst d) ->
  let victims := firstn n (sort_by key d) in
  let kept := fold_left (fun c e => dict_del (fst e) c) victims d in
  Permutation d (victims ++ kept) /\
  (forall e r, In e victims -> In r kept -> (key e <= key r)%Z).
Proof.
  intros Hnd victims kept.
  pose proof (sort_by_perm key d) as Hperm.
  pose proof (sort_by_sorted key d) as Hsorted.
  assert (List.NoDup d) as Hd by (eapply NoDup_map_inv; exact Hnd).
  assert (List.NoDup (sort_by key d)) as Hs
    by (eapply Permutation_NoDup; [symmetry; exact Hperm | exact Hd]).
  assert (forall e, In e victims -> In e d) as Hvd.
  { intros e He. apply (Permutation_in _ Hperm).
    rewrite <- (firstn_skipn n (sort_by key d)). apply in_or_app. now left. }
  assert (forall r, In r kept <-> In r (skipn n (sort_by key d))) as Hkept.
  { intros r. subst kept. rewrite fold_dict_del, filter_In, negb_true_iff.
    rewrite <- (firstn_skipn n (sort_by key d)) in Hs.
    fold victims in Hs.
    split.
    - intros [Hr Hm].
      apply (Permutation_in _ (Permutation_sym Hperm)) in Hr.
      rewrite <- (firstn_skipn n (sort_by key d)) in Hr.
      apply in_app_or in Hr as [Hr | Hr]; [| exact Hr].
      exfalso. apply not_true_iff_false in Hm. apply Hm.
      apply mem_In. now apply in_map.
    - intros Hr. split.
      + apply (Permutation_in _ Hperm).
        rewrite <- (firstn_skipn n (sort_by key d)). apply in_or_app. now right.
      + apply not_true_iff_false. rewrite mem_In, in_map_iff.
        intros [e [E He]].
        assert (e = r) as ->.
        { apply (NoDup_keys_inj d); auto.
          apply (Permutation_in _ Hperm).
          rewrite <- (firstn_skipn n (sort_by key d)).
          apply in_or_app. now right. }
        exact (NoDup_app_disjoint _ _ r Hs He Hr). }
  split.
  - rewrite <- Hperm at 1. rewrite <- (firstn_skipn n (sort_by key d)) at 1.
    apply Permutation_app_head. fold victims.
    apply Permutation.NoDup_Permutation.
    + rewrite <- (firstn_skipn n (sort_by key d)) in Hs.
      eapply NoDup_app_remove_l. exact Hs.
    + subst kept. rewrite fold_dict_del. now apply List.NoDup_filter.
    + intros r. symmetry. apply Hkept.
  - intros e r He Hr. apply Hkept in Hr.
    exact (sorted_firstn_skipn key n _ Hsorted e r He Hr).
Qed.

End DictFacts.

(** ** Classification cache *)

Lemma cache_classification_small now query cls (cache : list cache_entry) :
  ~ In (query_key query) (map fst cache) ->
  List.length cache < 500 ->
  cache_classification now query cls cache
  = cache ++ [(query_key query, (cls, now))].
Proof.
  intros Hfresh Hlen. unfold cache_classification. cbv zeta.
  rewrite dict_set_fresh by exact Hfresh.
  rewrite (proj2 (Nat.ltb_ge 500 _)); [reflexivity |].
  rewrite length_app. simpl. lia.
Qed.

Lemma cache_all_small (requests : list cache_request) :
  forall cache : list cache_entry,
    List.NoDup (map request_key requests) ->
    (forall r, In r requests -> ~ In (request_key r) (map fst cache)) ->
    List.length cache + List.length requests <= 500 ->
    map fst (cache_all requests cache) = map fst cache ++ map request_key requests.
Proof.
  induction requests as [| r requests IH]; intros cache Hnd Hfresh Hlen; simpl.
  - now rewrite app_nil_r.
  - simpl in Hlen. inversion Hnd as [| ? ? Hr Hnd']; subst.
    rewrite cache_classification_small;
      [| apply (Hfresh r); now left | lia].
    rewrite IH.
    + rewrite map_app. simpl. now rewrite <- app_assoc.
    + exact Hnd'.
    + intros r' Hr'. rewrite map_app, in_app_iff. simpl.
      intros [Hin | [E | []]].
      * apply (Hfresh r'); [now right | exact Hin].
      * change (request_key r = request_key r') in E.
        apply Hr. rewrite E. now apply in_map.
    + rewrite length_app. simpl. lia.
Qed.

Lemma cache_classification_overflow now query cls (cache : list cache_entry) :
  List.NoDup (map fst cache) ->
  let full := dict_set (query_key query) (cls, now) cache in
  500 < List.length full ->
  exists evicted,
    List.length evicted = 100 /\
    Permutation full (evicted ++ cache_classification now query cls cache) /\
    (forall e r, In e evicted ->
                 In r (cache_classification now query cls cache) ->
                 (entry_time e <= entry_time r)%Z).
Proof.
  intros Hnd full Hlen.
  exists (firstn 100 (sort_by entry_time full)).
  assert (cache_classification now query cls cache
          = fold_left (fun c e => dict_del (fst e) c)
              (firstn 100 (sort_by entry_time full)) full) as ->.
  { unfold cache_classification. fold full.
    apply Nat.ltb_lt in Hlen. now rewrite Hlen. }
  split.
  - rewrite length_firstn.
    rewrite (Permutation_length (sort_by_perm entry_time full)). lia.
  - apply (evict_oldest entry_time 100 full).
    now apply dict_set_NoDup.
Qed.

(** C1, as the code has it.  Caching 501 queries with pairwise different
    keys in an empty cache leaves 401 entries; and whenever an insertion
    brings a cache over 500 entries, exactly 100 entries are evicted and no
    evicted entry is younger than an entry that stays. *)
Theorem cache_classification_eviction :
  (forall requests : list cache_request,
      List.length requests = 501 ->
      List.NoDup (map request_key requests) ->
      List.length (cache_all requests []) = 401) /\
  (forall now query cls (cache : list cache_entry),
      List.NoDup (map fst cache) ->
      500 < List.length (dict_set (query_key query) (cls, now) cache) ->
      exists evicted,
        List.length evicted = 100 /\
        Permutation (dict_set (query_key query) (cls, now) cache)
          (evicted ++ cache_classification now query cls cache) /\
        (forall e r, In e evicted ->
                     In r (cache_classification now query cls cache) ->
                     (entry_time e <= entry_time r)%Z)).
Proof.
  split; [| intros; now apply cache_classification_overflow].
  intros requests Hlen Hnd.
  destruct (exists_last (l := requests)) as [front [r ->]].
  { intros ->. discriminate Hlen. }
  rewrite length_app in Hlen. simpl in Hlen.
  rewrite map_app in Hnd. simpl in Hnd.
  unfold cache_all. rewrite fold_left_app. simpl.
  fold (cache_all front []).
  pose proof (cache_all_small front []
                (NoDup_app_remove_r _ _ Hnd)
                (fun _ _ H => H) ltac:(simpl; lia)) as Hkeys.
  simpl in Hkeys.
  assert (List.length (cache_all front []) = 500) as Hfront.
  { rewrite <- (length_map fst), Hkeys, length_map. lia. }
  assert (List.NoDup (map fst (cache_all front []))) as Hnd'.
  { rewrite Hkeys. eapply NoDup_app_remove_r. exact Hnd. }
  assert (~ In (query_key (fst (snd r))) (map fst (cache_all front []))) as Hr.
  { rewrite Hkeys. intros Hin.
    apply (NoDup_app_disjoint _ _ _ Hnd Hin). now left. }
  destruct (cache_classification_overflow (fst r) (fst (snd r)) (snd (snd r))
              (cache_all front []) Hnd') as [evicted [He [Hperm _]]].
  { rewrite dict_set_fresh by exact Hr. rewrite length_app. simpl. lia. }
  apply Permutation_length in Hperm.
  rewrite dict_set_fresh in Hperm by exact Hr.
  rewrite !length_app in Hperm. simpl in Hperm. lia.
Qed.

Lemma cache_classification_eviction_witness :
  List.length (cache_all (numbered_requests 501) []) = 401.
Proof.
  apply (proj1 cache_classification_eviction).
  - vm_compute. reflexivity.
  - apply NoDup_ListNoDup, (bool_decide_unpack _). vm_compute. exact I.
Defined.

(** C1, as the specification states it, fails: 501 different queries leave
    401 entries, not 400. *)
Lemma cache_classification_not_400 :
  ~ (forall requests : list cache_request,
        List.length requests = 501 ->
        List.NoDup (map request_key requests) ->
        List.length (cache_all requests []) = 400).
Proof.
  intros H. specialize (H (numbered_requests 501)).
  assert (List.length (cache_all (numbered_requests 501) []) = 401) as E
    by (vm_compute; reflexivity).
  rewrite E in H. 
  assert (401 = 400) as Habs; [| lia].
  apply H.
  - vm_compute. reflexivity.
  - apply NoDup_ListNoDup, (bool_decide_unpack _). vm_compute. exact I.
Qed.

(** ** Rate limiting *)

Section RateLimitFacts.

Context {St R : Type}.
Variables (max_requests window : Z).
Variable func : call -> St -> St * R.
Variable c : call.

Let client_id := kwargs_client_ip c.

Lemma window_of_insert (w : list Z) (rl : limiter) :
  window_of client_id (<[client_id := w]> rl) = w.
Proof. unfold window_of. now rewrite lookup_insert_eq. Qed.

Lemma live_timestamps_In now (w : list Z) (ts : Z) :
  In ts (live_timestamps window now w) <-> In ts w /\ (now - ts < window)%Z.
Proof. unfold live_timestamps. now rewrite filter_In, Z.ltb_lt. Qed.

Lemma live_timestamps_all now (w : list Z) :
  (forall ts, In ts w -> (now - ts < window)%Z) ->
  live_timestamps window now w = w.
Proof.
  intros Hw. unfold live_timestamps.
  induction w as [| ts w IH]; simpl; [reflexivity |].
  rewrite (proj2 (Z.ltb_lt _ _) (Hw ts (or_introl eq_refl))).
  rewrite IH; [reflexivity |]. intros; apply Hw; now right.
Qed.

Lemma live_timestamps_none now (w : list Z) :
  (forall ts, In ts w -> (window <= now - ts)%Z) ->
  live_timestamps window now w = [].
Proof.
  intros Hw. unfold live_timestamps.
  induction w as [| ts w IH]; simpl; [reflexivity |].
  rewrite (proj2 (Z.ltb_ge _ _) (Hw ts (or_introl eq_refl))).
  apply IH. intros; apply Hw; now right.
Qed.

Lemma rate_limit_unfold now (rl : limiter) (s : St) :
  rate_limit max_requests window func now c (rl, s) =
  let live := live_timestamps window now (window_of client_id rl) in
  if (max_requests <=? Z.of_nat (List.length live))%Z
  then ((<[client_id := live]> rl, s), Denied (too_many_requests window))
  else ((<[client_id := live ++ [now]]> rl, fst (func c s)),
        Allowed (snd (func c s))).
Proof.
  unfold rate_limit. cbn [fst snd]. fold client_id. cbv zeta.
  destruct (max_requests <=? _)%Z; [reflexivity |].
  rewrite insert_insert_eq. now destruct (func c s).
Qed.

(** Requests that find [w] as the live part of the window and leave room
    under the maximum are all served, and their times join the window. *)
Lemma serve_fills (t : Z) (times : list Z) :
  forall (w : list Z) (rl : limiter) (s : St),
    (forall a, In a (times ++ [t]) ->
               live_timestamps window a (window_of client_id rl) = w) ->
    (forall a b, In a (times ++ [t]) -> In b (times ++ [t]) ->
                 (b - a < window)%Z) ->
    (Z.of_nat (List.length w + List.length times) <= max_requests)%Z ->
    let result := serve max_requests window func times c (rl, s) in
    forallb is_allowed (snd result) = true /\
    List.length (snd result) = List.length times /\
    live_timestamps window t (window_of client_id (fst (fst result)))
    = w ++ times.
Proof.
  induction times as [| a times IH]; intros w rl s Hlive Hnear Hroom; simpl.
  - rewrite app_nil_r. repeat split. apply Hlive. now left.
  - destruct (rate_limit max_requests window func a c (rl, s))
      as [st1 out] eqn:Estep.
    rewrite rate_limit_unfold in Estep. cbv zeta in Estep.
    rewrite (Hlive a (or_introl eq_refl)) in Estep.
    simpl in Hroom.
    rewrite (proj2 (Z.leb_gt _ _)) in Estep by lia.
    injection Estep as <- <-.
    specialize (IH (w ++ [a]) (<[client_id := w ++ [a]]> rl) (fst (func c s))).
    destruct (serve max_requests window func times c
                (<[client_id := w ++ [a]]> rl, fst (func c s)))
      as [st2 outs] eqn:Erest.
    simpl in IH |- *.
    destruct IH as [Hall [Hlen Hwin]].
    + intros b Hb. rewrite window_of_insert.
      apply live_timestamps_all. intros ts Hts.
      apply in_app_or in Hts as [Hts | [<- | []]].
      * rewrite <- (Hlive b (or_intror Hb)) in Hts.
        now apply live_timestamps_In in Hts.
      * apply Hnear; [now left | now right].
    + intros x y Hx Hy. apply Hnear; now right.
    + rewrite length_app. simpl. lia.
    + repeat split; [exact Hall | now rewrite Hlen |].
      rewrite Hwin. now rewrite <- app_assoc.
Qed.

End RateLimitFacts.

(** C6.  With [max_requests = n]: after [n] requests of a client that all
    lie, with one more, within one window, that one more request is denied
    with the rate-limit error and the wrapped function is not run; every
    check is made on the timestamps younger than the window, the others
    being dropped; and once all timestamps of the client are at least a
    window old the client is served again. *)
Theorem rate_limit_window {St R : Type} (n window : Z)
    (func : call -> St -> St * R) (c : call) :
  let client_id := kwargs_client_ip c in
  (forall (times : list Z) (t : Z) (rl : limiter) (s : St),
      Z.of_nat (List.length times) = n ->
      (forall a, In a (times ++ [t]) ->
                 live_timestamps window a (window_of client_id rl) = []) ->
      (forall a b, In a (times ++ [t]) -> In b (times ++ [t]) ->
                   (b - a < window)%Z) ->
      let result := serve n window func times c (rl, s) in
      forallb is_allowed (snd result) = true /\
      List.length (snd result) = List.length times /\
      rate_limit n window func t c (fst result)
      = ((<[client_id := times]> (fst (fst result)), snd (fst result)),
         Denied (too_many_requests window))) /\
  (forall (now : Z) (rl : limiter) (s : St),
      let live := live_timestamps window now (window_of client_id rl) in
      let result := rate_limit n window func now c (rl, s) in
      (forall ts, In ts live <->
                  In ts (window_of client_id rl) /\ (now - ts < window)%Z) /\
      is_allowed (snd result) = (Z.of_nat (List.length live) <? n)%Z /\
      window_of client_id (fst (fst result))
      = (if is_allowed (snd result) then live ++ [now] else live)) /\
  ((0 < n)%Z ->
   forall (now : Z) (rl : limiter) (s : St),
     (forall ts, In ts (window_of client_id rl) -> (window <= now - ts)%Z) ->
     rate_limit n window func now c (rl, s)
     = ((<[client_id := [now]]> rl, fst (func c s)), Allowed (snd (func c s)))).
Proof.
  intros client_id; subst client_id. split; [| split].
  - intros times t rl s Hn Hold Hnear result.
    destruct (serve_fills n window func c t times [] rl s Hold Hnear) as
      [Hall [Hlen Hwin]]; [simpl; lia |].
    fold result in Hall, Hlen, Hwin. simpl in Hwin.
    repeat split; [exact Hall | exact Hlen |].
    destruct result as [[rl1 s1] outs]. cbn [fst snd] in *.
    rewrite rate_limit_unfold. cbv zeta. rewrite Hwin.
    now rewrite (proj2 (Z.leb_le _ _)) by lia.
  - intros now rl s live result. split; [| split].
    + intros ts. apply live_timestamps_In.
    + subst result. rewrite rate_limit_unfold. cbv zeta. fold live.
      rewrite Z.ltb_antisym.
      now destruct (n <=? Z.of_nat (List.length live))%Z.
    + subst result. rewrite rate_limit_unfold. cbv zeta. fold live.
      destruct (n <=? Z.of_nat (List.length live))%Z; cbn [fst snd is_allowed];
        apply window_of_insert.
  - intros Hn now rl s Hold.
    rewrite rate_limit_unfold. cbv zeta.
    rewrite (live_timestamps_none window now _ Hold). simpl.
    now rewrite (proj2 (Z.leb_gt _ _)) by lia.
Qed.

Lemma rate_limit_window_witness :
  let c := keyword_call "library timings" "10.0.0.1" in
  let after := fst (serve 2 60 counting_handler [0; 10]%Z c (∅, 0)) in
  rate_limit 2 60 counting_handler 20 c after
  = ((<["10.0.0.1"%string := [0; 10]%Z]> (fst after), 2),
     Denied (too_many_requests 60)) /\
  rate_limit 2 60 counting_handler 100 c after
  = ((<["10.0.0.1"%string := [100%Z]]> (fst after), 3), Allowed "served"%string).
Proof.
  split.
  - refine (proj2 (proj2 (proj1 (rate_limit_window 2 60 counting_handler
                    (keyword_call "library timings" "10.0.0.1"))
             [0; 10]%Z 20%Z ∅ 0 _ _ _))).
    + reflexivity.
    + intros a _. reflexivity.
    + simpl. intros a b Ha Hb. lia.
  - apply (proj2 (proj2 (rate_limit_window 2 60 counting_handler
                           (keyword_call "library timings" "10.0.0.1")))).
    + lia.
    + intros ts Hts. vm_compute in Hts.
      destruct Hts as [<- | [<- | []]]; lia.
Defined.

(** ** The entry point [get_nandu_response] *)

Section OrchestratorFacts.

Context {Env : Type} `{Services Env}.

Lemma audit_log_query_appends query response ip time success (b : Backend Env) :
  audit_io_ok (env b) = true ->
  exists r,
    audit_log (audit_log_query query response ip time success b)
    = audit_log b ++ [r] /\
    ar_processing_time r = time /\ ar_success r = success.
Proof.
  intros Hio. unfold audit_log_query. rewrite Hio.
  eexists. simpl. repeat split.
Qed.

(** An accepted call with a non-empty string as its query writes one audit
    record, on every path through the body. *)
Lemma body_audits_once start_time end_time (c : call) (b : Backend Env) (s : string) :
  (forall e, audit_io_ok e = true) ->
  q c = QStr s -> s <> ""%string ->
  exists r,
    audit_log (fst (get_nandu_response_body start_time end_time c b))
    = audit_log b ++ [r] /\
    ar_processing_time r = (end_time - start_time)%Z.
Proof.
  intros Hio Hq Hs. unfold get_nandu_response_body. rewrite Hq.
  destruct s as [| ch s]; [congruence |]. cbn [PyStr.is_empty].
  set (s0 := String ch s).
  destruct (300 <? PyStr.len s0).
  { cbn [fst].
    destruct (audit_log_query_appends (PyStr.prefix 100 s0) TOO_LONG
                (param_client_ip c) (end_time - start_time) false b (Hio _))
      as [r [Hr [Ht _]]].
    eauto. }
  destruct (is_valid_query (PyStr.strip s0)) as [is_valid error_msg].
  destruct is_valid; cbn [negb].
  2:{ cbn [fst].
      destruct (audit_log_query_appends (PyStr.strip s0) error_msg
                  (param_client_ip c) (end_time - start_time) false b (Hio _))
        as [r [Hr [Ht _]]].
      eauto. }
  destruct (try_block _ _ _ _) as [e1 out].
  destruct out; cbn [fst];
    match goal with
    | |- context [audit_log_query ?a ?b0 ?c0 ?d ?e0 ?f] =>
        destruct (audit_log_query_appends a b0 c0 d e0 f (Hio _))
          as [r [Hr [Ht _]]]
    end; eauto.
Qed.

End OrchestratorFacts.

(** C10.  A call that the rate limiter lets through adds its one timestamp
    to the window of the client, whatever the body then does with the
    query: a query that is too long or is rejected as invalid has used up
    a slot of the 20 per 60 seconds all the same. *)
Theorem get_nandu_response_consumes_slot {Env : Type} `{Services Env}
    (current_time start_time end_time : Z) (c : call)
    (rl : limiter) (b : Backend Env) :
  let client_id := kwargs_client_ip c in
  let live := live_timestamps 60 current_time (window_of client_id rl) in
  let result := get_nandu_response current_time start_time end_time c (rl, b) in
  (Z.of_nat (List.length live) < 20)%Z ->
  fst (fst result) = <[client_id := live ++ [current_time]]> rl /\
  (forall s, q c = QStr s -> 300 < PyStr.len s ->
             snd result = Allowed TOO_LONG) /\
  (forall s msg, q c = QStr s -> s <> ""%string -> PyStr.len s <= 300 ->
                 is_valid_query (PyStr.strip s) = (false, msg) ->
                 snd result = Allowed msg).
Proof.
  intros client_id live result Hroom.
  subst result. unfold get_nandu_response.
  rewrite rate_limit_unfold. cbv zeta. fold client_id live.
  rewrite (proj2 (Z.leb_gt _ _)) by lia. cbn [fst snd].
  split; [reflexivity |]. split.
  - intros s Hq Hlong. unfold get_nandu_response_body. rewrite Hq.
    destruct s as [| ch s]; [cbv in Hlong; lia |]. cbn [PyStr.is_empty].
    apply Nat.ltb_lt in Hlong. now rewrite Hlong.
  - intros s msg Hq Hs Hshort Hbad. unfold get_nandu_response_body. rewrite Hq.
    destruct s as [| ch s]; [congruence |]. cbn [PyStr.is_empty].
    rewrite (proj2 (Nat.ltb_ge _ _) Hshort), Hbad. reflexivity.
Qed.

Lemma get_nandu_response_consumes_slot_witness :
  let result :=
    get_nandu_response 7 7 8 (keyword_call "zzzzzzzz" "10.0.0.1")
      (∅, empty_backend) in
  fst (fst result) = <["10.0.0.1"%string := [7%Z]]> ∅ /\
  snd result = Allowed GIBBERISH_ERROR.
Proof.
  pose proof (get_nandu_response_consumes_slot 7 7 8
                (keyword_call "zzzzzzzz" "10.0.0.1") ∅ empty_backend) as Hc.
  cbv zeta in Hc. destruct Hc as [Hslot [_ Hbad]].
  - vm_compute. reflexivity.
  - split; [exact Hslot |].
    apply (Hbad "zzzzzzzz"%string); [reflexivity | discriminate | | reflexivity].
    vm_compute. lia.
Defined.

(** C2, as the code has it.  A request that the rate limiter denies returns
    the rate-limit error and leaves the audit log as it was.  A request
    that is let through with a non-empty string as its query appends one
    audit record, whether it is answered, rejected by the validation or
    fails, and the record holds the elapsed time; this as long as the audit
    file can be written. *)
Theorem get_nandu_response_audit {Env : Type} `{Services Env}
    (current_time start_time end_time : Z) (c : call)
    (rl : limiter) (b : Backend Env) :
  let live :=
    live_timestamps 60 current_time (window_of (kwargs_client_ip c) rl) in
  let result := get_nandu_response current_time start_time end_time c (rl, b) in
  ((20 <= Z.of_nat (List.length live))%Z ->
   snd result = Denied (too_many_requests 60) /\
   audit_log (snd (fst result)) = audit_log b) /\
  ((Z.of_nat (List.length live) < 20)%Z ->
   (forall e, audit_io_ok e = true) ->
   forall s, q c = QStr s -> s <> ""%string ->
   exists r,
     audit_log (snd (fst result)) = audit_log b ++ [r] /\
     ar_processing_time r = (end_time - start_time)%Z).
Proof.
  intros live result. subst result. unfold get_nandu_response.
  rewrite rate_limit_unfold. cbv zeta. fold live. split.
  - intros Hfull. rewrite (proj2 (Z.leb_le _ _)) by lia. now split.
  - intros Hroom Hio s Hq Hs. rewrite (proj2 (Z.leb_gt _ _)) by lia.
    cbn [fst snd]. now apply body_audits_once with (s := s).
Qed.

Lemma get_nandu_response_audit_witness :
  let result :=
    get_nandu_response 7 7 9 (keyword_call "library timings" "10.0.0.1")
      (∅, empty_backend) in
  exists r,
    audit_log (snd (fst result)) = [r] /\ ar_processing_time r = 2%Z.
Proof.
  apply (proj2 (get_nandu_response_audit 7 7 9
                  (keyword_call "library timings" "10.0.0.1") ∅ empty_backend))
    with (s := "library timings"%string).
  - vm_compute. reflexivity.
  - reflexivity.
  - reflexivity.
  - discriminate.
Defined.

(** C2, as the specification states it, fails: a request of a client that
    has used up its 20 requests is denied, and no audit record is written
    for it. *)
Lemma get_nandu_response_denied_unaudited :
  let result :=
    get_nandu_response 1 1 2 (keyword_call "library timings" "10.0.0.1")
      (busy_limiter "10.0.0.1", empty_backend) in
  snd result = Denied (too_many_requests 60) /\
  audit_log (snd (fst result)) = [].
Proof. vm_compute. split; reflexivity. Qed.

(** ** Merging duplicate records *)

Lemma key_eqb_eq (k1 k2 : group_key_t) : key_eqb k1 k2 = true <-> k1 = k2.
Proof.
  unfold key_eqb. rewrite andb_true_iff, !String.eqb_eq.
  destruct k1, k2; simpl. split; [intros [-> ->]; reflexivity | now inversion 1].
Qed.

Lemma key_eqb_refl (k : group_key_t) : key_eqb k k = true.
Proof. now apply key_eqb_eq. Qed.

Lemma key_eqb_neq (k1 k2 : group_key_t) : k1 <> k2 -> key_eqb k1 k2 = false.
Proof.
  intros Hne. destruct (key_eqb k1 k2) eqn:E; [| reflexivity].
  now apply key_eqb_eq in E.
Qed.

Lemma merge_item_record_key groups (it : item) :
  merge_item groups it =
  match it, record_key it with
  | Rec d, Some key => upsert key (new_group d) (count_in d) groups
  | _, _ => groups
  end.
Proof.
  destruct it as [d |]; simpl; [| reflexivity].
  now destruct (PyStr.is_empty (item_title d)).
Qed.

Section UpsertFacts.

Variable d : gmap string pyval.
Variable key : group_key_t.
Hypothesis key_of_d :
  key = (normalize_title (item_title d), canonical_author_key (item_author d)).

Let put := upsert key (new_group d) (count_in d).

Lemma upsert_keys groups :
  map fst (put groups)
  = if existsb (key_eqb key) (map fst groups)
    then map fst groups else map fst groups ++ [key].
Proof.
  subst put.
  induction groups as [| [k ge] groups IH]; simpl; [reflexivity |].
  destruct (key_eqb key k); simpl; [reflexivity |].
  rewrite IH. now destruct (existsb (key_eqb key) (map fst groups)).
Qed.

Lemma upsert_total groups :
  list_sum (map (fun kg => copies (fst (snd kg))) (put groups))
  = list_sum (map (fun kg => copies (fst (snd kg))) groups) + 1.
Proof.
  subst put.
  induction groups as [| [k ge] groups IH]; simpl; [reflexivity |].
  destruct (key_eqb key k); simpl; lia.
Qed.

Lemma upsert_copies_at (k : group_key_t) groups :
  copies_at k (put groups)
  = copies_at k groups + (if key_eqb k key then 1 else 0).
Proof.
  subst put. unfold copies_at.
  induction groups as [| [k' ge] groups IH]; simpl.
  - destruct (key_eqb k key); reflexivity.
  - destruct (key_eqb key k') eqn:E; simpl.
    + apply key_eqb_eq in E. subst k'.
      destruct (key_eqb k key); lia.
    + rewrite IH. lia.
Qed.

Lemma upsert_well_keyed groups : well_keyed groups -> well_keyed (put groups).
Proof using key_of_d.
  intros [Hnd Hkeys]. split.
  - rewrite upsert_keys.
    destruct (existsb (key_eqb key) (map fst groups)) eqn:E; [exact Hnd |].
    apply List.NoDup_app; [exact Hnd | repeat constructor; simpl; tauto |].
    intros k Hk [<- | []].
    assert (existsb (key_eqb key) (map fst groups) = true) as E'; [| congruence].
    apply existsb_exists. exists key. split; [exact Hk | apply key_eqb_refl].
  - subst put. clear Hnd.
    induction groups as [| [k ge] groups IH]; simpl.
    + intros kg [<- | []]. simpl. unfold group_key. simpl. now rewrite key_of_d.
    + destruct (key_eqb key k) eqn:E; simpl.
      * intros kg [<- | Hin]; [| apply Hkeys; now right].
        simpl. apply (Hkeys (k, ge)). now left.
      * intros kg [<- | Hin]; [apply (Hkeys (k, ge)); now left |].
        apply IH; [| exact Hin]. intros kg' Hkg'. apply Hkeys. now right.
Qed.

End UpsertFacts.

Lemma merge_item_well_keyed groups (it : item) :
  well_keyed groups -> well_keyed (merge_item groups it).
Proof.
  intros Hw. destruct it as [d |]; simpl; [| exact Hw].
  destruct (PyStr.is_empty (item_title d)); [exact Hw |].
  now apply upsert_well_keyed.
Qed.

Lemma merge_item_copies_at (k : group_key_t) groups (it : item) :
  copies_at k (merge_item groups it)
  = copies_at k groups + List.length (records_with_key k [it]).
Proof.
  unfold records_with_key. destruct it as [d |]; simpl; [| lia].
  destruct (PyStr.is_empty (item_title d)); simpl; [lia |].
  rewrite upsert_copies_at.
  now destruct (key_eqb k _).
Qed.

Lemma merge_item_total groups (it : item) :
  list_sum (map (fun kg => copies (fst (snd kg))) (merge_item groups it))
  = list_sum (map (fun kg => copies (fst (snd kg))) groups)
    + (if is_counted it then 1 else 0).
Proof.
  unfold is_counted. destruct it as [d |]; simpl; [| lia].
  destruct (PyStr.is_empty (item_title d)); simpl; [lia |].
  apply upsert_total.
Qed.

Lemma fold_merge_well_keyed (results : list item) groups :
  well_keyed groups -> well_keyed (fold_left merge_item results groups).
Proof.
  revert groups. induction results as [| it results IH]; intros groups Hw;
    simpl; [exact Hw |].
  now apply IH, merge_item_well_keyed.
Qed.

Lemma fold_merge_copies_at (k : group_key_t) (results : list item) groups :
  copies_at k (fold_left merge_item results groups)
  = copies_at k groups + List.length (records_with_key k results).
Proof.
  revert groups. induction results as [| it results IH]; intros groups; simpl.
  - unfold records_with_key. simpl. lia.
  - rewrite IH, merge_item_copies_at.
    unfold records_with_key. simpl.
    destruct (match record_key it with Some k0 => key_eqb k k0 | None => false end);
      simpl; lia.
Qed.

Lemma fold_merge_total (results : list item) groups :
  list_sum (map (fun kg => copies (fst (snd kg)))
              (fold_left merge_item results groups))
  = list_sum (map (fun kg => copies (fst (snd kg))) groups)
    + List.length (List.filter is_counted results).
Proof.
  revert groups. induction results as [| it results IH]; intros groups; simpl.
  - lia.
  - rewrite IH, merge_item_total. destruct (is_counted it); simpl; lia.
Qed.

Lemma copies_at_absent (k : group_key_t) groups :
  ~ In k (map fst groups) -> copies_at k groups = 0.
Proof.
  unfold copies_at.
  induction groups as [| [k' ge] groups IH]; simpl; intros Hk; [reflexivity |].
  rewrite key_eqb_neq by (intros ->; tauto). apply IH. tauto.
Qed.

Lemma copies_at_entry (kg : group_key_t * group_entry) groups :
  List.NoDup (map fst groups) -> In kg groups ->
  copies_at (fst kg) groups = copies (fst (snd kg)).
Proof.
  induction groups as [| [k' ge] groups IH]; simpl; intros Hnd Hin;
    [contradiction |].
  inversion Hnd as [| ? ? Hnotin Hnd']; subst.
  unfold copies_at in *. simpl.
  destruct Hin as [<- | Hin]; simpl.
  - rewrite key_eqb_refl. fold (copies_at k' groups).
    rewrite copies_at_absent by exact Hnotin. lia.
  - rewrite key_eqb_neq.
    + now apply IH.
    + intros E. apply Hnotin. rewrite <- E. now apply in_map.
Qed.

Lemma finalize_keeps (ge : group_entry) :
  group_key (finalize ge) = group_key (fst ge) /\
  copies (finalize ge) = copies (fst ge).
Proof. split; reflexivity. Qed.

Lemma merge_duplicates_groups (results : list item) :
  merge_duplicates results
  = map (fun kg => finalize (snd kg)) (merge_groups results).
Proof. now destruct results. Qed.

(** The groups of the result: their keys are pairwise different, a group
    counts the records of its key and no others, and every record that has
    a title is counted in the group of its key. *)
Lemma merge_duplicates_spec (results : list item) :
  List.NoDup (map group_key (merge_duplicates results)) /\
  (forall g, In g (merge_duplicates results) ->
             copies g = List.length (records_with_key (group_key g) results)) /\
  (forall it k, In it results -> record_key it = Some k ->
                exists g, In g (merge_duplicates results) /\ group_key g = k).
Proof.
  rewrite merge_duplicates_groups. unfold merge_groups.
  pose proof (fold_merge_well_keyed results []) as [Hnd Hkeys].
  { split; [constructor | intros kg []]. }
  set (groups := fold_left merge_item results []) in *.
  assert (map group_key (map (fun kg => finalize (snd kg)) groups)
          = map fst groups) as Hmap.
  { rewrite map_map. apply map_ext_in. intros kg Hkg.
    rewrite (proj1 (finalize_keeps _)). now apply Hkeys. }
  assert (forall k, copies_at k groups
                    = List.length (records_with_key k results)) as Hcount.
  { intros k. subst groups. now rewrite fold_merge_copies_at. }
  split; [| split].
  - now rewrite Hmap.
  - intros g Hg. apply in_map_iff in Hg as [kg [<- Hkg]].
    rewrite (proj1 (finalize_keeps _)), (proj2 (finalize_keeps _)).
    rewrite (Hkeys kg Hkg), <- Hcount. symmetry. now apply copies_at_entry.
  - intros it k Hit Hk.
    assert (In k (map fst groups)) as Hin.
    { assert (forall a b : group_key_t, {a = b} + {a <> b}) as Hdec
        by (decide equality; apply string_dec).
      destruct (in_dec Hdec k (map fst groups))
        as [Hin | Hout]; [exact Hin | exfalso].
      apply copies_at_absent in Hout. rewrite Hcount in Hout.
      assert (In it (records_with_key k results)) as Hmem.
      { apply filter_In. split; [exact Hit |]. rewrite Hk. apply key_eqb_refl. }
      destruct (records_with_key k results); [contradiction | discriminate]. }
    apply in_map_iff in Hin as [kg [E Hkg]].
    exists (finalize (snd kg)). split.
    + apply in_map_iff. now exists kg.
    + rewrite (proj1 (finalize_keeps _)), <- E. now apply Hkeys.
Qed.

Lemma NoDup_map_injective {A B} (f : A -> B) (l : list A) (a b : A) :
  List.NoDup (map f l) -> In a l -> In b l -> f a = f b -> a = b.
Proof.
  induction l as [| x l IH]; simpl; intros Hnd Ha Hb E; [contradiction |].
  inversion Hnd as [| ? ? Hnotin Hnd']; subst.
  destruct Ha as [-> | Ha], Hb as [-> | Hb]; auto.
  - exfalso. apply Hnotin. rewrite E. now apply in_map.
  - exfalso. apply Hnotin. rewrite <- E. now apply in_map.
Qed.

Lemma filter_two_positions {A} (f : A -> bool) (l : list A) :
  forall (i j : nat) (x y : A),
    i <> j -> nth_error l i = Some x -> nth_error l j = Some y ->
    f x = true -> f y = true ->
    2 <= List.length (List.filter f l).
Proof.
  induction l as [| a l IH]; intros i j x y Hij Hi Hj Hx Hy.
  - destruct i; discriminate.
  - destruct i as [| i], j as [| j]; simpl in Hi, Hj; [lia | | |].
    + injection Hi as ->. simpl. rewrite Hx. simpl.
      assert (In y (List.filter f l)) as Hin
        by (apply filter_In; split; [eapply nth_error_In; eauto | exact Hy]).
      destruct (List.filter f l); [contradiction | simpl; lia].
    + injection Hj as ->. simpl. rewrite Hy. simpl.
      assert (In x (List.filter f l)) as Hin
        by (apply filter_In; split; [eapply nth_error_In; eauto | exact Hx]).
      destruct (List.filter f l); [contradiction | simpl; lia].
    + simpl. specialize (IH i j x y ltac:(lia) Hi Hj Hx Hy).
      destruct (f a); simpl; lia.
Qed.

Lemma record_key_titled (d : gmap string pyval) :
  item_title d <> ""%string ->
  record_key (Rec d)
  = Some (normalize_title (item_title d), canonical_author_key (item_author d)).
Proof.
  intros Ht. simpl. destruct (item_title d); [congruence | reflexivity].
Qed.

(** C4.  The two records of the example merge into one group with two
    copies; and two records of a list, both with a title, whose normalized
    titles are equal and whose canonical author keys are equal, are counted
    in one and the same group, the only one of their key. *)
Theorem merge_duplicates_same_book :
  (exists g,
      merge_duplicates [book "Foo" "J. Smith"; book "foo" "Smith, J."] = [g] /\
      copies g = 2) /\
  (forall (results : list item) (i j : nat) (d1 d2 : gmap string pyval),
      i <> j ->
      nth_error results i = Some (Rec d1) ->
      nth_error results j = Some (Rec d2) ->
      item_title d1 <> ""%string ->
      item_title d2 <> ""%string ->
      normalize_title (item_title d1) = normalize_title (item_title d2) ->
      canonical_author_key (item_author d1)
      = canonical_author_key (item_author d2) ->
      exists g,
        In g (merge_duplicates results) /\
        group_key g = (normalize_title (item_title d1),
                       canonical_author_key (item_author d1)) /\
        In (Rec d1) (records_with_key (group_key g) results) /\
        In (Rec d2) (records_with_key (group_key g) results) /\
        copies g = List.length (records_with_key (group_key g) results) /\
        2 <= copies g /\
        (forall g', In g' (merge_duplicates results) ->
                    group_key g' = group_key g -> g' = g)).
Proof.
  split.
  - eexists. split; vm_compute; reflexivity.
  - intros results i j d1 d2 Hij Hi Hj Ht1 Ht2 Etitle Eauthor.
    destruct (merge_duplicates_spec results) as [Hnd [Hcopies Hcovers]].
    pose proof (record_key_titled d1 Ht1) as Hk1.
    pose proof (record_key_titled d2 Ht2) as Hk2.
    rewrite <- Etitle, <- Eauthor in Hk2.
    destruct (Hcovers (Rec d1) _ (nth_error_In _ _ Hi) Hk1) as [g [Hg Hkey]].
    exists g.
    assert (forall d, record_key (Rec d) = Some (group_key g) ->
                      (fun it => match record_key it with
                                 | Some k => key_eqb (group_key g) k
                                 | None => false
                                 end) (Rec d) = true) as Hsel.
    { intros d Hd. cbv beta. rewrite Hd. apply key_eqb_refl. }
    rewrite <- Hkey in Hk1, Hk2.
    repeat split.
    + exact Hg.
    + exact Hkey.
    + apply filter_In. split; [eapply nth_error_In; eauto | now apply Hsel].
    + apply filter_In. split; [eapply nth_error_In; eauto | now apply Hsel].
    + now apply Hcopies.
    + rewrite (Hcopies g Hg).
      apply (filter_two_positions _ results i j (Rec d1) (Rec d2));
        auto.
    + intros g' Hg' E.
      exact (NoDup_map_injective group_key _ g' g Hnd Hg' Hg E).
Qed.

Lemma merge_duplicates_same_book_witness :
  exists g,
    In g (merge_duplicates
            [book "Dune" "Frank Herbert"; book "Emma" "Jane Austen";
             book "dune!" "Herbert, F."]) /\
    group_key g = ("dune", "herbert|f")%string /\
    2 <= copies g.
Proof.
  destruct (proj2 merge_duplicates_same_book
              [book "Dune" "Frank Herbert"; book "Emma" "Jane Austen";
               book "dune!" "Herbert, F."]
              0 2
              (<["title"%string := VStr "Dune"]>
                 (<["author"%string := VStr "Frank Herbert"]> ∅))
              (<["title"%string := VStr "dune!"]>
                 (<["author"%string := VStr "Herbert, F."]> ∅)))
    as [g [Hg [Hkey [_ [_ [_ [Hcopies _]]]]]]].
  - lia.
  - reflexivity.
  - reflexivity.
  - vm_compute. discriminate.
  - vm_compute. discriminate.
  - vm_compute. reflexivity.
  - vm_compute. reflexivity.
  - exists g. split; [exact Hg |]. split; [| exact Hcopies].
    rewrite Hkey. vm_compute. reflexivity.
Defined.

(** Records with a title whose canonical author keys differ are counted in
    different groups. *)
Lemma merge_duplicates_separates (results : list item) (d1 d2 : gmap string pyval) :
  In (Rec d1) results -> In (Rec d2) results ->
  item_title d1 <> ""%string -> item_title d2 <> ""%string ->
  canonical_author_key (item_author d1) <> canonical_author_key (item_author d2) ->
  exists g1 g2,
    In g1 (merge_duplicates results) /\ In g2 (merge_duplicates results) /\
    record_key (Rec d1) = Some (group_key g1) /\
    record_key (Rec d2) = Some (group_key g2) /\
    g1 <> g2.
Proof.
  intros H1 H2 Ht1 Ht2 Hne.
  destruct (merge_duplicates_spec results) as [_ [_ Hcovers]].
  destruct (Hcovers _ _ H1 (record_key_titled d1 Ht1)) as [g1 [Hg1 Hk1]].
  destruct (Hcovers _ _ H2 (record_key_titled d2 Ht2)) as [g2 [Hg2 Hk2]].
  exists g1, g2. repeat split; auto.
  - rewrite Hk1. now apply record_key_titled.
  - rewrite Hk2. now apply record_key_titled.
  - intros ->. rewrite Hk1 in Hk2. injection Hk2 as _ E. exact (Hne E).
Qed.

(** C5, the example: the same title under two authors gives two groups. *)
Lemma merge_duplicates_two_authors :
  map group_key (merge_duplicates [book "Foo" "J. Smith"; book "Foo" "K. Jones"])
  = [("foo", "smith|j"); ("foo", "jones|k")]%string.
Proof. vm_compute. reflexivity. Qed.

(** C5, where the code departs from it: an author whose first part, before
    a separator, is empty has the empty canonical key, so that the record
    is merged with a record of the same title that has no author. *)
Theorem merge_duplicates_blank_primary_author :
  item_author (<["title"%string := VStr "Foo"]>
                 (<["author"%string := VStr "; J. Smith"]> ∅)) <> ""%string /\
  canonical_author_key "; J. Smith" = ""%string /\
  exists g,
    merge_duplicates [book "Foo" ""; book "Foo" "; J. Smith"] = [g] /\
    Author g = ""%string /\ copies g = 2.
Proof.
  split; [vm_compute; discriminate |]. split; [vm_compute; reflexivity |].
  eexists. repeat split; vm_compute; reflexivity.
Qed.

(** The copies of all groups add up to the number of records for which the
    loop reaches the count. *)
Lemma merge_duplicates_copies_sum (results : list item) :
  total_copies (merge_duplicates results)
  = List.length (List.filter is_counted results).
Proof.
  rewrite merge_duplicates_groups. unfold total_copies, merge_groups.
  rewrite map_map.
  rewrite (map_ext (fun kg => copies (finalize (snd kg)))
                   (fun kg => copies (fst (snd kg)))) by reflexivity.
  now rewrite fold_merge_total.
Qed.

(** The decimal text of a number starts with a digit or a minus sign. *)
Lemma pretty_N_go_head (x : N) (s : string) :
  (0 < x)%N ->
  exists c rest, pretty_N_go x s = String c rest /\ PyStr.isspace c = false.
Proof.
  revert s. induction (N.lt_wf_0 x) as [x _ IH]. intros s Hx.
  rewrite pretty_N_go_step by exact Hx.
  destruct (N.eq_dec (x `div` 10)%N 0%N) as [E | E].
  - rewrite E, pretty_N_go_0. eexists _, _. split; [reflexivity |].
    unfold pretty_N_char. repeat case_match; reflexivity.
  - apply IH; [apply N.div_lt; [exact Hx | reflexivity] |].
    now apply N.neq_0_lt_0.
Qed.

Lemma pretty_Z_head (z : Z) :
  exists c rest, pretty z = String c rest /\ PyStr.isspace c = false.
Proof.
  destruct z as [| x | x].
  - now exists "0"%char, ""%string.
  - destruct (pretty_N_go_head (N.pos x) "") as [c [rest [E Hc]]]; [lia |].
    exists c, rest. split; [| exact Hc]. exact E.
  - now exists "-"%char, (pretty x).
Qed.

Lemma strip_not_blank (s : string) (c : ascii) (rest : string) :
  s = String c rest -> PyStr.isspace c = false ->
  PyStr.is_empty (PyStr.strip s) = false.
Proof.
  intros -> Hc. unfold PyStr.strip, PyStr.strip_l.
  change (PyStr.chars (String c rest)) with (c :: PyStr.chars rest).
  cbn [PyStr.lstrip_l]. rewrite Hc.
  destruct (PyStr.rstrip_l (c :: PyStr.chars rest)) as [| y l] eqn:E;
    [| reflexivity].
  exfalso. unfold PyStr.rstrip_l in E.
  apply (f_equal (@rev ascii)) in E. rewrite rev_involutive in E.
  cbn [rev] in E.
  assert (forall l, PyStr.lstrip_l l = [] ->
                    forall x, In x l -> PyStr.isspace x = true) as Hall.
  { intros l. induction l as [| x l IHl]; [intros _ ? [] |].
    cbn [PyStr.lstrip_l]. destruct (PyStr.isspace x) eqn:Ex; [| discriminate].
    intros Hl y [<- | Hy]; [exact Ex | now apply IHl]. }
  specialize (Hall _ E c). rewrite Hc in Hall. discriminate Hall.
  apply in_or_app. right. now left.
Qed.

(** The records that the code counts are the records with a title and the
    records whose title is [None]. *)
Lemma is_counted_cases (it : item) :
  is_counted it = has_title it || title_is_none it.
Proof.
  destruct it as [d |]; [| reflexivity].
  unfold is_counted, record_key, has_title, title_is_none, item_title.
  destruct (get2 d "Title" "title") as [s | | z]; cbn [py_str].
  - destruct (PyStr.is_empty (PyStr.strip s)); reflexivity.
  - reflexivity.
  - destruct (pretty_Z_head z) as [c [rest [E Hc]]].
    now rewrite (strip_not_blank _ c rest E Hc).
Qed.

Lemma filter_orb_length {A} (f g : A -> bool) (l : list A) :
  (forall x, f x = true -> g x = false) ->
  List.length (List.filter (fun x => f x || g x) l)
  = List.length (List.filter f l) + List.length (List.filter g l).
Proof.
  intros Hfg. induction l as [| x l IH]; [reflexivity |].
  cbn [List.filter]. destruct (f x) eqn:Ef.
  - rewrite (Hfg x Ef). cbn. now rewrite IH.
  - destruct (g x); cbn; rewrite IH; lia.
Qed.

(** C9, where the code departs from it.  A record whose title is [None] has
    no title, and yet it is counted, under the title "None": the copies of
    all groups add up to the number of records with a title plus the number
    of records whose title is [None].  The other elements of the list,
    records with a blank title and elements that are no dicts, add
    nothing. *)
Theorem merge_duplicates_counts_none_title :
  (forall results,
      total_copies (merge_duplicates results)
      = List.length (List.filter has_title results)
        + List.length (List.filter title_is_none results)) /\
  has_title null_title_record = false /\
  exists g,
    merge_duplicates [null_title_record] = [g] /\
    Title g = "None"%string /\ copies g = 1 /\
    total_copies (merge_duplicates [null_title_record]) = 1.
Proof.
  split; [| split].
  - intros results. rewrite merge_duplicates_copies_sum.
    rewrite (filter_ext is_counted (fun it => has_title it || title_is_none it))
      by exact is_counted_cases.
    apply filter_orb_length.
    intros [d |]; [| discriminate]. unfold has_title, title_is_none.
    now destruct (get2 d "Title" "title").
  - reflexivity.
  - eexists. repeat split; vm_compute; reflexivity.
Qed.

(** ** Catalogue search *)

(** A pattern without [%] and [_], between two [%], is looked for as a
    substring. *)
Definition no_wildcard (l : list ascii) : Prop :=
  forall c, In c l -> c <> "%"%char /\ c <> "_"%char.

Lemma like_match_any (t : list ascii) : like_match ["%"%char] t = true.
Proof.
  cbn [like_match]. rewrite Ascii.eqb_refl.
  induction t as [| d t IH]; [reflexivity | exact IH].
Qed.

Lemma like_match_prefix (p t : list ascii) :
  no_wildcard p ->
  like_match (p ++ ["%"%char]) t = PyStr.starts_with p t.
Proof.
  revert t. induction p as [| c p IH]; intros t Hp.
  - cbn [app PyStr.starts_with]. apply like_match_any.
  - destruct (Hp c (or_introl eq_refl)) as [Hpc Hus].
    cbn [app like_match PyStr.starts_with].
    rewrite (proj2 (Ascii.eqb_neq _ _) Hpc), (proj2 (Ascii.eqb_neq _ _) Hus).
    destruct t as [| d t]; [reflexivity |].
    rewrite IH by (intros x Hx; apply Hp; now right). reflexivity.
Qed.

Lemma like_match_substring (p t : list ascii) :
  no_wildcard p ->
  like_match ("%"%char :: p ++ ["%"%char]) t = PyStr.contains_l p t.
Proof.
  intros Hp. cbn [like_match]. rewrite Ascii.eqb_refl.
  induction t as [| d t IH].
  - rewrite like_match_prefix by exact Hp. simpl. now rewrite orb_false_r.
  - rewrite like_match_prefix by exact Hp.
    cbn [PyStr.contains_l]. now rewrite <- IH.
Qed.

Lemma chars_append (a b : string) :
  PyStr.chars (a +:+ b) = PyStr.chars a ++ PyStr.chars b.
Proof.
  unfold PyStr.chars. induction a as [| c a IH]; simpl; [reflexivity |].
  now rewrite <- IH.
Qed.

(** For a variation without wildcard characters, the fuzzy match of a
    column is the search of the lower-cased variation in the lower-cased
    column. *)
Lemma sql_like_substring (s q_var : string) :
  no_wildcard (PyStr.chars (PyStr.lower q_var)) ->
  sql_like (Some s) (fuzzy_of q_var)
  = PyStr.contains (PyStr.lower q_var) (PyStr.lower s).
Proof.
  intros Hq. unfold sql_like, fuzzy_of, PyStr.contains.
  replace (PyStr.chars (PyStr.lower ("%" +:+ q_var +:+ "%")))
    with ("%"%char :: PyStr.chars (PyStr.lower q_var) ++ ["%"%char]).
  - now apply like_match_substring.
  - unfold PyStr.lower, PyStr.lower_l. rewrite !chars_of_chars, !chars_append.
    rewrite !map_app. reflexivity.
Qed.

Lemma StronglySorted_weaken {A} (R R' : A -> A -> Prop) (l : list A) :
  (forall x y, R x y -> R' x y) -> StronglySorted R l -> StronglySorted R' l.
Proof.
  intros HR. induction 1 as [| x l Hs IH Hx]; constructor; [exact IH |].
  eapply List.Forall_impl; [| exact Hx]. intros y. apply HR.
Qed.

Lemma firstn_incl {A} (n : nat) (l : list A) (x : A) :
  In x (firstn n l) -> In x l.
Proof.
  intros Hx. rewrite <- (firstn_skipn n l). apply in_or_app. now left.
Qed.

Lemma StronglySorted_firstn {A} (R : A -> A -> Prop) (n : nat) (l : list A) :
  StronglySorted R l -> StronglySorted R (firstn n l).
Proof.
  intros Hs. revert n. induction Hs as [| x l Hs IH Hx]; intros [| n]; simpl;
    try constructor; [apply IH |].
  apply List.Forall_forall. intros y Hy.
  rewrite List.Forall_forall in Hx. eapply Hx, firstn_incl, Hy.
Qed.

Lemma sort_by_descending (l : list result) :
  descending (sort_by (fun x => (- relevance_of x)%Z) l).
Proof.
  eapply StronglySorted_weaken; [| apply sort_by_sorted].
  unfold key_le. intros x y Hxy. lia.
Qed.

(** Sorting with the stable sort is one way to order by score; it stands
    for the engine where a concrete one is needed, with the variations of
    a query that has no prefix, no author pattern and no stop word. *)
#[export] Instance plain_query_env : CatalogueEnv := {|
  expand_book_query := fun query => [query];
  order_by_desc := sort_by (fun x => (- relevance_of x)%Z);
  order_by_desc_perm := sort_by_perm (fun x => (- relevance_of x)%Z);
  order_by_desc_sorted := sort_by_descending
|}.

Lemma relevance_score_kind (q_var : string) (row : Row) :
  relevance_score q_var row = kind_score (first_kind case_order q_var row).
Proof.
  unfold relevance_score, case_order. simpl.
  destruct (sql_eq (r_title row) q_var); [reflexivity |].
  destruct (sql_like (r_title row) (fuzzy_of q_var)); [reflexivity |].
  destruct (sql_like (r_author row) (fuzzy_of q_var)); [reflexivity |].
  destruct (sql_eq (r_isbn row) q_var); [reflexivity |].
  destruct (sql_like (r_itemcallnumber row) (fuzzy_of q_var)); reflexivity.
Qed.

Lemma collect_rows_from (P : result -> Prop) (limit : Z) (rows : list result) :
  forall seen_ids all_results,
    (forall x, In x all_results -> P x) ->
    (forall x, In x rows -> P x) ->
    forall x, In x (snd (collect_rows limit rows seen_ids all_results)) -> P x.
Proof.
  induction rows as [| r rows IH]; intros seen_ids all_results Hall Hrows;
    simpl; [exact Hall |].
  destruct (PyStr.mem (result_id r) seen_ids).
  - destruct (limit <=? _)%Z; [exact Hall |].
    apply IH; [exact Hall | intros; apply Hrows; now right].
  - assert (forall x, In x (all_results ++ [r]) -> P x) as Hall'.
    { intros x Hx. apply in_app_or in Hx as [Hx | [<- | []]];
        [now apply Hall | apply Hrows; now left]. }
    destruct (limit <=? _)%Z; [exact Hall' |].
    apply IH; [exact Hall' | intros; apply Hrows; now right].
Qed.

Section SearchFacts.

Context `{CatalogueEnv}.

Lemma run_query_In (table : list Row) (q_var : string) (limit : Z) (x : result) :
  In x (run_query table q_var limit) ->
  In (fst x) table /\ where_clause q_var (fst x) = true /\
  relevance_of x = relevance_score q_var (fst x).
Proof.
  unfold run_query, sql_limit. intros Hx.
  assert (In x (map (fun row => (row, relevance_score q_var row))
                  (List.filter (where_clause q_var) table))) as Hin.
  { apply (Permutation_in _ (order_by_desc_perm _)).
    destruct (limit * 2 <? 0)%Z; [exact Hx | eapply firstn_incl, Hx]. }
  apply in_map_iff in Hin as [row [<- Hrow]].
  apply filter_In in Hrow as [Hrow Hwhere]. now repeat split.
Qed.

Lemma collect_variations_from (P : result -> Prop) (table : list Row)
    (limit : Z) (query_variations : list string) :
  forall seen_ids all_results,
    (forall x, In x all_results -> P x) ->
    (forall q_var x, In q_var query_variations ->
                     In x (run_query table q_var limit) -> P x) ->
    forall x,
      In x (collect_variations table limit query_variations seen_ids all_results) ->
      P x.
Proof.
  induction query_variations as [| q_var rest IH];
    intros seen_ids all_results Hall Hq; simpl; [exact Hall |].
  pose proof (collect_rows_from P limit (run_query table q_var limit)
                seen_ids all_results Hall
                (fun x Hx => Hq q_var x (or_introl eq_refl) Hx)) as Hstep.
  destruct (collect_rows limit (run_query table q_var limit) seen_ids all_results)
    as [seen_ids' all_results'].
  simpl in Hstep.
  destruct (limit <=? _)%Z; [exact Hstep |].
  apply IH; [exact Hstep |]. intros q x Hq' Hx. apply (Hq q x); [now right | exact Hx].
Qed.

End SearchFacts.

(** C3, as the code has it.  Every record found comes from a row that a
    variation of the query selects, and carries the score of its kind of
    match for that variation, the kind being the first that applies in the
    order of the [CASE]: exact title, fuzzy title, fuzzy author, exact ISBN,
    fuzzy call number, other.  The records are in descending order of score
    and there are at most [limit] of them. *)
Theorem search_catalogue_scores `{CatalogueEnv}
    (catalogue : option (list Row)) (query : string) (limit : Z) :
  (0 <= limit)%Z ->
  let found := search_catalogue catalogue query limit in
  (forall x, In x found ->
     exists table q_var,
       catalogue = Some table /\ In (fst x) table /\
       In q_var (expand_book_query query) /\
       where_clause q_var (fst x) = true /\
       relevance_of x = relevance_score q_var (fst x) /\
       relevance_of x = kind_score (first_kind case_order q_var (fst x))) /\
  descending found /\
  List.length found <= Z.to_nat limit.
Proof.
  intros Hlimit found. subst found. unfold search_catalogue.
  destruct catalogue as [table |].
  2:{ split; [intros x [] | split; [constructor | simpl; lia]]. }
  cbv zeta. unfold py_slice_to. rewrite (proj2 (Z.ltb_ge _ _) Hlimit).
  split; [| split].
  - intros x Hx. apply firstn_incl in Hx.
    apply (Permutation_in _ (sort_by_perm _ _)) in Hx.
    revert x Hx.
    apply (collect_variations_from
             (fun x => exists table0 q_var,
                  Some table = Some table0 /\ In (fst x) table0 /\
                  In q_var (expand_book_query query) /\
                  where_clause q_var (fst x) = true /\
                  relevance_of x = relevance_score q_var (fst x) /\
                  relevance_of x
                  = kind_score (first_kind case_order q_var (fst x)))
             table limit (expand_book_query query) [] []).
    + intros x [].
    + intros q_var x Hq Hx.
      apply run_query_In in Hx as [Hrow [Hwhere Hscore]].
      exists table, q_var. repeat split; auto.
      rewrite Hscore. apply relevance_score_kind.
  - apply StronglySorted_firstn, sort_by_descending.
  - rewrite length_firstn. lia.
Qed.

Lemma search_catalogue_scores_witness :
  let found := search_catalogue (Some [companion_row]) "smith" 10 in
  descending found /\ List.length found <= 10.
Proof.
  exact (proj2 (search_catalogue_scores (Some [companion_row]) "smith" 10
                  ltac:(lia))).
Defined.

(** C3, as the specification states it, fails: a row whose ISBN is the
    query, and whose title contains the query without being it, is scored
    80 as a fuzzy title match, not 90 as an exact ISBN match. *)
Lemma search_catalogue_isbn_scored_80 :
  search_catalogue (Some [companion_row]) "1984" 10 = [(companion_row, 80%Z)] /\
  matches ExactTitle "1984" companion_row = false /\
  matches ExactIsbn "1984" companion_row = true /\
  kind_score (first_kind listed_order "1984" companion_row) = 90%Z.
Proof. vm_compute. repeat split; reflexivity. Qed.

(** * Further properties of the code *)

(** ** Classification cache: lookups *)

Section CacheLookupFacts.

Context {V : Type}.
Implicit Types (d : list (string * V)) (k : string) (v : V).

Lemma dict_get_set_same k v d : dict_get k (dict_set k v d) = Some v.
Proof.
  induction d as [| [k' v'] d IH]; simpl.
  - now rewrite String.eqb_refl.
  - destruct (String.eqb k' k) eqn:E; simpl; rewrite E; [reflexivity | exact IH].
Qed.

Lemma dict_get_In k v d : dict_get k d = Some v -> In (k, v) d.
Proof.
  induction d as [| [k' v'] d IH]; simpl; [discriminate |].
  destruct (String.eqb_spec k' k) as [-> | Hne].
  - intros [= ->]. now left.
  - intros Hg. right. now apply IH.
Qed.

Lemma dict_get_absent k d : ~ In k (map fst d) -> dict_get k d = None.
Proof.
  induction d as [| [k' v'] d IH]; simpl; intros Hk; [reflexivity |].
  destruct (String.eqb_spec k' k) as [-> | Hne]; [tauto |].
  apply IH. tauto.
Qed.

(** Looking up [k] after removing the keys [ks]. *)
Lemma dict_get_filter_keys k (ks : list string) d :
  dict_get k (List.filter (fun e => negb (PyStr.mem (fst e) ks)) d)
  = if PyStr.mem k ks then None else dict_get k d.
Proof.
  induction d as [| [k' v'] d IH]; simpl.
  - now destruct (PyStr.mem k ks).
  - destruct (PyStr.mem k' ks) eqn:Em; simpl.
    + rewrite IH. destruct (String.eqb_spec k' k) as [-> | Hne];
        [now rewrite Em | reflexivity].
    + rewrite IH. destruct (String.eqb_spec k' k) as [-> | Hne];
        [now rewrite Em | reflexivity].
Qed.

Lemma dict_del_get_same k d : dict_get k (dict_del k d) = None.
Proof.
  unfold dict_del. induction d as [| [k' v'] d IH]; simpl; [reflexivity |].
  destruct (String.eqb k' k) eqn:E; simpl; [exact IH | now rewrite E].
Qed.

Lemma dict_del_get_other k k0 d :
  k0 <> k -> dict_get k0 (dict_del k d) = dict_get k0 d.
Proof.
  intros Hne. unfold dict_del.
  induction d as [| [k' v'] d IH]; simpl; [reflexivity |].
  destruct (String.eqb_spec k' k) as [-> | Hk]; simpl.
  - rewrite IH. now rewrite (proj2 (String.eqb_neq _ _)) by congruence.
  - now rewrite IH.
Qed.

Lemma dict_del_keys_NoDup k d :
  List.NoDup (map fst d) -> List.NoDup (map fst (dict_del k d)).
Proof.
  unfold dict_del. induction d as [| [k' v'] d IH]; simpl; intros Hnd;
    [constructor |].
  inversion Hnd as [| ? ? Hnotin Hnd']; subst.
  destruct (negb (String.eqb k' k)); simpl; [| now apply IH].
  constructor; [| now apply IH].
  intros Hin. apply Hnotin. apply in_map_iff in Hin as [e [E He]].
  apply filter_In in He as [He _]. apply in_map_iff. now exists e.
Qed.

Lemma dict_del_length_present k v d :
  List.NoDup (map fst d) -> dict_get k d = Some v ->
  S (List.length (dict_del k d)) = List.length d.
Proof.
  unfold dict_del. induction d as [| [k' v'] d IH]; simpl; intros Hnd Hg;
    [discriminate |].
  inversion Hnd as [| ? ? Hnotin Hnd']; subst.
  destruct (String.eqb_spec k' k) as [-> | Hne]; simpl.
  - f_equal. clear IH Hg Hnd Hnd'.
    induction d as [| [k2 v2] d IHd]; simpl; [reflexivity |].
    simpl in Hnotin.
    rewrite (proj2 (String.eqb_neq k2 k)) by (intros ->; tauto).
    simpl. f_equal. apply IHd. tauto.
  - f_equal. now apply IH.
Qed.

Lemma fold_dict_del_NoDup (victims d : list (string * V)) :
  List.NoDup (map fst d) ->
  List.NoDup (map fst (fold_left (fun c e => dict_del (fst e) c) victims d)).
Proof.
  revert d. induction victims as [| x victims IH]; intros d Hnd; simpl;
    [exact Hnd |].
  now apply IH, dict_del_keys_NoDup.
Qed.

End CacheLookupFacts.

(** An element that is not below any other goes last in the stable sort. *)
Lemma insert_le_last {A} (le : A -> A -> bool) (y x : A) (s : list A) :
  le y x = true -> insert_le le y (s ++ [x]) = insert_le le y s ++ [x].
Proof.
  intros Hyx. induction s as [| z s IH]; simpl.
  - now rewrite Hyx.
  - destruct (le y z); [reflexivity |]. now rewrite IH.
Qed.

Lemma sort_le_last {A} (le : A -> A -> bool) (x : A) (l : list A) :
  (forall y, In y l -> le y x = true) ->
  sort_le le (l ++ [x]) = sort_le le l ++ [x].
Proof.
  induction l as [| y l IH]; intros Hl; simpl; [reflexivity |].
  rewrite IH by (intros; apply Hl; now right).
  apply insert_le_last. apply Hl. now left.
Qed.

(** The entry that [cache_classification] writes is found afterwards, when
    the cache was within its limit and held nothing younger. *)
Lemma cache_classification_get now query cls (cache : list cache_entry) :
  List.NoDup (map fst cache) ->
  List.length cache <= 500 ->
  (forall e, In e cache -> (entry_time e <= now)%Z) ->
  dict_get (query_key query) (cache_classification now query cls cache)
  = Some (cls, now).
Proof.
  intros Hnd Hlen Hold. unfold cache_classification. cbv zeta.
  destruct (500 <? _) eqn:Eover; [| apply dict_get_set_same].
  apply Nat.ltb_lt in Eover.
  assert (~ In (query_key query) (map fst cache)) as Hfresh.
  { intros Hin.
    pose proof (f_equal (@List.length _)
                  (dict_set_keys_present (query_key query) (cls, now) cache Hin))
      as E.
    rewrite !length_map in E. lia. }
  rewrite dict_set_fresh in * by exact Hfresh.
  rewrite fold_dict_del, dict_get_filter_keys.
  unfold sort_by. rewrite sort_le_last.
  2:{ intros y Hy. apply Z.leb_le. apply (Hold y Hy). }
  assert (100 <= List.length (sort_le
            (fun x y : cache_entry => (entry_time x <=? entry_time y)%Z) cache))
    as Hbig.
  { rewrite (Permutation_length (sort_le_perm _ cache)).
    rewrite length_app in Eover. simpl in Eover. lia. }
  rewrite firstn_app.
  replace (100 - _) with 0 by lia. rewrite firstn_O, app_nil_r.
  destruct (PyStr.mem (query_key query) _) eqn:Em.
  - exfalso. apply mem_In in Em. apply Hfresh.
    apply in_map_iff in Em as [e [E He]]. apply in_map_iff. exists e.
    split; [exact E |].
    eapply Permutation_in; [apply sort_le_perm | eapply firstn_incl, He].
  - rewrite <- (dict_set_fresh (query_key query) (cls, now) cache Hfresh).
    apply dict_get_set_same.
Qed.

(** X1.  A classification that has just been cached is what the next
    lookup of a query with the same normalized key returns, as long as less
    than the time to live has passed; the lookup leaves the cache as it
    is. *)
Theorem cache_then_lookup (now later : Z) (query query' cls : string)
    (cache : list cache_entry) :
  List.NoDup (map fst cache) ->
  List.length cache <= 500 ->
  (forall e, In e cache -> (entry_time e <= now)%Z) ->
  query_key query' = query_key query ->
  (later - now < CLASSIFICATION_CACHE_TTL)%Z ->
  get_cached_classification later query'
    (cache_classification now query cls cache)
  = (Some cls, cache_classification now query cls cache).
Proof.
  intros Hnd Hlen Hold Hkey Hfresh.
  unfold get_cached_classification. cbv zeta. rewrite Hkey.
  rewrite cache_classification_get by assumption.
  now rewrite (proj2 (Z.ltb_lt _ _) Hfresh).
Qed.

Lemma cache_then_lookup_witness :
  get_cached_classification 7000 "  Library HOURS"
    (cache_classification 10 "library hours " "general"
       [("opac"%string, ("general"%string, 3%Z))])
  = (Some "general"%string,
     cache_classification 10 "library hours " "general"
       [("opac"%string, ("general"%string, 3%Z))]).
Proof.
  apply cache_then_lookup.
  - apply NoDup_ListNoDup, (bool_decide_unpack _). vm_compute. exact I.
  - simpl. lia.
  - intros e [<- | []]. vm_compute. discriminate.
  - vm_compute. reflexivity.
  - vm_compute. reflexivity.
Defined.

(** X2.  Both cache operations keep the keys of the cache pairwise
    different, and a cache of at most 500 entries stays within 500
    entries. *)
Theorem cache_invariant (now : Z) (query cls : string)
    (cache : list cache_entry) :
  List.NoDup (map fst cache) ->
  List.length cache <= 500 ->
  (List.NoDup (map fst (cache_classification now query cls cache)) /\
   List.length (cache_classification now query cls cache) <= 500) /\
  (List.NoDup (map fst (snd (get_cached_classification now query cache))) /\
   List.length (snd (get_cached_classification now query cache))
   <= List.length cache).
Proof.
  intros Hnd Hlen. split.
  - split.
    + unfold cache_classification. cbv zeta.
      destruct (500 <? _); [| now apply dict_set_NoDup].
      now apply fold_dict_del_NoDup, dict_set_NoDup.
    + destruct (Nat.ltb_spec 500
                  (List.length (dict_set (query_key query) (cls, now) cache)))
        as [Hover | Hfit].
      * destruct (cache_classification_overflow now query cls cache Hnd Hover)
          as [evicted [He [Hperm _]]].
        apply Permutation_length in Hperm. rewrite length_app in Hperm.
        assert (List.length (dict_set (query_key query) (cls, now) cache)
                <= 501); [| lia].
        destruct (in_dec string_dec (query_key query) (map fst cache))
          as [Hin | Hout].
        -- rewrite <- (length_map fst), dict_set_keys_present, length_map
             by exact Hin. lia.
        -- rewrite dict_set_fresh by exact Hout. rewrite length_app. simpl. lia.
      * unfold cache_classification. cbv zeta.
        now rewrite (proj2 (Nat.ltb_ge _ _) Hfit).
  - unfold get_cached_classification. cbv zeta.
    destruct (dict_get (query_key query) cache) as [[c ts] |] eqn:Eg;
      [| split; [exact Hnd | simpl; lia]].
    destruct (now - ts <? CLASSIFICATION_CACHE_TTL)%Z;
      [split; [exact Hnd | simpl; lia] |].
    cbn [snd]. split; [now apply dict_del_keys_NoDup |].
    pose proof (dict_del_length_present _ _ _ Hnd Eg). lia.
Qed.

Lemma cache_invariant_witness :
  List.length (cache_classification 600 "one more" "book"
                 (cache_all (numbered_requests 3) [])) <= 500.
Proof.
  refine (proj2 (proj1 (cache_invariant 600 "one more" "book"
                          (cache_all (numbered_requests 3) []) _ _))).
  - apply NoDup_ListNoDup, (bool_decide_unpack _). vm_compute. exact I.
  - vm_compute. lia.
Defined.

(** X3.  A lookup that finds the entry of its key as old as the time to
    live, or older, answers [None] and deletes that entry and no other: the
    key is gone, the other keys are found as before, and the cache is one
    entry shorter.  A lookup of a key that is not cached changes nothing. *)
Theorem get_cached_classification_expired (now : Z) (query : string)
    (cache : list cache_entry) :
  List.NoDup (map fst cache) ->
  (forall cls ts,
      dict_get (query_key query) cache = Some (cls, ts) ->
      (CLASSIFICATION_CACHE_TTL <= now - ts)%Z ->
      let after := snd (get_cached_classification now query cache) in
      fst (get_cached_classification now query cache) = None /\
      dict_get (query_key query) after = None /\
      (forall k, k <> query_key query -> dict_get k after = dict_get k cache) /\
      S (List.length after) = List.length cache) /\
  (dict_get (query_key query) cache = None ->
   get_cached_classification now query cache = (None, cache)).
Proof.
  intros Hnd. split.
  - intros cls ts Hg Hold after. subst after.
    unfold get_cached_classification. cbv zeta. rewrite Hg.
    rewrite (proj2 (Z.ltb_ge _ _) Hold). cbn [fst snd].
    split; [reflexivity |]. split; [apply dict_del_get_same |].
    split; [intros k Hk; now apply dict_del_get_other |].
    now apply dict_del_length_present with (v := (cls, ts)).
  - intros Hg. unfold get_cached_classification. cbv zeta. now rewrite Hg.
Qed.

Lemma get_cached_classification_expired_witness :
  get_cached_classification 7203 "OPAC"
    [("wifi"%string, ("general"%string, 1%Z));
     ("opac"%string, ("general"%string, 3%Z))]
  = (None, [("wifi"%string, ("general"%string, 1%Z))]).
Proof.
  pose proof (proj1 (get_cached_classification_expired 7203 "OPAC"
                [("wifi"%string, ("general"%string, 1%Z));
                 ("opac"%string, ("general"%string, 3%Z))]
                ltac:(apply NoDup_ListNoDup, (bool_decide_unpack _);
                      vm_compute; exact I))
              "general"%string 3%Z eq_refl ltac:(vm_compute; discriminate))
    as [Hnone _].
  vm_compute in Hnone |- *. reflexivity.
Defined.

(** ** Rate limiting: several clients, bounded windows *)

(** X4.  A request changes the window of its own client only: the
    timestamps kept for every other client stay as they are, whether the
    request is served or denied. *)
Theorem rate_limit_other_clients {St R : Type} (n window : Z)
    (func : call -> St -> St * R) (c : call) (now : Z)
    (rl : limiter) (s : St) (other : string) :
  other <> kwargs_client_ip c ->
  fst (fst (rate_limit n window func now c (rl, s))) !! other = rl !! other.
Proof.
  intros Hne. rewrite rate_limit_unfold. cbv zeta.
  destruct (n <=? _)%Z; cbn [fst]; now rewrite lookup_insert_ne.
Qed.

Lemma rate_limit_other_clients_witness :
  fst (fst (rate_limit 20 60 counting_handler 5
              (keyword_call "library timings" "10.0.0.2")
              (busy_limiter "10.0.0.1", 0)))
    !! "10.0.0.1"%string
  = busy_limiter "10.0.0.1" !! "10.0.0.1"%string.
Proof.
  apply rate_limit_other_clients. vm_compute. discriminate.
Defined.

Lemma rate_limit_keeps_bound {St R : Type} (n window : Z)
    (func : call -> St -> St * R) (c : call) (now : Z)
    (rl : limiter) (s : St) :
  (0 <= n)%Z ->
  (Z.of_nat (List.length (window_of (kwargs_client_ip c) rl)) <= n)%Z ->
  (Z.of_nat (List.length
     (window_of (kwargs_client_ip c)
        (fst (fst (rate_limit n window func now c (rl, s)))))) <= n)%Z.
Proof.
  intros Hn Hlen. rewrite rate_limit_unfold. cbv zeta.
  pose proof (filter_length_le (fun ts => (now - ts <? window)%Z)
                (window_of (kwargs_client_ip c) rl)) as Hlive.
  fold (live_timestamps window now (window_of (kwargs_client_ip c) rl)) in Hlive.
  destruct (Z.leb_spec n
              (Z.of_nat (List.length (live_timestamps window now
                 (window_of (kwargs_client_ip c) rl))))) as [Hfull | Hroom];
    cbn [fst]; rewrite window_of_insert.
  - lia.
  - rewrite length_app. simpl. lia.
Qed.

(** X5.  With a maximum [n >= 0], a window that holds at most [n]
    timestamps never grows beyond [n], however many requests the client
    sends and whenever it sends them. *)
Theorem rate_limit_window_bounded {St R : Type} (n window : Z)
    (func : call -> St -> St * R) (c : call) (times : list Z) :
  (0 <= n)%Z ->
  forall (rl : limiter) (s : St),
    (Z.of_nat (List.length (window_of (kwargs_client_ip c) rl)) <= n)%Z ->
    (Z.of_nat (List.length
       (window_of (kwargs_client_ip c)
          (fst (fst (serve n window func times c (rl, s)))))) <= n)%Z.
Proof.
  intros Hn. induction times as [| t times IH]; intros rl s Hlen; simpl;
    [exact Hlen |].
  pose proof (rate_limit_keeps_bound n window func c t rl s Hn Hlen) as Hstep.
  destruct (rate_limit n window func t c (rl, s)) as [[rl1 s1] out].
  cbn [fst] in Hstep. specialize (IH rl1 s1 Hstep).
  destruct (serve n window func times c (rl1, s1)) as [st2 outs].
  exact IH.
Qed.

Lemma rate_limit_window_bounded_witness :
  (Z.of_nat (List.length
     (window_of "10.0.0.1"
        (fst (fst (serve 2 60 counting_handler [0; 1; 2; 70; 71; 72]%Z
                     (keyword_call "library timings" "10.0.0.1")
                     (∅, 0%nat))))))
   <= 2)%Z.
Proof.
  apply (rate_limit_window_bounded 2 60 counting_handler
           (keyword_call "library timings" "10.0.0.1")); [lia |].
  vm_compute. discriminate.
Defined.

(** ** Error tracking *)

Lemma py_last_short {A} (n : nat) (l : list A) :
  List.length l <= n -> py_last n l = l.
Proof.
  intros Hl. unfold py_last. now replace (List.length l - n) with 0 by lia.
Qed.

Lemma py_last_length {A} (n : nat) (l : list A) :
  List.length (py_last n l) = Nat.min n (List.length l).
Proof. unfold py_last. rewrite length_skipn. lia. Qed.

Lemma py_last_app {A} (n : nat) (l m : list A) :
  py_last n (py_last n l ++ m) = py_last n (l ++ m).
Proof.
  destruct (Nat.le_gt_cases (List.length l) n) as [Hshort | Hlong].
  - now rewrite (py_last_short n l Hshort).
  - unfold py_last at 1 3. rewrite !length_app, py_last_length.
    unfold py_last. rewrite !List.skipn_app, length_skipn, List.skipn_skipn.
    destruct (Nat.le_gt_cases (List.length m) n) as [Hm | Hm].
    + f_equal; f_equal; lia.
    + f_equal; [| f_equal; lia].
      transitivity (@nil A); [| symmetry]; apply List.skipn_all2; lia.
Qed.

Lemma track_all_recent (events : list Tracker.event) :
  forall tracker,
    et_recent_errors (fst (Tracker.track_all events tracker))
    = match events with
      | [] => et_recent_errors tracker
      | _ => py_last 10 (et_recent_errors tracker
                         ++ map Tracker.entry_of events)
      end.
Proof.
  induction events as [| ev events IH]; intros tracker; [reflexivity |].
  cbn [Tracker.track_all].
  destruct (Tracker.track_error _ _ _ _ _ tracker) as [tracker1 alert] eqn:E1.
  specialize (IH tracker1).
  destruct (Tracker.track_all events tracker1) as [tracker2 alerts].
  cbn [fst] in *. rewrite IH.
  assert (et_recent_errors tracker1
          = py_last 10 (et_recent_errors tracker ++ [Tracker.entry_of ev]))
    as ->.
  { unfold Tracker.track_error in E1.
    destruct (3600 <? _)%Z; injection E1 as <- _; reflexivity. }
  destruct events as [| ev' events].
  - reflexivity.
  - rewrite py_last_app. now rewrite <- app_assoc.
Qed.

(** X6.  The tracker keeps the last ten errors: after one or more errors
    its list of recent errors is the last ten entries of what it held
    followed by the new errors, in their order, whatever the clock says. *)
Theorem track_error_keeps_last_ten (ev : Tracker.event)
    (events : list Tracker.event) (tracker : ErrorTracker) :
  let recent :=
    et_recent_errors (fst (Tracker.track_all (ev :: events) tracker)) in
  recent = py_last 10 (et_recent_errors tracker
                       ++ map Tracker.entry_of (ev :: events)) /\
  List.length recent <= 10.
Proof.
  intros recent. subst recent. rewrite track_all_recent.
  split; [reflexivity |]. rewrite py_last_length. lia.
Qed.

Lemma track_all_counts (events : list Tracker.event) :
  forall tracker,
    (forall ev, In ev events ->
                (Tracker.ev_check ev - et_last_reset tracker <= 3600)%Z) ->
    et_count (fst (Tracker.track_all events tracker))
    = et_count tracker + List.length events /\
    et_last_reset (fst (Tracker.track_all events tracker))
    = et_last_reset tracker /\
    snd (Tracker.track_all events tracker)
    = map (fun i => 50 <? et_count tracker + S i) (seq 0 (List.length events)).
Proof.
  induction events as [| ev events IH]; intros tracker Hhour.
  - simpl. repeat split; lia.
  - cbn [Tracker.track_all].
    destruct (Tracker.track_error _ _ _ _ _ tracker) as [tracker1 alert] eqn:E1.
    unfold Tracker.track_error in E1.
    rewrite (proj2 (Z.ltb_ge _ _) (Hhour ev (or_introl eq_refl))) in E1.
    injection E1 as <- <-.
    match goal with
    | |- context [Tracker.track_all events ?t] =>
        specialize (IH t); destruct (Tracker.track_all events t)
          as [tracker2 alerts]
    end.
    cbn [fst snd et_count et_last_reset] in *.
    destruct IH as [Hc [Hr Ha]]; [intros; apply Hhour; now right |].
    repeat split.
    + rewrite Hc. simpl. lia.
    + exact Hr.
    + rewrite Ha. simpl. f_equal.
      rewrite <- seq_shift, map_map. apply map_ext. intros i. f_equal. lia.
Qed.

(** X7.  While no error is tracked more than an hour after the last reset,
    every error is counted, the time of the last reset stays, and an error
    raises the alert exactly when it brings the count above 50.  An error
    tracked more than an hour after the last reset sets the count to 0, so
    that it is not counted itself, and raises no alert. *)
Theorem track_error_counts (events : list Tracker.event)
    (tracker : ErrorTracker) :
  ((forall ev, In ev events ->
               (Tracker.ev_check ev - et_last_reset tracker <= 3600)%Z) ->
   et_count (fst (Tracker.track_all events tracker))
   = et_count tracker + List.length events /\
   et_last_reset (fst (Tracker.track_all events tracker))
   = et_last_reset tracker /\
   snd (Tracker.track_all events tracker)
   = map (fun i => 50 <? et_count tracker + S i)
         (seq 0 (List.length events))) /\
  (forall t_entry t_check t_reset error context,
      (3600 < t_check - et_last_reset tracker)%Z ->
      let result :=
        Tracker.track_error t_entry t_check t_reset error context tracker in
      et_count (fst result) = 0 /\
      et_last_reset (fst result) = t_reset /\
      snd result = false).
Proof.
  split; [apply track_all_counts |].
  intros t_entry t_check t_reset error context Hlate result. subst result.
  unfold Tracker.track_error.
  rewrite (proj2 (Z.ltb_lt _ _) Hlate). repeat split.
Qed.

Lemma track_error_counts_witness :
  et_count
    (fst (Tracker.track_all
            (map (fun i => Tracker.timeout_at (Z.of_nat i)) (seq 0 52))
            {| et_count := 0; et_last_reset := 0; et_recent_errors := [] |}))
  = 52 /\
  et_count
    (fst (Tracker.track_error 3601 3601 3601 "database is locked" "health_check"
            {| et_count := 52; et_last_reset := 0; et_recent_errors := [] |}))
  = 0.
Proof.
  split.
  - refine (proj1 (proj1 (track_error_counts
                            (map (fun i => Tracker.timeout_at (Z.of_nat i))
                                 (seq 0 52))
                            {| et_count := 0; et_last_reset := 0;
                               et_recent_errors := [] |}) _)).
    intros ev Hev. apply in_map_iff in Hev as [i [<- Hi]].
    apply in_seq in Hi. simpl. lia.
  - refine (proj1 (proj2 (track_error_counts []
                            {| et_count := 52; et_last_reset := 0;
                               et_recent_errors := [] |})
                     3601%Z 3601%Z 3601%Z "database is locked"%string
                     "health_check"%string _)).
    simpl. lia.
Defined.

(** ** The entry point: what a request can and cannot do *)

Lemma prefix_len (n : nat) (s : string) : PyStr.len (PyStr.prefix n s) <= n.
Proof.
  unfold PyStr.len, PyStr.prefix. rewrite chars_of_chars, length_firstn. lia.
Qed.

Lemma prefix_prefix (n : nat) (s : string) :
  PyStr.prefix n (PyStr.prefix n s) = PyStr.prefix n s.
Proof.
  unfold PyStr.prefix. rewrite chars_of_chars, firstn_firstn.
  now rewrite Nat.min_id.
Qed.

Section EntryPointFacts.

Context {Env : Type} `{Services Env}.

(** X8.  A request whose query is not a string, is empty, is longer than
    300 characters or fails the validation is answered with the fixed
    message of its case without any collaborator being run: the state the
    collaborators act on is left as it was. *)
Theorem get_nandu_response_rejects_early (start_time end_time : Z)
    (c : call) (b : Backend Env) :
  let result := get_nandu_response_body start_time end_time c b in
  (q c = QNotStr \/ q c = QStr ""%string -> result = (b, PLEASE_ENTER)) /\
  (forall s, q c = QStr s -> 300 < PyStr.len s ->
             env (fst result) = env b /\ snd result = TOO_LONG) /\
  (forall s msg, q c = QStr s -> s <> ""%string -> PyStr.len s <= 300 ->
                 is_valid_query (PyStr.strip s) = (false, msg) ->
                 env (fst result) = env b /\ snd result = msg).
Proof.
  intros result. subst result. unfold get_nandu_response_body.
  split; [| split].
  - intros [-> | ->]; reflexivity.
  - intros s -> Hlong. destruct s as [| ch s]; [cbv in Hlong; lia |].
    cbn [PyStr.is_empty]. rewrite (proj2 (Nat.ltb_lt _ _) Hlong).
    cbn [fst snd]. split; [| reflexivity].
    unfold audit_log_query. now destruct (audit_io_ok (env b)).
  - intros s msg -> Hs Hshort Hbad. destruct s as [| ch s]; [congruence |].
    cbn [PyStr.is_empty]. rewrite (proj2 (Nat.ltb_ge _ _) Hshort), Hbad.
    cbn [negb fst snd]. split; [| reflexivity].
    unfold audit_log_query. now destruct (audit_io_ok (env b)).
Qed.

Lemma audit_log_query_record query response ip time success (b : Backend Env) :
  forall r,
    In r (audit_log (audit_log_query query response ip time success b)) ->
    In r (audit_log b) \/
    (ar_query r = PyStr.prefix 100 query /\
     ar_response_length r = PyStr.len response /\
     ar_client_ip r
     = (if String.eqb ip "default" then "default"%string
        else (PyStr.prefix 10 ip +:+ "***")%string) /\
     ar_processing_time r = time /\ ar_success r = success).
Proof.
  intros r. unfold audit_log_query.
  destruct (audit_io_ok (env b)); [| now left].
  cbn [audit_log]. intros Hr.
  apply in_app_or in Hr as [Hr | [<- | []]]; [now left | right].
  repeat split.
Qed.

(** How the body ends, with the record it writes: the log gains nothing but
    one record made by [audit_log_query]. *)
Lemma body_audit_records start_time end_time (c : call) (b : Backend Env) :
  forall r,
    In r (audit_log (fst (get_nandu_response_body start_time end_time c b))) ->
    In r (audit_log b) \/
    exists s,
      q c = QStr s /\
      ar_query r
      = PyStr.prefix 100 (if 300 <? PyStr.len s then s else PyStr.strip s) /\
      ar_client_ip r
      = (if String.eqb (param_client_ip c) "default" then "default"%string
         else (PyStr.prefix 10 (param_client_ip c) +:+ "***")%string).
Proof.
  intros r. unfold get_nandu_response_body.
  destruct (q c) as [s |]; [| now left].
  destruct (PyStr.is_empty s); [now left |].
  destruct (300 <? PyStr.len s) eqn:Elen.
  { cbn [fst]. intros Hr.
    apply audit_log_query_record in Hr as [Hr | [Hq [_ [Hip _]]]];
      [now left | right].
    exists s. rewrite prefix_prefix in Hq. rewrite Elen.
    split; [reflexivity |]. split; [exact Hq | exact Hip]. }
  destruct (is_valid_query (PyStr.strip s)) as [is_valid error_msg].
  destruct is_valid; cbn [negb].
  2:{ cbn [fst]. intros Hr.
      apply audit_log_query_record in Hr as [Hr | [Hq [_ [Hip _]]]];
        [now left | right].
      exists s. rewrite Elen.
      split; [reflexivity |]. split; [exact Hq | exact Hip]. }
  destruct (try_block _ _ _ _) as [e1 out].
  destruct out; cbn [fst]; intros Hr;
    apply audit_log_query_record in Hr as [Hr | [Hq [_ [Hip _]]]];
    try (now left); right;
    (exists s; rewrite Elen; split; [reflexivity |];
     split; [exact Hq | exact Hip]).
Qed.

End EntryPointFacts.

(** X9.  Every audit record that a request adds holds the first 100
    characters of the query of that request, as it was typed: of the query
    itself when it is longer than 300 characters, else of the stripped
    query, never of the corrected one; so it holds at most 100 characters.
    Of the client address it holds the first 10 characters followed by three
    stars, so that an address is logged in full only when it has at most 10
    characters; the word "default" is logged as it is. *)
Theorem get_nandu_response_audit_is_anonymized {Env : Type} `{Services Env}
    (current_time start_time end_time : Z) (c : call)
    (rl : limiter) (b : Backend Env) (r : AuditRecord) :
  In r (audit_log (snd (fst (get_nandu_response current_time start_time
                               end_time c (rl, b))))) ->
  In r (audit_log b) \/
  exists s,
    q c = QStr s /\
    ar_query r
    = PyStr.prefix 100 (if 300 <? PyStr.len s then s else PyStr.strip s) /\
    PyStr.len (ar_query r) <= 100 /\
    ar_client_ip r
    = (if String.eqb (param_client_ip c) "default" then "default"%string
       else (PyStr.prefix 10 (param_client_ip c) +:+ "***")%string).
Proof.
  unfold get_nandu_response. rewrite rate_limit_unfold. cbv zeta.
  destruct (20 <=? _)%Z; cbn [fst snd]; [now left |].
  intros Hr. apply body_audit_records in Hr as [Hr | [s [Hs [Hq Hip]]]];
    [now left | right].
  exists s. split; [exact Hs |]. split; [exact Hq |].
  split; [rewrite Hq; apply prefix_len | exact Hip].
Qed.

Lemma get_nandu_response_audit_is_anonymized_witness :
  List.Forall (fun r => ar_query r = "library timings"%string /\
                        ar_client_ip r = "192.168.10***"%string)
    (audit_log (snd (fst (get_nandu_response 7 7 9
                            (keyword_call "  library timings " "192.168.100.27")
                            (∅, empty_backend))))).
Proof.
  apply List.Forall_forall. intros r Hr.
  destruct (get_nandu_response_audit_is_anonymized 7 7 9
              (keyword_call "  library timings " "192.168.100.27")
              ∅ empty_backend r Hr) as [[] | [s [Hs [Hq [_ Hip]]]]].
  injection Hs as <-. split; [exact Hq | exact Hip].
Defined.

Lemma get_nandu_response_rejects_early_witness :
  get_nandu_response_body 7 8 (keyword_call "" "10.0.0.1") empty_backend
  = (empty_backend, PLEASE_ENTER) /\
  snd (get_nandu_response_body 7 8 (keyword_call "zzzzzzzz" "10.0.0.1")
         empty_backend)
  = GIBBERISH_ERROR.
Proof.
  split.
  - apply (proj1 (get_nandu_response_rejects_early 7 8
                    (keyword_call "" "10.0.0.1") empty_backend)).
    now right.
  - apply (proj2 (proj2 (get_nandu_response_rejects_early 7 8
                    (keyword_call "zzzzzzzz" "10.0.0.1") empty_backend))
             "zzzzzzzz"%string GIBBERISH_ERROR);
      [reflexivity | discriminate | vm_compute; lia | vm_compute; reflexivity].
Defined.

(** Where the [try] block ends when a collaborator raises. *)
Lemma try_block_routes {Env : Type} `{Services Env}
    (original_query query mode : string) (e : Env) :
  (is_statistics_query query = true ->
   snd (get_library_statistics e) = Raise ->
   snd (try_block original_query query mode e) = Critical) /\
  (is_statistics_query query = false ->
   (mode = "library"%string -> snd (answer_library query e) = Raise ->
    snd (try_block original_query query mode e) = Returned LIBRARY_ERROR) /\
   (mode = "website"%string -> snd (answer_website query e) = Raise ->
    snd (try_block original_query query mode e) = Returned WEBSITE_ERROR) /\
   (mode = "books"%string ->
    snd (answer_book original_query query e) = Raise ->
    snd (try_block original_query query mode e) = BookFailed) /\
   (mode = "auto"%string -> snd (classify_query_with_llama query e) = Raise ->
    snd (try_block original_query query mode e) = Critical) /\
   (mode = "auto"%string ->
    forall e1, classify_query_with_llama query e = (e1, Ok "general"%string) ->
               snd (answer_general query e1) = Raise ->
               snd (try_block original_query query mode e)
               = Returned GENERAL_ERROR)).
Proof.
  unfold is_statistics_query, try_block. cbv zeta. split.
  - intros -> Hraise.
    destruct (get_library_statistics e) as [e1 [[answer |] |]];
      [discriminate | discriminate | reflexivity].
  - intros ->. repeat split.
    + intros -> Hraise. cbn. unfold returned.
      destruct (answer_library query e) as [e1 [text |]];
        [discriminate | reflexivity].
    + intros -> Hraise. cbn. unfold returned.
      destruct (answer_website query e) as [e1 [text |]];
        [discriminate | reflexivity].
    + intros -> Hraise. cbn.
      destruct (answer_book original_query query e) as [e1 [text |]];
        [discriminate | reflexivity].
    + intros -> Hraise. cbn.
      destruct (classify_query_with_llama query e) as [e1 [query_type |]];
        [discriminate | reflexivity].
    + intros -> e1 Hclass Hraise. cbn. rewrite Hclass. cbn. unfold returned.
      destruct (answer_general query e1) as [e2 [text |]];
        [discriminate | reflexivity].
Qed.

(** X10.  When the audit file can be written, a request that passed the
    validation adds one record, which tells how the request ended.  A
    request that ended by a [return] of the [try] block is logged as a
    success with the response length 11, the length of the word
    "no_response", whatever was returned, because the text is returned
    without being kept for the log; this includes a failure inside the
    library, the website or the general branch, which is caught by the
    handler of the branch and answered with the apology of the branch.  A
    failure of the book branch is answered with the apology of the book
    search, and a failure of the statistics or of the classification with
    the general apology; both are logged as failures with the length of the
    apology. *)
Theorem get_nandu_response_logs_outcome {Env : Type} `{Services Env}
    (start_time end_time : Z) (c : call) (b : Backend Env) (s : string) :
  (forall e, audit_io_ok e = true) ->
  q c = QStr s -> s <> ""%string -> PyStr.len s <= 300 ->
  fst (is_valid_query (PyStr.strip s)) = true ->
  let original_query := PyStr.strip s in
  let query :=
    PyStr.strip (auto_correct_spelling has_textblob textblob_correct
                   catalogue_authors original_query) in
  let result := get_nandu_response_body start_time end_time c b in
  exists r,
    let logged (message : string) (success : bool) :=
      snd result = message /\ ar_success r = success /\
      ar_response_length r = (if success then 11 else PyStr.len message) in
    audit_log (fst result) = audit_log b ++ [r] /\
    match snd (try_block original_query query (search_mode c) (env b)) with
    | Returned text => logged text true
    | BookFailed => logged BOOK_ERROR false
    | Critical => logged UNEXPECTED_ERROR false
    end /\
    (is_statistics_query query = true ->
     snd (get_library_statistics (env b)) = Raise ->
     logged UNEXPECTED_ERROR false) /\
    (is_statistics_query query = false ->
     (search_mode c = "library"%string ->
      snd (answer_library query (env b)) = Raise ->
      logged LIBRARY_ERROR true) /\
     (search_mode c = "website"%string ->
      snd (answer_website query (env b)) = Raise ->
      logged WEBSITE_ERROR true) /\
     (search_mode c = "books"%string ->
      snd (answer_book original_query query (env b)) = Raise ->
      logged BOOK_ERROR false) /\
     (search_mode c = "auto"%string ->
      snd (classify_query_with_llama query (env b)) = Raise ->
      logged UNEXPECTED_ERROR false) /\
     (search_mode c = "auto"%string ->
      forall e1,
        classify_query_with_llama query (env b) = (e1, Ok "general"%string) ->
        snd (answer_general query e1) = Raise ->
        logged GENERAL_ERROR true)).
Proof.
  intros Hio Hq Hs Hshort Hvalid original_query query result.
  destruct (try_block_routes original_query query (search_mode c) (env b))
    as [Hstats Hlib].
  assert (exists r,
    audit_log (fst result) = audit_log b ++ [r] /\
    match snd (try_block original_query query (search_mode c) (env b)) with
    | Returned text =>
        snd result = text /\ ar_success r = true /\
        ar_response_length r = 11
    | BookFailed =>
        snd result = BOOK_ERROR /\ ar_success r = false /\
        ar_response_length r = PyStr.len BOOK_ERROR
    | Critical =>
        snd result = UNEXPECTED_ERROR /\ ar_success r = false /\
        ar_response_length r = PyStr.len UNEXPECTED_ERROR
    end) as [r [Hlog Hout]].
  { subst result. unfold get_nandu_response_body. rewrite Hq.
    destruct s as [| ch s]; [congruence |]. cbn [PyStr.is_empty].
    rewrite (proj2 (Nat.ltb_ge _ _) Hshort).
    fold original_query.
    change (fst (is_valid_query original_query) = true) in Hvalid.
    destruct (is_valid_query original_query) as [is_valid error_msg].
    cbn [fst] in Hvalid. rewrite Hvalid. cbn [negb]. fold query.
    destruct (try_block original_query query (search_mode c) (env b))
      as [e1 out].
    cbn [snd]. unfold audit_log_query.
    destruct out; cbn [fst snd env audit_log]; rewrite Hio;
      eexists; (split; [reflexivity |]); repeat split. }
  exists r. cbv zeta. split; [exact Hlog |]. split; [exact Hout |].
  split.
  - intros Hst Hraise. now rewrite (Hstats Hst Hraise) in Hout.
  - intros Hst. specialize (Hlib Hst).
    destruct Hlib as [Hlib [Hweb [Hbook [Hclass Hgen]]]].
    split; [| split; [| split; [| split]]].
    + intros Hmode Hraise. now rewrite (Hlib Hmode Hraise) in Hout.
    + intros Hmode Hraise. now rewrite (Hweb Hmode Hraise) in Hout.
    + intros Hmode Hraise. now rewrite (Hbook Hmode Hraise) in Hout.
    + intros Hmode Hraise. now rewrite (Hclass Hmode Hraise) in Hout.
    + intros Hmode e1 Hc Hraise.
      now rewrite (Hgen Hmode e1 Hc Hraise) in Hout.
Qed.

Lemma get_nandu_response_logs_outcome_witness :
  exists r,
    audit_log (fst (@get_nandu_response_body unit failing_services 7 9
                      (keyword_call "library timings" "10.0.0.1")
                      empty_backend)) = [r] /\
    snd (@get_nandu_response_body unit failing_services 7 9
           (keyword_call "library timings" "10.0.0.1") empty_backend)
    = GENERAL_ERROR /\
    ar_success r = true /\ ar_response_length r = 11.
Proof.
  destruct (@get_nandu_response_logs_outcome unit failing_services 7 9
              (keyword_call "library timings" "10.0.0.1") empty_backend
              "library timings"%string
              ltac:(intros; reflexivity) eq_refl
              ltac:(discriminate) ltac:(vm_compute; lia)
              ltac:(vm_compute; reflexivity))
    as [r [Hlog [_ [_ Hroutes]]]].
  exists r. split; [exact Hlog |].
  apply (proj2 (proj2 (proj2 (proj2 (Hroutes eq_refl)))) eq_refl tt);
    reflexivity.
Defined.

(** ** Author search and hybrid search *)

Lemma sql_limit_incl {A} (n : Z) (l : list A) (x : A) :
  In x (sql_limit n l) -> In x l.
Proof.
  unfold sql_limit. destruct (n <? 0)%Z; [auto | apply firstn_incl].
Qed.

(** X11.  The author search returns nothing for an empty name or when the
    table cannot be read.  For a limit that is not negative it returns at
    most [limit] rows, each a row of the table whose author is not NULL and
    matches the name between two [%], that is, for a name without [%] and
    [_], contains the name whatever the case of the letters; and when the
    matching rows are no more than [limit] it returns all of them, in the
    order of the table. *)
Theorem search_catalogue_author_rows (catalogue : option (list Row))
    (author_name : string) (limit : Z) :
  (0 <= limit)%Z ->
  let found := search_catalogue_author catalogue author_name limit in
  (author_name = ""%string \/ catalogue = None -> found = []) /\
  List.length found <= Z.to_nat limit /\
  (forall row, In row found ->
     exists table a,
       catalogue = Some table /\ In row table /\ r_author row = Some a /\
       sql_like (Some a) (fuzzy_of author_name) = true /\
       (no_wildcard (PyStr.chars (PyStr.lower author_name)) ->
        PyStr.contains (PyStr.lower author_name) (PyStr.lower a) = true)) /\
  (forall table,
      catalogue = Some table -> author_name <> ""%string ->
      let matching :=
        List.filter (fun row => sql_like (r_author row) (fuzzy_of author_name))
          table in
      (Z.of_nat (List.length matching) <= limit)%Z -> found = matching).
Proof.
  intros Hlimit found. subst found. unfold search_catalogue_author.
  split; [| split; [| split]].
  - intros [-> | ->]; [reflexivity |]. now destruct (PyStr.is_empty _).
  - destruct (PyStr.is_empty _); [simpl; lia |].
    destruct catalogue as [table |]; [| simpl; lia].
    unfold sql_limit. rewrite (proj2 (Z.ltb_ge _ _) Hlimit).
    rewrite length_firstn. lia.
  - intros row Hrow.
    destruct (PyStr.is_empty _); [contradiction |].
    destruct catalogue as [table |]; [| contradiction].
    apply sql_limit_incl, filter_In in Hrow as [Hrow Hlike].
    destruct (r_author row) as [a |] eqn:Ea; [| discriminate].
    exists table, a. repeat split; auto.
    intros Hw. now rewrite <- sql_like_substring.
  - intros table -> Hname Hfew.
    destruct author_name; [congruence |]. cbn [PyStr.is_empty].
    unfold sql_limit. rewrite (proj2 (Z.ltb_ge _ _) Hlimit).
    apply firstn_all2. lia.
Qed.

Lemma search_catalogue_author_rows_witness :
  search_catalogue_author (Some [companion_row; dune_row; untitled_row])
    "herbert" 20
  = [dune_row; untitled_row].
Proof.
  refine (proj2 (proj2 (proj2 (search_catalogue_author_rows
            (Some [companion_row; dune_row; untitled_row]) "herbert" 20 _)))
            _ eq_refl _ _).
  - lia.
  - discriminate.
  - vm_compute. discriminate.
Defined.

Lemma get2_title_none (d : gmap string pyval) :
  get2 d "Title" "title" = VNone -> item_title d = "None"%string.
Proof. unfold item_title. now intros ->. Qed.

(** X12.  A record whose title is [None], as a row of the catalogue with a
    NULL title is, is not skipped as a record without title: the title is
    read as the word "None", so that the record is counted, in a group of
    the title key "none". *)
Theorem merge_duplicates_none_title (results : list item)
    (d : gmap string pyval) :
  In (Rec d) results ->
  get2 d "Title" "title" = VNone ->
  is_counted (Rec d) = true /\
  exists g,
    In g (merge_duplicates results) /\
    group_key g = ("none"%string, canonical_author_key (item_author d)) /\
    1 <= copies g.
Proof.
  intros Hin Hnone. pose proof (get2_title_none d Hnone) as Ht.
  assert (record_key (Rec d)
          = Some ("none"%string, canonical_author_key (item_author d))) as Hk.
  { simpl. rewrite Ht. reflexivity. }
  split; [unfold is_counted; now rewrite Hk |].
  destruct (merge_duplicates_spec results) as [_ [Hcopies Hcovers]].
  destruct (Hcovers _ _ Hin Hk) as [g [Hg Hkey]].
  exists g. repeat split; auto.
  rewrite (Hcopies g Hg), Hkey.
  assert (In (Rec d) (records_with_key
            ("none"%string, canonical_author_key (item_author d)) results))
    as Hmem.
  { apply filter_In. split; [exact Hin |]. rewrite Hk. apply key_eqb_refl. }
  destruct (records_with_key _ results); [contradiction | simpl; lia].
Qed.

Lemma merge_duplicates_none_title_witness :
  exists g,
    In g (merge_duplicates [Rec (row_to_dict dune_row);
                            Rec (row_to_dict untitled_row)]) /\
    group_key g = ("none", "herbert|f")%string /\
    1 <= copies g.
Proof.
  destruct (merge_duplicates_none_title
              [Rec (row_to_dict dune_row); Rec (row_to_dict untitled_row)]
              (row_to_dict untitled_row))
    as [_ [g [Hg [Hkey Hc]]]].
  - right. now left.
  - vm_compute. reflexivity.
  - exists g. split; [exact Hg |]. split; [| exact Hc].
    rewrite Hkey. vm_compute. reflexivity.
Defined.


Section HybridFacts.

Context `{CatalogueEnv}.
Variable semantic_search : string -> list item.

Lemma hybrid_book_search_merges catalogue query intent :
  hybrid_book_search semantic_search catalogue query intent
  = merge_duplicates (hybrid_found semantic_search catalogue query intent).
Proof.
  unfold hybrid_book_search.
  now destruct (hybrid_found semantic_search catalogue query intent).
Qed.

(** X13.  The hybrid search counts finds, not books: the copies of its
    groups add up to the number of records with a title that the catalogue
    search and the semantic search returned together, and a book that both
    searches return is shown once, in a group of at least two copies. *)
Theorem hybrid_book_search_counts_finds (catalogue : option (list Row))
    (query : string) (intent : option string) :
  let merged := hybrid_book_search semantic_search catalogue query intent in
  total_copies merged
  = List.length (List.filter is_counted
                   (hybrid_catalogue_results catalogue query intent))
    + List.length (List.filter is_counted (semantic_search query)) /\
  (forall it1 it2 k,
      In it1 (hybrid_catalogue_results catalogue query intent) ->
      In it2 (semantic_search query) ->
      record_key it1 = Some k -> record_key it2 = Some k ->
      exists g, In g merged /\ group_key g = k /\ 2 <= copies g /\
                forall g', In g' merged -> group_key g' = k -> g' = g).
Proof.
  intros merged. subst merged. rewrite hybrid_book_search_merges.
  unfold hybrid_found. split.
  - now rewrite merge_duplicates_copies_sum, List.filter_app, length_app.
  - intros it1 it2 k H1 H2 Hk1 Hk2.
    destruct (merge_duplicates_spec
                (hybrid_catalogue_results catalogue query intent
                 ++ semantic_search query)) as [Hnd [Hcopies Hcovers]].
    destruct (Hcovers it1 k (in_or_app _ _ _ (or_introl H1)) Hk1)
      as [g [Hg Hkey]].
    exists g. repeat split; auto.
    + rewrite (Hcopies g Hg), Hkey. unfold records_with_key.
      rewrite List.filter_app, length_app.
      assert (forall it l, In it l -> record_key it = Some k ->
                1 <= List.length
                       (List.filter
                          (fun it0 => match record_key it0 with
                                      | Some k0 => key_eqb k k0
                                      | None => false
                                      end) l)) as Hone.
      { intros it l Hit Hk.
        assert (In it (List.filter
                         (fun it0 => match record_key it0 with
                                     | Some k0 => key_eqb k k0
                                     | None => false
                                     end) l)) as Hmem.
        { apply filter_In. split; [exact Hit |]. rewrite Hk.
          apply key_eqb_refl. }
        destruct (List.filter _ l); [contradiction | simpl; lia]. }
      pose proof (Hone it1 _ H1 Hk1). pose proof (Hone it2 _ H2 Hk2). lia.
    + intros g' Hg' E. rewrite <- Hkey in E.
      exact (NoDup_map_injective group_key _ g' g Hnd Hg' Hg E).
Qed.

End HybridFacts.

Lemma hybrid_book_search_counts_finds_witness :
  exists g,
    In g (hybrid_book_search
            (fun _ => [book "DUNE" "Frank Herbert"])
            (Some [dune_row]) "dune" None) /\
    group_key g = ("dune", "herbert|f")%string /\ 2 <= copies g.
Proof.
  destruct (proj2 (hybrid_book_search_counts_finds
                     (fun _ => [book "DUNE" "Frank Herbert"])
                     (Some [dune_row]) "dune" None)
              (Rec (result_to_dict (dune_row, 100%Z)))
              (book "DUNE" "Frank Herbert")
              ("dune", "herbert|f")%string)
    as [g [Hg [Hkey [Hc _]]]].
  - vm_compute. now left.
  - now left.
  - vm_compute. reflexivity.
  - vm_compute. reflexivity.
  - exists g. auto.
Defined.

(** ** Input sanitization *)

Example sanitize_input_example :
  sanitize_input (QStr "  <b>Books</b>   by	O'Neil; DROP TABLE x -- ")
  = "bBooksb byO'Neil DROP TABLE x --"%string.
Proof. vm_compute. reflexivity. Qed.

Lemma lstrip_no_lead (c : ascii) (l : list ascii) :
  PyStr.isspace c = false -> PyStr.lstrip_l (c :: l) = c :: l.
Proof. intros Hc. simpl. now rewrite Hc. Qed.

Lemma lstrip_app_keep (a b : list ascii) :
  PyStr.lstrip_l a <> [] -> PyStr.lstrip_l (a ++ b) = PyStr.lstrip_l a ++ b.
Proof.
  induction a as [| c a IH]; simpl; [congruence |].
  destruct (PyStr.isspace c); [exact IH | reflexivity].
Qed.

Lemma lstrip_app_drop (a b : list ascii) :
  PyStr.lstrip_l a = [] -> PyStr.lstrip_l (a ++ b) = PyStr.lstrip_l b.
Proof.
  induction a as [| c a IH]; simpl; [reflexivity |].
  destruct (PyStr.isspace c); [exact IH | discriminate].
Qed.

Lemma rstrip_app_keep (a b : list ascii) :
  PyStr.rstrip_l b <> [] -> PyStr.rstrip_l (a ++ b) = a ++ PyStr.rstrip_l b.
Proof.
  unfold PyStr.rstrip_l. intros Hb. rewrite rev_app_distr.
  rewrite lstrip_app_keep.
  - now rewrite rev_app_distr, rev_involutive.
  - intros E. apply Hb. now rewrite E.
Qed.

Lemma rstrip_app_drop (a b : list ascii) :
  PyStr.rstrip_l b = [] -> PyStr.rstrip_l (a ++ b) = PyStr.rstrip_l a.
Proof.
  unfold PyStr.rstrip_l. intros Hb. rewrite rev_app_distr.
  rewrite lstrip_app_drop; [reflexivity |].
  apply (f_equal (@rev ascii)) in Hb. now rewrite rev_involutive in Hb.
Qed.

Lemma rstrip_no_space (w : list ascii) :
  (forall c, In c w -> PyStr.isspace c = false) -> PyStr.rstrip_l w = w.
Proof.
  intros Hw. unfold PyStr.rstrip_l.
  destruct (rev w) as [| c r] eqn:E.
  - apply (f_equal (@rev ascii)) in E. now rewrite rev_involutive in E.
  - rewrite lstrip_no_lead.
    + rewrite <- E. apply rev_involutive.
    + apply Hw. apply in_rev. rewrite E. now left.
Qed.

Lemma rstrip_space : PyStr.rstrip_l [" "%char] = [].
Proof. reflexivity. Qed.

Lemma is_word_firstn (n : nat) (w : list ascii) :
  is_word w -> 0 < n -> is_word (firstn n w).
Proof.
  intros [Hne Hw] Hn. split.
  - destruct w; [congruence |]. destruct n; [lia | discriminate].
  - intros c Hc. eapply Hw, firstn_incl, Hc.
Qed.

Lemma join_cons_cons (sep w w2 : list ascii) (ws : list (list ascii)) :
  PyStr.join_l sep (w :: w2 :: ws) = w ++ sep ++ PyStr.join_l sep (w2 :: ws).
Proof. reflexivity. Qed.

(** A text of words joined by single spaces starts with a character that
    is not white space. *)
Lemma join_words_head (ws : list (list ascii)) :
  List.Forall is_word ws -> ws <> [] ->
  exists c l, PyStr.join_l [" "%char] ws = c :: l /\ PyStr.isspace c = false.
Proof.
  intros Hws Hne. destruct ws as [| w ws]; [congruence |].
  inversion Hws as [| ? ? [Hw Hc] Hrest]; subst.
  destruct w as [| c w]; [congruence |].
  exists c. destruct ws as [| w2 ws]; simpl; eexists; split; try reflexivity;
    apply Hc; now left.
Qed.

(** Cutting such a text and stripping the piece gives such a text again. *)
Lemma strip_firstn_join (ws : list (list ascii)) :
  List.Forall is_word ws ->
  forall n, exists ws',
    List.Forall is_word ws' /\
    PyStr.rstrip_l (firstn n (PyStr.join_l [" "%char] ws))
    = PyStr.join_l [" "%char] ws'.
Proof.
  induction ws as [| w ws IH]; intros Hws n.
  - exists []. split; [constructor |]. now rewrite firstn_nil.
  - inversion Hws as [| ? ? Hw Hrest]; subst.
    assert (forall m, exists ws',
               List.Forall is_word ws' /\
               PyStr.rstrip_l (firstn m w) = PyStr.join_l [" "%char] ws')
      as Hone.
    { intros m. destruct m as [| m].
      - exists []. split; [constructor | reflexivity].
      - exists [firstn (S m) w]. split.
        + constructor; [apply is_word_firstn; [exact Hw | lia] | constructor].
        + simpl PyStr.join_l. apply rstrip_no_space.
          intros c Hc. eapply (proj2 Hw), firstn_incl, Hc. }
    destruct ws as [| w2 ws]; [apply Hone |].
    rewrite join_cons_cons, firstn_app.
    destruct (Nat.le_gt_cases n (List.length w)) as [Hshort | Hlong].
    + replace (n - List.length w) with 0 by lia.
      rewrite firstn_O, app_nil_r. apply Hone.
    + rewrite (firstn_all2 w) by lia.
      destruct (n - List.length w) as [| m] eqn:Em; [lia |].
      cbn [app firstn].
      change (" "%char :: firstn m (PyStr.join_l [" "%char] (w2 :: ws)))
        with ([" "%char] ++ firstn m (PyStr.join_l [" "%char] (w2 :: ws))).
      rewrite app_assoc.
      destruct (IH Hrest m) as [ws1 [Hws1 Estrip]].
      destruct ws1 as [| w1 ws1].
      * exists [w]. split; [constructor; [exact Hw | constructor] |].
        rewrite rstrip_app_drop by exact Estrip.
        rewrite rstrip_app_drop by reflexivity.
        apply rstrip_no_space, (proj2 Hw).
      * exists (w :: w1 :: ws1). split; [constructor; [exact Hw | exact Hws1] |].
        rewrite join_cons_cons.
        rewrite rstrip_app_keep.
        -- rewrite Estrip. now rewrite <- app_assoc.
        -- rewrite Estrip.
           destruct (join_words_head (w1 :: ws1) Hws1 ltac:(discriminate))
             as [c [l [-> _]]]. discriminate.
Qed.

Lemma split_ws_aux_words (l cur : list ascii) :
  (forall c, In c cur -> PyStr.isspace c = false) ->
  List.Forall is_word (PyStr.split_ws_aux cur l).
Proof.
  revert cur. induction l as [| c l IH]; intros cur Hcur; simpl.
  - destruct cur as [| x cur]; [constructor |].
    constructor; [| constructor]. split.
    + intros E. apply (f_equal (@List.length ascii)) in E.
      rewrite length_rev in E. discriminate.
    + intros y Hy. apply Hcur. now apply in_rev.
  - destruct (PyStr.isspace c) eqn:Ec.
    + destruct cur as [| x cur]; [apply IH; intros ? [] |].
      constructor; [| apply IH; intros ? []]. split.
      * intros E. apply (f_equal (@List.length ascii)) in E.
        rewrite length_rev in E. discriminate.
      * intros y Hy. apply Hcur. now apply in_rev.
    + apply IH. intros y [<- | Hy]; [exact Ec | now apply Hcur].
Qed.

Lemma split_ws_aux_chars (l cur : list ascii) (w : list ascii) (c : ascii) :
  In w (PyStr.split_ws_aux cur l) -> In c w -> In c cur \/ In c l.
Proof.
  revert cur. induction l as [| x l IH]; intros cur Hw Hc; simpl in Hw.
  - destruct cur as [| y cur]; [contradiction |].
    destruct Hw as [<- | []]. left. now apply in_rev.
  - destruct (PyStr.isspace x).
    + destruct cur as [| y cur].
      * destruct (IH [] Hw Hc) as [[] | Hl]. right. now right.
      * destruct Hw as [<- | Hw]; [left; now apply in_rev |].
        destruct (IH [] Hw Hc) as [[] | Hl]. right. now right.
    + destruct (IH (x :: cur) Hw Hc) as [[<- | Hcur] | Hl];
        [right; now left | now left | right; now right].
Qed.

Lemma split_ws_aux_word (w cur l : list ascii) :
  (forall c, In c w -> PyStr.isspace c = false) ->
  PyStr.split_ws_aux cur (w ++ l) = PyStr.split_ws_aux (rev w ++ cur) l.
Proof.
  revert cur. induction w as [| c w IH]; intros cur Hw; [reflexivity |].
  simpl. rewrite (Hw c (or_introl eq_refl)).
  rewrite IH by (intros; apply Hw; now right).
  now rewrite <- app_assoc.
Qed.

(** Splitting a text of words joined by single spaces gives the words. *)
Lemma split_join_words (ws : list (list ascii)) :
  List.Forall is_word ws ->
  PyStr.split_ws_l (PyStr.join_l [" "%char] ws) = ws.
Proof.
  unfold PyStr.split_ws_l.
  induction ws as [| w ws IH]; intros Hws; [reflexivity |].
  inversion Hws as [| ? ? [Hne Hw] Hrest]; subst.
  assert (rev w <> []) as Hrev.
  { intros E. apply Hne. apply (f_equal (@rev ascii)) in E.
    now rewrite rev_involutive in E. }
  destruct ws as [| w2 ws].
  - simpl PyStr.join_l. rewrite <- (app_nil_r w) at 1.
    rewrite split_ws_aux_word by exact Hw. rewrite app_nil_r. simpl.
    destruct (rev w) eqn:E; [congruence |].
    rewrite <- E. now rewrite rev_involutive.
  - rewrite join_cons_cons, split_ws_aux_word by exact Hw.
    rewrite app_nil_r. cbn [app PyStr.split_ws_aux].
    change (PyStr.isspace " "%char) with true. cbv iota.
    destruct (rev w) eqn:E; [congruence |].
    rewrite <- E, rev_involutive. f_equal. now apply IH.
Qed.

Lemma join_words_chars (ws : list (list ascii)) (c : ascii) :
  In c (PyStr.join_l [" "%char] ws) ->
  c = " "%char \/ exists w, In w ws /\ In c w.
Proof.
  induction ws as [| w ws IH]; [intros [] |].
  destruct ws as [| w2 ws].
  - simpl. intros Hc. right. exists w. split; [now left | exact Hc].
  - rewrite join_cons_cons. intros Hc.
    apply in_app_or in Hc as [Hc | Hc]; [right; exists w; split; auto; now left |].
    apply in_app_or in Hc as [[<- | []] | Hc]; [now left |].
    destruct (IH Hc) as [-> | [w' [Hw' Hcw]]]; [now left |].
    right. exists w'. split; [now right | exact Hcw].
Qed.

Lemma join_words_strip (ws : list (list ascii)) :
  List.Forall is_word ws ->
  PyStr.strip_l (PyStr.join_l [" "%char] ws) = PyStr.join_l [" "%char] ws.
Proof.
  intros Hws. unfold PyStr.strip_l.
  destruct ws as [| w ws]; [reflexivity |].
  destruct (join_words_head (w :: ws) Hws ltac:(discriminate))
    as [c [l [E Hc]]].
  rewrite E, lstrip_no_lead by exact Hc. rewrite <- E.
  destruct (strip_firstn_join (w :: ws) Hws
              (List.length (PyStr.join_l [" "%char] (w :: ws))))
    as [ws' [Hws' Estrip]].
  rewrite firstn_all in Estrip.
  (* the text ends with a character of its last word *)
  clear Estrip Hws' ws' E Hc c l.
  revert w Hws. induction ws as [| w2 ws IH]; intros w Hws;
    inversion Hws as [| ? ? Hw Hrest]; subst.
  - simpl. apply rstrip_no_space, (proj2 Hw).
  - rewrite join_cons_cons, app_assoc, rstrip_app_keep.
    + now rewrite IH.
    + rewrite IH by exact Hrest.
      destruct (join_words_head (w2 :: ws) Hrest ltac:(discriminate))
        as [c [l [-> _]]]. discriminate.
Qed.

(** The text that [sanitize_input] returns, as words joined by single
    spaces, with the characters it is made of. *)
Lemma sanitize_input_words (query : string) :
  exists ws,
    List.Forall is_word ws /\
    PyStr.chars (sanitize_input (QStr query)) = PyStr.join_l [" "%char] ws /\
    List.length (PyStr.join_l [" "%char] ws) <= 300 /\
    (forall w c, In w ws -> In c w ->
                 is_sanitary c = true /\ is_control c = false).
Proof.
  unfold sanitize_input.
  destruct (PyStr.is_empty query).
  { exists []. split; [constructor |]. split; [reflexivity |].
    split; [simpl; lia | intros ? ? []]. }
  cbv zeta.
  set (clean := List.filter is_sanitary
                  (List.filter (fun c => negb (is_control c))
                     (PyStr.chars query))).
  pose proof (split_ws_aux_words clean [] (fun _ H => match H with end))
    as Hwords.
  fold (PyStr.split_ws_l clean) in Hwords.
  assert (PyStr.lstrip_l (firstn 300
            (PyStr.join_l [" "%char] (PyStr.split_ws_l clean)))
          = firstn 300 (PyStr.join_l [" "%char] (PyStr.split_ws_l clean)))
    as Hlead.
  { destruct (PyStr.split_ws_l clean) as [| w ws] eqn:Es; [reflexivity |].
    destruct (join_words_head (w :: ws) Hwords ltac:(discriminate))
      as [c [l [-> Hc]]].
    simpl. now rewrite Hc. }
  destruct (strip_firstn_join _ Hwords 300) as [ws' [Hws' Estrip]].
  exists ws'. rewrite chars_of_chars. unfold PyStr.strip_l.
  rewrite Hlead, Estrip.
  assert (forall c, In c (PyStr.join_l [" "%char] ws') ->
                    In c (PyStr.join_l [" "%char] (PyStr.split_ws_l clean)))
    as Hsub.
  { intros c Hc. rewrite <- Estrip in Hc. unfold PyStr.rstrip_l in Hc.
    apply in_rev in Hc.
    assert (forall l x, In x (PyStr.lstrip_l l) -> In x l) as Hl.
    { intros l x. induction l as [| y l IHl]; simpl; [auto |].
      destruct (PyStr.isspace y); [intros; right; auto | auto]. }
    apply Hl, in_rev in Hc. eapply firstn_incl, Hc. }
  repeat split.
  - exact Hws'.
  - rewrite <- Estrip. unfold PyStr.rstrip_l. rewrite length_rev.
    assert (forall l, List.length (PyStr.lstrip_l l) <= List.length l) as Hl.
    { intros l. induction l as [| y l IHl]; simpl; [lia |].
      destruct (PyStr.isspace y); simpl; lia. }
    etransitivity; [apply Hl |]. rewrite length_rev, length_firstn. lia.
  - assert (In c (PyStr.join_l [" "%char] ws')) as Hc.
    { clear - H H0. induction ws' as [| w' ws' IH]; [contradiction |].
      destruct ws' as [| w2 ws'].
      - destruct H as [-> | []]. exact H0.
      - rewrite join_cons_cons. destruct H as [-> | H];
          [apply in_or_app; now left |].
        apply in_or_app. right. apply in_or_app. right. now apply IH. }
    apply Hsub, join_words_chars in Hc as [-> | [w' [Hw' Hcw]]];
      [reflexivity |].
    destruct (split_ws_aux_chars clean [] w' c Hw' Hcw) as [[] | Hcl].
    subst clean. now apply filter_In in Hcl as [_ Hs].
  - assert (In c (PyStr.join_l [" "%char] ws')) as Hc.
    { clear - H H0. induction ws' as [| w' ws' IH]; [contradiction |].
      destruct ws' as [| w2 ws'].
      - destruct H as [-> | []]. exact H0.
      - rewrite join_cons_cons. destruct H as [-> | H];
          [apply in_or_app; now left |].
        apply in_or_app. right. apply in_or_app. right. now apply IH. }
    apply Hsub, join_words_chars in Hc as [-> | [w' [Hw' Hcw]]];
      [reflexivity |].
    destruct (split_ws_aux_chars clean [] w' c Hw' Hcw) as [[] | Hcl].
    subst clean. apply filter_In in Hcl as [Hcl _].
    apply filter_In in Hcl as [_ Hn]. now apply negb_true_iff in Hn.
Qed.

Lemma filter_all {A} (f : A -> bool) (l : list A) :
  (forall x, In x l -> f x = true) -> List.filter f l = l.
Proof.
  induction l as [| x l IH]; intros Hall; [reflexivity |].
  simpl. rewrite (Hall x (or_introl eq_refl)). f_equal.
  apply IH. intros y Hy. apply Hall. now right.
Qed.

Lemma space_after_controls (c : ascii) :
  is_control c = false -> PyStr.isspace c = true -> c = " "%char.
Proof.
  destruct c as [[] [] [] [] [] [] [] []]; vm_compute; congruence.
Qed.

(** A text of words of kept characters joined by single spaces, of at most
    300 characters, is returned as it is. *)
Lemma sanitize_input_fixed (s : string) (ws : list (list ascii)) :
  PyStr.chars s = PyStr.join_l [" "%char] ws ->
  List.Forall is_word ws ->
  List.length (PyStr.join_l [" "%char] ws) <= 300 ->
  (forall w c, In w ws -> In c w ->
               is_sanitary c = true /\ is_control c = false) ->
  sanitize_input (QStr s) = s.
Proof.
  intros Es Hws Hlen Hchars. unfold sanitize_input.
  destruct s as [| a s]; [reflexivity |].
  cbn [PyStr.is_empty]. cbv zeta. rewrite Es.
  assert (forall c, In c (PyStr.join_l [" "%char] ws) ->
                    is_sanitary c = true /\ is_control c = false) as Hall.
  { intros c Hc. apply join_words_chars in Hc as [-> | [w [Hw Hcw]]];
      [split; reflexivity | now apply (Hchars w)]. }
  rewrite (filter_all (fun c => negb (is_control c)))
    by (intros c Hc; apply negb_true_iff, (Hall c Hc)).
  rewrite (filter_all is_sanitary) by (intros c Hc; apply (Hall c Hc)).
  rewrite split_join_words by exact Hws.
  rewrite firstn_all2 by exact Hlen.
  rewrite join_words_strip by exact Hws.
  rewrite <- Es. apply of_chars_chars.
Qed.

(** X14 ([sanitize_input]).  Whatever the text, the result has at most 300
    characters, all of them letters, digits, spaces or one of [-.,?!'], none
    of them a control character and no white space other than the plain
    space; and its white space is normalized: splitting the result at white
    space and joining the words with single spaces gives the result back, so
    it has neither leading nor trailing nor doubled spaces. *)
Theorem sanitize_input_clean (query : string) :
  let out := PyStr.chars (sanitize_input (QStr query)) in
  List.length out <= 300 /\
  (forall c, In c out ->
     is_sanitary c = true /\ is_control c = false /\
     (PyStr.isspace c = true -> c = " "%char)) /\
  PyStr.join_l [" "%char] (PyStr.split_ws_l out) = out /\
  PyStr.strip_l out = out.
Proof.
  destruct (sanitize_input_words query) as [ws [Hws [-> [Hlen Hchars]]]].
  cbv zeta. split; [exact Hlen |]. split; [| split].
  - intros c Hc.
    assert (is_sanitary c = true /\ is_control c = false) as [Hs Hn].
    { apply join_words_chars in Hc as [-> | [w [Hw Hcw]]];
        [split; reflexivity | now apply (Hchars w)]. }
    split; [exact Hs |]. split; [exact Hn |].
    now apply space_after_controls.
  - now rewrite split_join_words.
  - now apply join_words_strip.
Qed.

Lemma sanitize_input_clean_witness :
  Forall (fun c => is_sanitary c = true /\ is_control c = false /\
                   (PyStr.isspace c = true -> c = " "%char))
    (PyStr.chars (sanitize_input (QStr "<i>Dune</i>,   2nd ed."))).
Proof.
  apply List.Forall_forall.
  exact (proj1 (proj2 (sanitize_input_clean "<i>Dune</i>,   2nd ed."))).
Defined.

(** X15 ([sanitize_input]).  Sanitizing is idempotent: a sanitized text is
    returned unchanged when it is sanitized again. *)
Theorem sanitize_input_idempotent (query : string) :
  sanitize_input (QStr (sanitize_input (QStr query))) =
  sanitize_input (QStr query).
Proof.
  destruct (sanitize_input_words query) as [ws [Hws [Es [Hlen Hchars]]]].
  now apply (sanitize_input_fixed _ ws).
Qed.

(** ** The patterns and the classification without the model *)

Example classify_query_fallback_examples :
  map classify_query_fallback
    ["Library HOURS"; "9780441013593 fine"; "080442957X open";
     "How to  find Dune"; "a guide to the search"; "Dune";
     "how many books can I borrow"; "books on chemistry"]%string
  = ["general"; "book"; "general"; "general"; "general"; "book";
     "general"; "book"]%string.
Proof. vm_compute. reflexivity. Qed.

Lemma last_of_snoc (d : list ascii) (c : ascii) (prev : option ascii) :
  last_of (d ++ [c]) prev = Some c.
Proof. unfold last_of. now rewrite fold_left_app. Qed.

Lemma last_of_app (d1 d2 : list ascii) (prev : option ascii) :
  last_of (d1 ++ d2) prev = last_of d2 (last_of d1 prev).
Proof. unfold last_of. now rewrite fold_left_app. Qed.

Lemma times_spec n p prev l k :
  Re.times n p prev l k = true <->
  exists d rest,
    l = d ++ rest /\ List.length d = n /\
    List.Forall (fun c => p c = true) d /\ k (last_of d prev) rest = true.
Proof.
  revert prev l. induction n as [| n IH]; intros prev l; simpl.
  - split.
    + intros Hk. exists [], l. repeat split; [constructor | exact Hk].
    + intros [d [rest [-> [Hlen [_ Hk]]]]].
      destruct d; [exact Hk | discriminate].
  - destruct l as [| c l].
    + split; [discriminate |].
      intros [d [rest [E [Hlen _]]]]. destruct d; discriminate.
    + rewrite andb_true_iff, IH. split.
      * intros [Hc [d [rest [-> [Hlen [Hd Hk]]]]]].
        exists (c :: d), rest. repeat split; simpl; auto.
      * intros [d [rest [E [Hlen [Hd Hk]]]]].
        destruct d as [| c' d]; [discriminate |].
        injection E as <- ->. inversion Hd; subst.
        split; [assumption |]. exists d, rest. repeat split; auto.
Qed.

Lemma search_from_spec r prev l :
  Re.search_from r prev l = true <->
  exists pre rest,
    l = pre ++ rest /\
    Re.run r (last_of pre prev) rest (fun _ _ => true) = true.
Proof.
  revert prev. induction l as [| c l IH]; intros prev; simpl.
  - rewrite orb_false_r. split.
    + intros H. now exists [], [].
    + intros [pre [rest [E H]]].
      symmetry in E. apply app_eq_nil in E as [-> ->]. exact H.
  - rewrite orb_true_iff, IH. split.
    + intros [H | [pre [rest [-> H]]]].
      * now exists [], (c :: l).
      * now exists (c :: pre), rest.
    + intros [pre [rest [E H]]]. destruct pre as [| c' pre].
      * left. simpl in E. now subst rest.
      * right. injection E as <- ->. now exists pre, rest.
Qed.

Lemma digit_is_w (c : ascii) : py_isdigit c = true -> Re.is_w c = true.
Proof.
  intros H. unfold Re.is_w. rewrite H. now rewrite orb_true_r.
Qed.

Lemma lower_char_not_upper (c : ascii) : PyStr.isupper (PyStr.lower_char c) = false.
Proof. destruct c as [[] [] [] [] [] [] [] []]; reflexivity. Qed.

Lemma lstrip_In (l : list ascii) (c : ascii) : In c (PyStr.lstrip_l l) -> In c l.
Proof.
  induction l as [| x l IH]; simpl; [auto |].
  destruct (PyStr.isspace x); [intros; right; auto | auto].
Qed.

Lemma strip_In (l : list ascii) (c : ascii) : In c (PyStr.strip_l l) -> In c l.
Proof.
  unfold PyStr.strip_l, PyStr.rstrip_l. intros H.
  apply in_rev, lstrip_In, in_rev, lstrip_In in H. exact H.
Qed.

(** The text that the patterns are matched against has no capital letter. *)
Lemma query_key_not_upper (query : string) (c : ascii) :
  In c (PyStr.chars (query_key query)) -> PyStr.isupper c = false.
Proof.
  unfold query_key, PyStr.strip, PyStr.lower.
  rewrite !chars_of_chars. intros H. apply strip_In in H.
  unfold PyStr.lower_l in H. apply in_map_iff in H as [x [<- _]].
  apply lower_char_not_upper.
Qed.

Lemma starts_with_digit_boundary (prev : option ascii) (c : ascii) (l : list ascii) :
  py_isdigit c = true ->
  Re.boundary prev (c :: l) = negb (match prev with
                                    | Some x => Re.is_w x
                                    | None => false
                                    end).
Proof.
  intros H. unfold Re.boundary. rewrite (digit_is_w c H).
  now destruct (match prev with Some x => Re.is_w x | None => false end).
Qed.

Lemma after_digit_boundary (c : ascii) (l : list ascii) :
  py_isdigit c = true ->
  Re.boundary (Some c) l = negb (match l with
                                 | x :: _ => Re.is_w x
                                 | [] => false
                                 end).
Proof.
  intros H. unfold Re.boundary. now rewrite (digit_is_w c H).
Qed.

Lemma last_of_not_word (pre : list ascii) :
  (forall pre' c, pre = pre' ++ [c] -> Re.is_w c = false) <->
  match last_of pre None with Some x => Re.is_w x | None => false end = false.
Proof.
  destruct (rev pre) as [| c r] eqn:E.
  - apply (f_equal (@rev ascii)) in E. rewrite rev_involutive in E. subst pre.
    simpl. split; [reflexivity |]. intros _ pre' c E. now destruct pre'.
  - apply (f_equal (@rev ascii)) in E. rewrite rev_involutive in E. simpl in E.
    subst pre. rewrite last_of_snoc. split.
    + intros H. now apply (H (rev r)).
    + intros H pre' c' E. apply app_inj_tail in E as [_ <-]. exact H.
Qed.

Lemma head_not_word (post : list ascii) :
  (forall c post', post = c :: post' -> Re.is_w c = false) <->
  match post with x :: _ => Re.is_w x | [] => false end = false.
Proof.
  destruct post as [| x post]; split; auto.
  - intros _ c post' E. discriminate.
  - intros H. now apply (H x post).
  - intros H c post' [= <- <-]. exact H.
Qed.

(** What the pattern of the ISBN finds in a text without capital letters. *)
Lemma isbn_pattern_spec (l : list ascii) :
  (forall c, In c l -> PyStr.isupper c = false) ->
  Re.search_from isbn_pattern None l = true <-> isbn_run l.
Proof.
  intros Hlow. rewrite search_from_spec. unfold isbn_run. split.
  - intros [pre [rest [-> Hrun]]].
    cbn [isbn_pattern Re.seq Re.run] in Hrun.
    apply andb_true_iff in Hrun as [Hstart Hrun].
    apply orb_true_iff in Hrun as [Hrun | Hrun];
      apply times_spec in Hrun as [d [rest' [-> [Hlen [Hd Hk]]]]].
    + destruct rest' as [| c post]; [discriminate |].
      apply andb_true_iff in Hk as [Hc Hend].
      rewrite andb_true_r in Hend.
      assert (py_isdigit c = true) as Hdigit.
      { apply orb_true_iff in Hc as [Hc | Hc]; [exact Hc |].
        apply Ascii.eqb_eq in Hc. subst c.
        specialize (Hlow "X"%char). rewrite !in_app_iff in Hlow.
        discriminate Hlow. right. right. now left. }
      exists pre, (d ++ [c]), post. rewrite <- !app_assoc. simpl.
      split; [reflexivity |]. split.
      { apply Forall_app. split; [exact Hd | now constructor]. }
      split; [left; rewrite length_app; simpl; lia |].
      rewrite last_of_not_word, head_not_word.
      rewrite after_digit_boundary in Hend by exact Hdigit.
      apply negb_true_iff in Hend. split; [| exact Hend].
      destruct d as [| c0 d]; [discriminate |]. inversion Hd; subst.
      simpl in Hstart. rewrite starts_with_digit_boundary in Hstart by assumption.
      now apply negb_true_iff in Hstart.
    + rewrite andb_true_r in Hk.
      exists pre, d, rest'. split; [reflexivity |]. split; [exact Hd |].
      split; [now right |].
      rewrite last_of_not_word, head_not_word.
      destruct d as [| c0 d]; [discriminate |]. inversion Hd; subst.
      simpl in Hstart. rewrite starts_with_digit_boundary in Hstart by assumption.
      apply negb_true_iff in Hstart. split; [exact Hstart |].
      assert (exists d' c, c0 :: d = d' ++ [c]) as [d' [c E]].
      { destruct (rev (c0 :: d)) as [| c r] eqn:E.
        - apply (f_equal (@List.length ascii)) in E. rewrite length_rev in E.
          discriminate.
        - exists (rev r), c. apply (f_equal (@rev ascii)) in E.
          now rewrite rev_involutive in E. }
      rewrite E, last_of_snoc in Hk.
      assert (py_isdigit c = true) as Hdigit.
      { assert (List.Forall (fun c => py_isdigit c = true) (c0 :: d)) as Hall
          by now constructor.
        rewrite E in Hall. apply Forall_app in Hall as [_ Hall].
        now inversion Hall. }
      rewrite after_digit_boundary in Hk by exact Hdigit.
      now apply negb_true_iff in Hk.
  - intros [pre [d [post [-> [Hd [Hlen [Hpre Hpost]]]]]]].
    exists pre, (d ++ post). split; [reflexivity |].
    rewrite last_of_not_word in Hpre. rewrite head_not_word in Hpost.
    cbn [isbn_pattern Re.seq Re.run].
    assert (exists d' c, d = d' ++ [c] /\ py_isdigit c = true /\
                         List.Forall (fun c => py_isdigit c = true) d')
      as [d' [c [E [Hc Hd']]]].
    { destruct (rev d) as [| c r] eqn:E.
      - apply (f_equal (@List.length ascii)) in E. rewrite length_rev in E.
        simpl in E. lia.
      - apply (f_equal (@rev ascii)) in E. rewrite rev_involutive in E.
        simpl in E. exists (rev r), c. split; [exact E |].
        rewrite E in Hd. apply Forall_app in Hd as [Hd1 Hd2].
        split; [now inversion Hd2 | exact Hd1]. }
    apply andb_true_iff. split.
    + destruct d as [| c0 d]; [simpl in Hlen; lia |]. inversion Hd; subst.
      simpl. rewrite starts_with_digit_boundary by assumption.
      now apply negb_true_iff.
    + apply orb_true_iff. destruct Hlen as [Hlen | Hlen].
      * left. apply times_spec. exists d', ([c] ++ post).
        split; [now rewrite E, <- app_assoc |].
        split; [rewrite E, length_app in Hlen; simpl in Hlen; lia |].
        split; [exact Hd' |]. simpl. rewrite Hc. simpl.
        rewrite after_digit_boundary by exact Hc.
        rewrite andb_true_r. now apply negb_true_iff.
      * right. apply times_spec. exists d, post.
        split; [reflexivity |]. split; [exact Hlen |]. split; [exact Hd |].
        rewrite andb_true_r, E, last_of_snoc.
        rewrite after_digit_boundary by exact Hc. now apply negb_true_iff.
Qed.

Lemma classify_query_fallback_values (query : string) :
  classify_query_fallback query = "book"%string \/
  classify_query_fallback query = "general"%string.
Proof.
  unfold classify_query_fallback. cbv zeta.
  repeat match goal with
         | |- context [if ?b then _ else _] => destruct b
         end; auto.
Qed.

(** X16 ([classify_query_fallback]).  The ISBN test succeeds exactly when
    the lower-cased, stripped query holds a run of 10 or of 13 decimal
    digits that is not part of a longer word; such a query is a book query
    whatever else it says.  The check character X of an ISBN-10 is never
    accepted, the query being lower-cased before the test. *)
Theorem classify_query_fallback_isbn (query : string) :
  (Re.search isbn_pattern (query_key query) = true <->
   isbn_run (PyStr.chars (query_key query))) /\
  (isbn_run (PyStr.chars (query_key query)) ->
   classify_query_fallback query = "book"%string).
Proof.
  assert (Re.search isbn_pattern (query_key query) = true <->
          isbn_run (PyStr.chars (query_key query))) as Hiff.
  { apply isbn_pattern_spec, query_key_not_upper. }
  split; [exact Hiff |].
  intros Hrun. apply Hiff in Hrun.
  unfold classify_query_fallback. cbv zeta.
  fold (query_key query). now rewrite Hrun.
Qed.

Lemma classify_query_fallback_isbn_witness :
  classify_query_fallback "Is 9780441013593 at the Helpdesk?" = "book"%string.
Proof.
  apply (proj2 (classify_query_fallback_isbn
                  "Is 9780441013593 at the Helpdesk?")).
  exists (PyStr.chars "is" ++ [" "%char]), (PyStr.chars "9780441013593"),
    (PyStr.chars " at the helpdesk?").
  split; [vm_compute; reflexivity |].
  split; [repeat constructor |].
  split; [right; reflexivity |].
  split.
  - intros pre' c E. apply app_inj_tail in E as [_ <-]. reflexivity.
  - intros c post' [= <- _]. reflexivity.
Defined.

(** X17 ([classify_query_fallback]).  The answer is "general" exactly when
    the ISBN test fails and the query holds an e-resource phrase or a general
    keyword or matches an instructional pattern; in every other case it is
    "book".  The book keywords, the book indicators, the subject patterns and
    the length of the query have no say. *)
Theorem classify_query_fallback_general (query : string) :
  let query_lower := query_key query in
  let general :=
    negb (Re.search isbn_pattern query_lower) &&
    (any_in eresource_patterns query_lower ||
     any_in general_keywords query_lower ||
     any_search instructional_patterns query_lower) in
  classify_query_fallback query =
  if general then "general"%string else "book"%string.
Proof.
  cbv zeta. unfold classify_query_fallback. cbv zeta.
  fold (query_key query).
  destruct (Re.search isbn_pattern (query_key query)); [reflexivity |].
  destruct (any_in eresource_patterns (query_key query)); [reflexivity |].
  destruct (any_in general_keywords (query_key query)); [reflexivity |].
  destruct (any_search instructional_patterns (query_key query));
    [reflexivity |].
  cbn [negb andb orb].
  repeat match goal with
         | |- context [if ?b then _ else _] => destruct b
         end; reflexivity.
Qed.

(** ** Classification with the model and the cache *)

Lemma dict_set_In {V} k (v : V) d e :
  In e (dict_set k v d) -> e = (k, v) \/ In e d.
Proof.
  induction d as [| [k' v'] d IH]; simpl.
  - intros [<- | []]. now left.
  - destruct (String.eqb_spec k' k) as [-> | Hne].
    + intros [<- | H]; [now left | right; now right].
    + intros [<- | H]; [right; now left |].
      destruct (IH H) as [-> | H']; [now left | right; now right].
Qed.

Lemma cache_classification_In now query cls (cache : list cache_entry) e :
  In e (cache_classification now query cls cache) ->
  e = (query_key query, (cls, now)) \/ In e cache.
Proof.
  unfold cache_classification. cbv zeta.
  destruct (500 <? _); [| apply dict_set_In].
  rewrite fold_dict_del. intros H. apply filter_In in H as [H _].
  now apply dict_set_In.
Qed.

Lemma get_cached_classification_In now query (cache : list cache_entry) e :
  In e (snd (get_cached_classification now query cache)) -> In e cache.
Proof.
  unfold get_cached_classification. cbv zeta.
  destruct (dict_get _ cache) as [[cls ts] |]; [| auto].
  destruct (_ <? _)%Z; [auto |]. cbn [snd]. unfold dict_del.
  intros H. now apply filter_In in H as [H _].
Qed.

Lemma get_cached_classification_hit now query (cache : list cache_entry) cls :
  fst (get_cached_classification now query cache) = Some cls ->
  snd (get_cached_classification now query cache) = cache /\
  exists ts, In (query_key query, (cls, ts)) cache.
Proof.
  unfold get_cached_classification. cbv zeta.
  destruct (dict_get _ cache) as [[cls' ts] |] eqn:Hg; [| discriminate].
  destruct (_ <? _)%Z; [| discriminate]. cbn [fst snd]. intros [= ->].
  split; [reflexivity |]. exists ts. now apply dict_get_In.
Qed.

(** What a call that misses the cache returns: one of the two classes, which
    it stores under the key of the query at the time of storing. *)
Lemma classify_query_with_llama_miss force groq t_lookup t_store query
    (cache : list cache_entry) :
  (forall cls, fst (get_cached_classification t_lookup query cache) = Some cls ->
               cls = ""%string) ->
  exists r,
    (r = "book"%string \/ r = "general"%string) /\
    Llama.classify_query_with_llama force groq t_lookup t_store query cache
    = (r, cache_classification t_store query r
            (snd (get_cached_classification t_lookup query cache))).
Proof.
  intros Hmiss. unfold Llama.classify_query_with_llama.
  destruct (get_cached_classification t_lookup query cache) as [cached c0].
  cbn [fst snd] in *. cbv zeta.
  assert (exists r, (r = "book"%string \/ r = "general"%string) /\
            (classify_query_fallback query,
             cache_classification t_store query
               (classify_query_fallback query) c0)
            = (r, cache_classification t_store query r c0)) as Hfb.
  { exists (classify_query_fallback query).
    split; [apply classify_query_fallback_values | reflexivity]. }
  destruct cached as [[| a s] |];
    [| discriminate (Hmiss _ eq_refl) |].
  all: destruct force; [exact Hfb |].
  all: destruct groq as [create |]; [| exact Hfb].
  all: destruct (create query) as [content |]; [| exact Hfb].
  all: cbv zeta.
  all: destruct (PyStr.contains "book" _);
    [exists "book"%string; split; [now left | reflexivity] |].
  all: destruct (PyStr.contains "general" _);
    [exists "general"%string; split; [now right | reflexivity] | exact Hfb].
Qed.

(** X18 ([classify_query_with_llama]).  When every cached classification
    is "book" or "general", the answer is "book" or "general" and the cache
    keeps that property, whatever the model replies: a reply that names
    neither class, an empty reply and an exception all lead to the keyword
    classification. *)
Theorem classify_query_with_llama_two_classes (force : bool)
    (groq : option (string -> raising (option string)))
    (t_lookup t_store : Z) (query : string) (cache : list cache_entry) :
  two_classes cache ->
  let result :=
    Llama.classify_query_with_llama force groq t_lookup t_store query cache in
  (fst result = "book"%string \/ fst result = "general"%string) /\
  two_classes (snd result).
Proof.
  intros Hcache. cbv zeta.
  destruct (fst (get_cached_classification t_lookup query cache))
    as [cls |] eqn:Hlook.
  - destruct (get_cached_classification_hit _ _ _ _ Hlook) as [Hsame [ts Hin]].
    pose proof (Hcache _ Hin) as Hcls. cbn [fst snd] in Hcls.
    unfold Llama.classify_query_with_llama.
    destruct (get_cached_classification t_lookup query cache) as [cached c0].
    cbn [fst snd] in *. subst cached c0.
    destruct cls as [| a s];
      [destruct Hcls as [Hcls | Hcls]; discriminate Hcls |].
    cbn [fst snd]. split; [exact Hcls | exact Hcache].
  - destruct (classify_query_with_llama_miss force groq t_lookup t_store
                query cache) as [r [Hr ->]].
    { intros cls Hcls. rewrite Hlook in Hcls. discriminate. }
    cbn [fst snd]. split; [exact Hr |].
    intros e He. apply cache_classification_In in He as [-> | He].
    + exact Hr.
    + apply Hcache. eapply get_cached_classification_In, He.
Qed.

Lemma classify_query_with_llama_two_classes_witness :
  two_classes
    (snd (Llama.classify_query_with_llama false
            (Some (fun _ => Ok (Some "I cannot tell"%string))) 7300 7301
            "opening hours"
            [("opening hours"%string, ("general"%string, 3%Z))])).
Proof.
  apply (proj2 (classify_query_with_llama_two_classes false
                  (Some (fun _ => Ok (Some "I cannot tell"%string)))
                  7300 7301 "opening hours"
                  [("opening hours"%string, ("general"%string, 3%Z))]
                  ltac:(intros e [<- | []]; now right))).
Defined.

(** X19 ([classify_query_with_llama]).  A call that does not find the
    query in the cache stores its answer, and for less than the time to live
    after that every call with a query of the same normalized key returns
    this answer and leaves the cache as it is, without asking the model:
    whatever the client and the flag are by then. *)
Theorem classify_query_with_llama_memo (force force' : bool)
    (groq groq' : option (string -> raising (option string)))
    (t_lookup t_store t_lookup' t_store' : Z) (query query' : string)
    (cache : list cache_entry) :
  List.NoDup (map fst cache) ->
  List.length cache <= 500 ->
  (forall e, In e cache -> (entry_time e <= t_store)%Z) ->
  fst (get_cached_classification t_lookup query cache) = None ->
  query_key query' = query_key query ->
  (t_lookup' - t_store < CLASSIFICATION_CACHE_TTL)%Z ->
  let first :=
    Llama.classify_query_with_llama force groq t_lookup t_store query cache in
  Llama.classify_query_with_llama force' groq' t_lookup' t_store' query'
    (snd first)
  = first.
Proof.
  intros Hnd Hlen Hold Hmiss Hkey Hfresh. cbv zeta.
  destruct (classify_query_with_llama_miss force groq t_lookup t_store
              query cache) as [r [Hr ->]].
  { intros cls Hcls. rewrite Hmiss in Hcls. discriminate. }
  cbn [snd].
  set (c0 := snd (get_cached_classification t_lookup query cache)).
  assert (List.NoDup (map fst c0) /\ List.length c0 <= 500 /\
          (forall e, In e c0 -> (entry_time e <= t_store)%Z))
    as [Hnd0 [Hlen0 Hold0]].
  { subst c0. unfold get_cached_classification. cbv zeta.
    destruct (dict_get _ cache) as [[cls ts] |]; [| now cbn [snd]].
    destruct (_ <? _)%Z; [now cbn [snd] |]. cbn [snd].
    split; [now apply dict_del_keys_NoDup |]. split.
    - unfold dict_del. etransitivity; [apply filter_length_le | exact Hlen].
    - intros e He. apply Hold. unfold dict_del in He.
      now apply filter_In in He as [He _]. }
  unfold Llama.classify_query_with_llama at 1.
  unfold get_cached_classification. cbv zeta. rewrite Hkey.
  rewrite cache_classification_get by assumption.
  rewrite (proj2 (Z.ltb_lt _ _) Hfresh).
  now destruct Hr as [-> | ->].
Qed.

Lemma classify_query_with_llama_memo_witness :
  Llama.classify_query_with_llama true None 14500 14501 " opening HOURS "
    (snd (Llama.classify_query_with_llama false
            (Some (fun _ => Ok (Some " Book. "%string))) 7300 7301
            "Opening hours"
            [("opening hours"%string, ("general"%string, 3%Z))]))
  = Llama.classify_query_with_llama false
      (Some (fun _ => Ok (Some " Book. "%string))) 7300 7301
      "Opening hours" [("opening hours"%string, ("general"%string, 3%Z))].
Proof.
  apply classify_query_with_llama_memo.
  - apply NoDup_ListNoDup, (bool_decide_unpack _). vm_compute. exact I.
  - simpl. lia.
  - intros e [<- | []]. vm_compute. discriminate.
  - vm_compute. reflexivity.
  - vm_compute. reflexivity.
  - vm_compute. reflexivity.
Defined.

(** ** Author queries *)

Example normalize_book_query_examples :
  map (fun q => normalize_book_query q q)
    [" Books by Tolkien?! "; "author: Asimov, Isaac."; "the author";
     "standby power"; "nearby places"; "poems by  Keats. !"]%string
  = [("Tolkien", "author"); ("Asimov, Isaac", "author");
     ("the author", "topic"); ("power", "author");
     ("places", "author"); ("Keats.", "author")]%string.
Proof. vm_compute. reflexivity. Qed.

Lemma starts_with_spec (p l : list ascii) :
  PyStr.starts_with p l = true <-> exists post, l = p ++ post.
Proof.
  revert l. induction p as [| a p IH]; intros l; simpl.
  - split; [intros _; now exists l | reflexivity].
  - destruct l as [| b l].
    + split; [discriminate | intros [post E]; discriminate].
    + rewrite andb_true_iff, IH. split.
      * intros [E [post ->]]. apply Ascii.eqb_eq in E. subst. now exists post.
      * intros [post [= -> ->]]. split; [apply Ascii.eqb_refl | now exists post].
Qed.

Lemma contains_l_spec (p l : list ascii) :
  PyStr.contains_l p l = true <-> exists pre post, l = pre ++ p ++ post.
Proof.
  induction l as [| c l IH].
  - simpl. rewrite orb_false_r, starts_with_spec. split.
    + intros [post E]. now exists [], post.
    + intros [pre [post E]]. destruct pre; [now exists post |]. discriminate.
  - cbn [PyStr.contains_l]. rewrite orb_true_iff, starts_with_spec, IH. split.
    + intros [[post E] | [pre [post E]]].
      * now exists [], post.
      * exists (c :: pre), post. simpl. now rewrite E.
    + intros [pre [post E]]. destruct pre as [| c' pre].
      * left. now exists post.
      * right. injection E as _ E. now exists pre, post.
Qed.

Lemma chars_app (a b : string) :
  PyStr.chars (a +:+ b) = PyStr.chars a ++ PyStr.chars b.
Proof.
  unfold PyStr.chars. induction a as [| c a IH]; simpl; [reflexivity |].
  now rewrite IH.
Qed.

(** A text that holds [a ++ p ++ b] holds [p]. *)
Lemma contains_part (a p b : string) (s : string) :
  PyStr.contains (a +:+ p +:+ b) s = true -> PyStr.contains p s = true.
Proof.
  unfold PyStr.contains. rewrite !contains_l_spec.
  intros [pre [post E]]. exists (pre ++ PyStr.chars a), (PyStr.chars b ++ post).
  rewrite E, !chars_app. now rewrite <- !app_assoc.
Qed.

(** X20 ([normalize_book_query]).  The intent is "author" exactly when the
    lower-cased, stripped corrected query holds "by ", "author: " or
    "author "; the word "author" without a colon and space or a space after
    it makes no author query.  A query of intent "topic" is the stripped
    corrected query. *)
Theorem normalize_book_query_intent (original_query corrected_query : string) :
  let q_lower := PyStr.lower (PyStr.strip corrected_query) in
  let named :=
    PyStr.contains "by " q_lower || PyStr.contains "author: " q_lower ||
    PyStr.contains "author " q_lower in
  snd (normalize_book_query original_query corrected_query) =
  (if named then "author" else "topic")%string /\
  (named = false ->
   normalize_book_query original_query corrected_query =
   (PyStr.strip corrected_query, "topic"%string)).
Proof.
  cbv zeta. unfold normalize_book_query. cbv zeta.
  set (q_lower := PyStr.lower (PyStr.strip corrected_query)).
  assert (PyStr.contains "books by " q_lower = true ->
          PyStr.contains "by " q_lower = true) as Hbooks
    by exact (contains_part "books " "by " "" q_lower).
  assert (PyStr.contains "author: " q_lower = true ->
          PyStr.contains "author" q_lower = true) as Hcolon
    by exact (contains_part "" "author" ": " q_lower).
  assert (PyStr.contains "author " q_lower = true ->
          PyStr.contains "author" q_lower = true) as Hspace
    by exact (contains_part "" "author" " " q_lower).
  unfold author_prefixes. cbn [List.find].
  destruct (PyStr.contains "books by " q_lower);
    [rewrite Hbooks by reflexivity |];
    (destruct (PyStr.contains "by " q_lower); [now cbn |]);
    (destruct (PyStr.contains "author: " q_lower);
       [rewrite Hcolon by reflexivity; now cbn |]);
    (destruct (PyStr.contains "author " q_lower);
       [rewrite Hspace by reflexivity; now cbn |]);
    destruct (PyStr.contains "author" q_lower); now cbn.
Qed.

Lemma normalize_book_query_intent_witness :
  normalize_book_query "the Author" "the author"
  = ("the author"%string, "topic"%string).
Proof.
  apply (proj2 (normalize_book_query_intent "the Author" "the author")).
  vm_compute. reflexivity.
Defined.

Lemma lstrip_head (l : list ascii) (c : ascii) (r : list ascii) :
  PyStr.lstrip_l l = c :: r -> PyStr.isspace c = false.
Proof.
  induction l as [| x l IH]; simpl; [discriminate |].
  destruct (PyStr.isspace x) eqn:E; [exact IH |]. now intros [= <- _].
Qed.

Lemma lstrip_fixed (l : list ascii) :
  (forall c r, l = c :: r -> PyStr.isspace c = false) ->
  PyStr.lstrip_l l = l.
Proof.
  destruct l as [| c l]; [reflexivity |]. intros H.
  apply lstrip_no_lead. now apply (H c l).
Qed.

Lemma rstrip_fixed (l : list ascii) :
  (forall r c, l = r ++ [c] -> PyStr.isspace c = false) ->
  PyStr.rstrip_l l = l.
Proof.
  intros H. unfold PyStr.rstrip_l. rewrite lstrip_fixed.
  - apply rev_involutive.
  - intros c r E. apply (H (rev r) c).
    apply (f_equal (@rev ascii)) in E. now rewrite rev_involutive in E.
Qed.

Lemma strip_fixed (l : list ascii) :
  (forall c r, l = c :: r -> PyStr.isspace c = false) ->
  (forall r c, l = r ++ [c] -> PyStr.isspace c = false) ->
  PyStr.strip_l l = l.
Proof.
  intros Hhead Hlast. unfold PyStr.strip_l.
  rewrite lstrip_fixed by exact Hhead. now apply rstrip_fixed.
Qed.

(** A stripped text neither starts nor ends with white space. *)
Lemma strip_ends (l : list ascii) :
  (forall c r, PyStr.strip_l l = c :: r -> PyStr.isspace c = false) /\
  (forall r c, PyStr.strip_l l = r ++ [c] -> PyStr.isspace c = false).
Proof.
  assert (forall r c, PyStr.strip_l l = r ++ [c] -> PyStr.isspace c = false)
    as Hlast.
  { unfold PyStr.strip_l, PyStr.rstrip_l. intros r c E.
    apply (f_equal (@rev ascii)) in E.
    rewrite rev_involutive, rev_app_distr in E. simpl in E.
    now apply lstrip_head in E. }
  split; [| exact Hlast].
  intros c r E.
  destruct (PyStr.lstrip_l l) as [| x m] eqn:El.
  - unfold PyStr.strip_l in E. rewrite El in E. discriminate.
  - pose proof (lstrip_head _ _ _ El) as Hx.
    unfold PyStr.strip_l in E. rewrite El in E.
    change (x :: m) with ([x] ++ m) in E.
    destruct (PyStr.rstrip_l m) as [| y m'] eqn:Em.
    + rewrite rstrip_app_drop in E by exact Em.
      unfold PyStr.rstrip_l in E. simpl in E. rewrite Hx in E.
      simpl in E. now injection E as <- _.
    + rewrite rstrip_app_keep in E by (rewrite Em; discriminate).
      now injection E as <- _.
Qed.

Lemma snoc_cases {A} (l : list A) : l = [] \/ exists r c, l = r ++ [c].
Proof.
  destruct (rev l) as [| c r] eqn:E; apply (f_equal (@rev A)) in E;
    rewrite rev_involutive in E; [now left |].
  right. now exists (rev r), c.
Qed.

Lemma drop_while_all {A} (f : A -> bool) (a b : list A) :
  List.Forall (fun x => f x = true) a ->
  drop_while f (a ++ b) = drop_while f b.
Proof.
  induction a as [| x a IH]; intros Ha; [reflexivity |].
  inversion Ha as [| ? ? Hx Ha']; subst. simpl. rewrite Hx. now apply IH.
Qed.

Lemma lower_b_not_space (c : ascii) :
  PyStr.lower_char c = "b"%char -> PyStr.isspace c = false.
Proof.
  destruct c as [[] [] [] [] [] [] [] []]; vm_compute; congruence.
Qed.

Lemma end_punct_not_space (c : ascii) :
  is_end_punct c = true -> PyStr.isspace c = false.
Proof.
  destruct c as [[] [] [] [] [] [] [] []]; vm_compute; congruence.
Qed.

(** X21 ([normalize_book_query]).  For an original query that reads
    "books by", in any case, then a name and then any run of the characters
    [?.,!], and a corrected query that still starts with "books by ", the
    author searched for is the name as it was typed: the corrected query only
    places the cut, its spelling of the name is not used.  The name is any
    text without white space around it that does not end in one of
    [?.,!]. *)
Theorem normalize_book_query_books_by (lead name tail corrected_query : string) :
  PyStr.lower lead = "books by "%string ->
  PyStr.starts_with (PyStr.chars "books by ")
    (PyStr.chars (PyStr.lower (PyStr.strip corrected_query))) = true ->
  name <> ""%string ->
  PyStr.strip name = name ->
  (forall r c, PyStr.chars name = r ++ [c] -> is_end_punct c = false) ->
  List.Forall (fun c => is_end_punct c = true) (PyStr.chars tail) ->
  normalize_book_query (lead +:+ name +:+ tail) corrected_query
  = (name, "author"%string).
Proof.
  intros Hlead Hstart Hname Hstrip Hend Htail.
  (* the name, as a list *)
  assert (PyStr.strip_l (PyStr.chars name) = PyStr.chars name) as Hstrip_l.
  { unfold PyStr.strip in Hstrip. rewrite <- Hstrip at 2.
    now rewrite chars_of_chars. }
  destruct (strip_ends (PyStr.chars name)) as [Hhead Hlast].
  rewrite Hstrip_l in Hhead, Hlast.
  destruct (PyStr.chars name) as [| n0 ns] eqn:En.
  { exfalso. apply Hname. rewrite <- (of_chars_chars name), En. reflexivity. }
  (* the lead has nine characters and starts with a letter *)
  assert (exists l0 ls, PyStr.chars lead = l0 :: ls /\
                        List.length (l0 :: ls) = 9 /\
                        PyStr.isspace l0 = false) as [l0 [ls [El [Hlen9 Hl0]]]].
  { apply (f_equal PyStr.chars) in Hlead. unfold PyStr.lower in Hlead.
    rewrite chars_of_chars in Hlead. unfold PyStr.lower_l in Hlead.
    destruct (PyStr.chars lead) as [| l0 ls]; [discriminate |].
    exists l0, ls. split; [reflexivity |]. split.
    - apply (f_equal (@List.length ascii)) in Hlead.
      now rewrite length_map in Hlead.
    - simpl in Hlead. injection Hlead as Hb _. now apply lower_b_not_space. }
  (* the name with the tail ends without white space *)
  assert (forall r c, (n0 :: ns) ++ PyStr.chars tail = r ++ [c] ->
                      PyStr.isspace c = false) as Hnt_last.
  { intros r c E. destruct (rev (PyStr.chars tail)) as [| t ts] eqn:Et.
    - apply (f_equal (@rev ascii)) in Et. rewrite rev_involutive in Et.
      simpl in Et. rewrite Et, app_nil_r in E. now apply (Hlast r).
    - apply (f_equal (@rev ascii)) in Et. rewrite rev_involutive in Et.
      simpl in Et. rewrite Et, app_assoc in E.
      apply app_inj_tail in E as [_ <-].
      apply end_punct_not_space. rewrite Et in Htail.
      apply Forall_app in Htail as [_ Htail]. now inversion Htail. }
  unfold normalize_book_query. cbv zeta.
  set (q_lower := PyStr.lower (PyStr.strip corrected_query)) in *.
  assert (PyStr.contains "books by " q_lower = true) as Hbooks.
  { unfold PyStr.contains. destruct (PyStr.chars q_lower); simpl in *;
      [discriminate | now rewrite Hstart]. }
  assert (PyStr.contains "by " q_lower = true) as Hby
    by exact (contains_part "books " "by " "" q_lower Hbooks).
  rewrite Hby. cbn [orb]. unfold author_prefixes. cbn [List.find].
  rewrite Hbooks.
  assert (find_l (PyStr.chars "books by ") (PyStr.chars q_lower) = Some 0)
    as ->.
  { destruct (PyStr.chars q_lower); cbn [find_l]; now rewrite Hstart. }
  f_equal.
  (* the stripped original query is the original query *)
  assert (PyStr.chars (PyStr.strip (lead +:+ name +:+ tail))
          = (l0 :: ls) ++ (n0 :: ns) ++ PyStr.chars tail) as ->.
  { unfold PyStr.strip. rewrite chars_of_chars, !chars_app, El, En.
    apply strip_fixed.
    - intros c r [= <- _]. exact Hl0.
    - intros r c E.
      destruct (snoc_cases ((n0 :: ns) ++ PyStr.chars tail))
        as [Hnil | [r' [c' E']]]; [discriminate |].
      rewrite E', app_assoc in E. apply app_inj_tail in E as [_ <-].
      now apply (Hnt_last r'). }
  replace (0 + PyStr.len "books by ") with (List.length (l0 :: ls))
    by (rewrite Hlen9; reflexivity).
  rewrite List.skipn_app, List.skipn_all, Nat.sub_diag. cbn [skipn app].
  rewrite (strip_fixed (n0 :: ns ++ PyStr.chars tail)).
  2:{ intros c r [= <- _]. now apply (Hhead n0 ns). }
  2:{ exact Hnt_last. }
  (* the run at the end is cut *)
  change (n0 :: ns ++ PyStr.chars tail)
    with ((n0 :: ns) ++ PyStr.chars tail).
  assert (sub_end_punct ((n0 :: ns) ++ PyStr.chars tail) = n0 :: ns) as ->.
  { unfold sub_end_punct. rewrite rev_app_distr.
    destruct (rev (n0 :: ns)) as [| y ys] eqn:Ey.
    { apply (f_equal (@List.length ascii)) in Ey.
      rewrite length_rev in Ey. discriminate. }
    assert (is_end_punct y = false) as Hy.
    { apply (Hend (rev ys)). apply (f_equal (@rev ascii)) in Ey.
      now rewrite rev_involutive in Ey. }
    assert (PyStr.isspace y = false) as Hys.
    { apply (Hlast (rev ys)). apply (f_equal (@rev ascii)) in Ey.
      now rewrite rev_involutive in Ey. }
    assert (List.Forall (fun c => is_end_punct c = true)
              (rev (PyStr.chars tail))) as Hrt.
    { apply List.Forall_forall. intros c Hc. apply in_rev in Hc.
      revert c Hc. now apply List.Forall_forall. }
    destruct (rev (PyStr.chars tail)) as [| t ts] eqn:Et.
    - cbn [app]. destruct (Ascii.eqb_spec y "010"%char) as [-> | _];
        [discriminate Hys |].
      cbn [drop_while]. rewrite Hy. rewrite <- Ey. apply rev_involutive.
    - cbn [app]. inversion Hrt as [| ? ? Ht Hts]; subst.
      destruct (Ascii.eqb_spec t "010"%char) as [-> | _];
        [discriminate Ht |].
      change (t :: ts ++ y :: ys) with ((t :: ts) ++ y :: ys).
      rewrite drop_while_all by (now constructor).
      cbn [drop_while]. rewrite Hy. rewrite <- Ey. apply rev_involutive. }
  rewrite Hstrip_l, <- En. apply of_chars_chars.
Qed.

Lemma normalize_book_query_books_by_witness :
  normalize_book_query "Books BY J. R. R. Tolkein?!" "books by j. r. r. tolkien?!"
  = ("J. R. R. Tolkein"%string, "author"%string).
Proof.
  apply (normalize_book_query_books_by "Books BY " "J. R. R. Tolkein" "?!").
  - reflexivity.
  - reflexivity.
  - discriminate.
  - reflexivity.
  - intros r c E.
    change (PyStr.chars "J. R. R. Tolkein")
      with (PyStr.chars "J. R. R. Tolkei" ++ ["n"%char]) in E.
    apply app_inj_tail in E as [_ <-]. reflexivity.
  - repeat constructor.
Defined.
